(** * pyrogram_auth: the QR-login coordinator and the session-string script

    A shallow embedding of [qr-auth/qr-auth.py] and
    [string-auth/string-auth.py].

    - Python [int] is [Z]; [bytes] is [list byte]; [str] is [string].
    - A coroutine is a computation in the monad [M]: it reads and writes a
      world (the module globals and the client object), may raise a Python
      exception, and appends to a trace of the calls it makes on the outside
      (prints, log records, sleeps, calls of the Pyrogram client).
    - What the outside answers (the value a client call returns or the
      exception it raises, what the operator types, which updates the
      dispatcher hands to [raw_update_handler] while the coordinator is
      suspended in an [await]) is an explicit environment argument.
    - Only subclasses of [Exception] are modelled: a [KeyboardInterrupt]
      or a [CancelledError] thrown into a coroutine is outside the model. *)

From Stdlib Require Import List ZArith Lia Bool String Ascii.
From Stdlib.Strings Require Import Byte.
Import ListNotations.

Local Open Scope string_scope.
Local Open Scope Z_scope.

(* ================================================================== *)
(** * base64 (Python's [base64] module, as used by [generate_qr]) *)
(* ================================================================== *)

Module Base64.

(** The standard alphabet of [base64.b64encode]. *)
Definition std_alphabet : string :=
  "ABCDEFGHIJKLMNOPQRSTUVWXYZabcdefghijklmnopqrstuvwxyz0123456789+/".

(** The alphabet of RFC 4648 section 5 ("base64url"). *)
Definition url_alphabet : string :=
  "ABCDEFGHIJKLMNOPQRSTUVWXYZabcdefghijklmnopqrstuvwxyz0123456789-_".

Definition pad : ascii := "="%char.

(** The character of a 6-bit value in a table. *)
Definition sextet (table : string) (i : Z) : ascii :=
  match String.get (Z.to_nat i) table with
  | Some c => c
  | None => pad
  end.

Definition byteZ (b : byte) : Z := Z.of_N (Byte.to_N b).

(** The four 6-bit values of a 24-bit group [a b c]. *)
Definition six1 (a : Z) : Z := Z.shiftr a 2.
Definition six2 (a b : Z) : Z := Z.lor (Z.shiftl (Z.land a 3) 4) (Z.shiftr b 4).
Definition six3 (b c : Z) : Z := Z.lor (Z.shiftl (Z.land b 15) 2) (Z.shiftr c 6).
Definition six4 (c : Z) : Z := Z.land c 63.

(** Encoding with padding, three input bytes to four output characters. *)
Fixpoint encode_with (table : string) (bs : list byte) : string :=
  match bs with
  | [] => EmptyString
  | [a] =>
      String (sextet table (six1 (byteZ a)))
        (String (sextet table (six2 (byteZ a) 0))
           (String pad (String pad EmptyString)))
  | [a; b] =>
      String (sextet table (six1 (byteZ a)))
        (String (sextet table (six2 (byteZ a) (byteZ b)))
           (String (sextet table (six3 (byteZ b) 0))
              (String pad EmptyString)))
  | a :: b :: c :: rest =>
      String (sextet table (six1 (byteZ a)))
        (String (sextet table (six2 (byteZ a) (byteZ b)))
           (String (sextet table (six3 (byteZ b) (byteZ c)))
              (String (sextet table (six4 (byteZ c)))
                 (encode_with table rest))))
  end.

(** [base64.b64encode(s)]. *)
Definition b64encode (bs : list byte) : string := encode_with std_alphabet bs.

(** [bytes.translate(_urlsafe_encode_translation)]: [+] becomes [-] and
    [/] becomes [_]. *)
Definition urlsafe_translate_char (c : ascii) : ascii :=
  if Ascii.eqb c "+"%char then "-"%char
  else if Ascii.eqb c "/"%char then "_"%char
  else c.

Fixpoint translate (f : ascii -> ascii) (s : string) : string :=
  match s with
  | EmptyString => EmptyString
  | String c s' => String (f c) (translate f s')
  end.

(** [base64.urlsafe_b64encode(s)], which the standard library defines as
    [b64encode(s).translate(_urlsafe_encode_translation)]. *)
Definition urlsafe_b64encode (bs : list byte) : string :=
  translate urlsafe_translate_char (b64encode bs).

(** The specification's [base64url(token_bytes)]: RFC 4648 section 5,
    written directly over the URL-safe alphabet. *)
Definition base64url (bs : list byte) : string := encode_with url_alphabet bs.

(** A character that may appear in a base64url text. *)
Definition url_safe_char (c : ascii) : bool :=
  let n := nat_of_ascii c in
  ((65 <=? n) && (n <=? 90))%nat || ((97 <=? n) && (n <=? 122))%nat
  || ((48 <=? n) && (n <=? 57))%nat
  || Ascii.eqb c "-"%char || Ascii.eqb c "_"%char || Ascii.eqb c pad.

Fixpoint string_forallb (p : ascii -> bool) (s : string) : bool :=
  match s with
  | EmptyString => true
  | String c s' => p c && string_forallb p s'
  end.

End Base64.

(* ================================================================== *)
(** * Effects: exceptions, traces and the coroutine monad *)
(* ================================================================== *)

Module Effects.

(** ** Pyrogram's exception classes, as far as the scripts name them *)

(** The families of [pyrogram.errors] (direct subclasses of [RPCError]). *)
Inductive category :=
| SeeOther | BadRequest | Unauthorized | Forbidden | NotAcceptable
| Flood | InternalServerError
| Uncategorized.              (* [RPCError] itself, or another family *)

(** The leaf classes the scripts catch by name; [OtherClass] is any other
    subclass of [RPCError], with its family and its class name. *)
Inductive rpc_class :=
| AuthKeyUnregistered | AuthKeyInvalid | SessionExpired | SessionRevoked
| UserDeactivated | UserDeactivatedBan | SessionPasswordNeeded
| AuthKeyDuplicated
| FloodWait
| PasswordHashInvalid
| OtherClass (family : category) (name : string).

Definition category_of (c : rpc_class) : category :=
  match c with
  | AuthKeyUnregistered | AuthKeyInvalid | SessionExpired | SessionRevoked
  | UserDeactivated | UserDeactivatedBan | SessionPasswordNeeded => Unauthorized
  | AuthKeyDuplicated => NotAcceptable
  | FloodWait => Flood
  | PasswordHashInvalid => BadRequest
  | OtherClass family _ => family
  end.

(** A raised exception: an [RPCError] with its [value] attribute (for
    [FloodWait], the seconds to wait) and its text, or any other
    [Exception] with its class name and text. *)
Inductive exn :=
| RPCError (cls : rpc_class) (value : Z) (text : string)
| PyException (name : string) (text : string).

Definition category_eqb (a b : category) : bool :=
  match a, b with
  | SeeOther, SeeOther | BadRequest, BadRequest | Unauthorized, Unauthorized
  | Forbidden, Forbidden | NotAcceptable, NotAcceptable | Flood, Flood
  | InternalServerError, InternalServerError
  | Uncategorized, Uncategorized => true
  | _, _ => false
  end.

(** [isinstance(e, RPCError)]. *)
Definition is_RPCError (e : exn) : bool :=
  match e with RPCError _ _ _ => true | PyException _ _ => false end.

(** [isinstance(e, <family>)]. *)
Definition in_category (k : category) (e : exn) : bool :=
  match e with
  | RPCError cls _ _ => category_eqb (category_of cls) k
  | PyException _ _ => false
  end.

(** [isinstance(e, FloodWait)] and the like. *)
Definition is_FloodWait (e : exn) : bool :=
  match e with RPCError FloodWait _ _ => true | _ => false end.
Definition is_SessionPasswordNeeded (e : exn) : bool :=
  match e with RPCError SessionPasswordNeeded _ _ => true | _ => false end.
Definition is_PasswordHashInvalid (e : exn) : bool :=
  match e with RPCError PasswordHashInvalid _ _ => true | _ => false end.
Definition is_TimeoutError (e : exn) : bool :=
  match e with PyException name _ => String.eqb name "TimeoutError" | _ => false end.

(** [e.value]. *)
Definition exn_value (e : exn) : Z :=
  match e with RPCError _ v _ => v | PyException _ _ => 0 end.

(** ** The trace *)

Inductive level := INFO | WARNING | ERROR.

(** The pieces of an f-string.  [ExcStr e] is [{e}], [ExcName e] is
    [{type(e).__name__}], [Obj s] the [str] of an object of the library,
    [LJust w f] the format [{f:<w}]. *)
Inductive frag :=
| Str (s : string)
| Num (n : Z)
| ExcStr (e : exn)
| ExcName (e : exn)
| Obj (s : string)
| LJust (width : nat) (f : frag).

Definition text := list frag.

Inductive task_kind :=
| Wait_SESSION_CREATED        (* [SESSION_CREATED.wait()] *)
| Timer (secs : Z)            (* [asyncio.sleep(secs)] *)
| Wait_DC_MIGRATED.           (* [DC_MIGRATED.wait()] *)

(** Calls on the Pyrogram client and the objects it owns. *)
Inductive client_call :=
| NewClient (name : string) (session_string : option string) (in_memory : bool)
| Connect
| Disconnect
| ExportLoginToken            (* [client.invoke(raw.functions.auth.ExportLoginToken(...))] *)
| GetNearestDc                (* [client.invoke(raw.functions.help.GetNearestDc())] *)
| GetMe
| ExportSessionString
| CheckPassword (password : string)
| SessionStop
| AuthCreate (dc : Z)
| SessionStart (dc : Z)
| AddHandler
| DispatcherStart
| DispatcherStop.

Inductive event :=
| Print (m : text)
| Log (l : level) (m : text)
| Input (prompt : string)
| GetPass (prompt : string)
| Sleep (secs : Z)                         (* [await asyncio.sleep(secs)] *)
| WaitFor (k : task_kind) (timeout : Z)    (* [await asyncio.wait_for(k, timeout)] *)
| WaitFirst (ks : list task_kind)          (* [await asyncio.wait(ks, FIRST_COMPLETED)] *)
| Cancel (k : task_kind)                   (* [task.cancel()] *)
| Call (c : client_call)
| PrintAsciiQR (data : list string).       (* [qr.print_ascii()] of a code holding [data] *)

Definition trace := list event.

(** ** The monad *)

(** What the outside answers to a call: a value or an exception. *)
Inductive reply (A : Type) :=
| Gives (a : A)
| Throws (e : exn).
Arguments Gives {A} a.
Arguments Throws {A} e.

(** How a run of a coroutine ends.  [Unfinished]: the script of the
    environment ended while the coroutine was still running. *)
Inductive outcome (A : Type) :=
| Returns (a : A)
| Raises (e : exn)
| Unfinished.
Arguments Returns {A} a.
Arguments Raises {A} e.
Arguments Unfinished {A}.

Section Monad.
Context {W : Type}.

Definition M (A : Type) : Type := W -> outcome A * W * trace.

Definition ret {A} (a : A) : M A := fun w => (Returns a, w, []).

Definition bind {A B} (m : M A) (k : A -> M B) : M B :=
  fun w =>
    match m w with
    | (Returns a, w1, t1) =>
        match k a w1 with
        | (r, w2, t2) => (r, w2, (t1 ++ t2)%list)
        end
    | (Raises e, w1, t1) => (Raises e, w1, t1)
    | (Unfinished, w1, t1) => (Unfinished, w1, t1)
    end.

Definition raise {A} (e : exn) : M A := fun w => (Raises e, w, []).

Definition unfinished {A} : M A := fun w => (Unfinished, w, []).

(** [try: m  except Exception as e: h e]; a handler that does not match
    re-raises. *)
Definition try_except {A} (m : M A) (h : exn -> M A) : M A :=
  fun w =>
    match m w with
    | (Raises e, w1, t1) =>
        match h e w1 with
        | (r, w2, t2) => (r, w2, (t1 ++ t2)%list)
        end
    | r => r
    end.

(** [try: m  finally: f]. *)
Definition try_finally {A} (m : M A) (f : M unit) : M A :=
  fun w =>
    match m w with
    | (Unfinished, w1, t1) => (Unfinished, w1, t1)
    | (r, w1, t1) =>
        match f w1 with
        | (Returns _, w2, t2) => (r, w2, (t1 ++ t2)%list)
        | (Raises e, w2, t2) => (Raises e, w2, (t1 ++ t2)%list)
        | (Unfinished, w2, t2) => (Unfinished, w2, (t1 ++ t2)%list)
        end
    end.

Definition emit (e : event) : M unit := fun w => (Returns tt, w, [e]).
Definition get : M W := fun w => (Returns w, w, []).
Definition put (w : W) : M unit := fun _ => (Returns tt, w, []).
Definition modify (f : W -> W) : M unit := fun w => (Returns tt, f w, []).

(** The answer of the outside to a call. *)
Definition answer {A} (o : reply A) : M A :=
  match o with
  | Gives a => ret a
  | Throws e => raise e
  end.
End Monad.
Arguments M : clear implicits.

Declare Scope monad_scope.
Delimit Scope monad_scope with monad.
Notation "x <- m ;; k" := (bind m (fun x => k))
  (at level 61, m at next level, right associativity) : monad_scope.
Notation "m ;; k" := (bind m (fun _ => k))
  (at level 61, right associativity) : monad_scope.

Definition print {W} (m : text) : M W unit := emit (Print m).
Definition log {W} (l : level) (m : text) : M W unit := emit (Log l m).

(** Projections of a run. *)
Definition result_of {A W} (r : outcome A * W * trace) : outcome A := fst (fst r).
Definition world_of {A W} (r : outcome A * W * trace) : W := snd (fst r).
Definition trace_of {A W} (r : outcome A * W * trace) : trace := snd r.

(** A coroutine keeps a relation on worlds, emits only events of one kind,
    and does not depend on a script. *)
Definition sat {W A} (R : W -> W -> Prop) (P : event -> Prop) (m : M W A) : Prop :=
  forall w,
    R w (world_of (m w)) /\ Forall P (trace_of (m w)) /\ result_of (m w) <> Unfinished.

End Effects.

(* ================================================================== *)
(** * qr-auth/qr-auth.py *)
(* ================================================================== *)

Module QrAuth.
Import Effects.
Local Open Scope monad_scope.

Definition nl : string := String (ascii_of_nat 10) EmptyString.

Fixpoint str_mul (s : string) (n : nat) : string :=
  match n with
  | O => EmptyString
  | S n' => s ++ str_mul s n'
  end.

(** ** Module constants *)

Record dc_info := { location : string; ipv4 : string; ipv6 : string }.

(** [DC_INFO]: a dict literal, iterated in insertion order. *)
Definition DC_INFO : list (Z * dc_info) :=
  [ (1, {| location := "Miami FL, USA"; ipv4 := "149.154.175.53"; ipv6 := "2001:b28:f23d:f001::a" |});
    (2, {| location := "Amsterdam, NL"; ipv4 := "149.154.167.51"; ipv6 := "2001:67c:4e8:f002::a" |});
    (3, {| location := "Miami FL, USA (alias)"; ipv4 := "149.154.175.100"; ipv6 := "2001:b28:f23d:f003::a" |});
    (4, {| location := "Amsterdam, NL"; ipv4 := "149.154.167.91"; ipv6 := "2001:67c:4e8:f004::a" |});
    (5, {| location := "Singapore, SG"; ipv4 := "91.108.56.130"; ipv6 := "2001:b28:f23f:f005::a" |}) ].

Fixpoint dict_get {V} (d : list (Z * V)) (k : Z) : option V :=
  match d with
  | [] => None
  | (k', v) :: d' => if k' =? k then Some v else dict_get d' k
  end.

Definition MAX_QR_CODES : Z := 3.
Definition QR_TIMEOUT : Z := 30.

(** ** The world: the module globals and the client object *)

(** The parts of [pyrogram.Client] the script reads and writes. *)
Record client := {
  is_connected : bool;               (* [client.is_connected] *)
  has_session : bool;                (* [hasattr(client, 'session')] *)
  storage_dc_id : Z;                 (* [client.storage.dc_id()] *)
  storage_auth_key : list byte;      (* [client.storage.auth_key()] *)
  session_dc : option Z              (* the data center of [client.session] *)
}.

Inductive task_state := Pending | Done | Cancelled.
Record task := { kind : task_kind; state : task_state }.

Record world := {
  SESSION_CREATED : bool;            (* the [asyncio.Event] is set *)
  DC_MIGRATED : bool;
  nearest_dc : option Z;             (* [None] or an [int] *)
  cl : client;
  tasks : list task                  (* every task made by [asyncio.create_task] *)
}.

Definition set_SESSION_CREATED (b : bool) (w : world) : world :=
  {| SESSION_CREATED := b; DC_MIGRATED := DC_MIGRATED w;
     nearest_dc := nearest_dc w; cl := cl w; tasks := tasks w |}.
Definition set_DC_MIGRATED (b : bool) (w : world) : world :=
  {| SESSION_CREATED := SESSION_CREATED w; DC_MIGRATED := b;
     nearest_dc := nearest_dc w; cl := cl w; tasks := tasks w |}.
Definition set_nearest_dc (d : option Z) (w : world) : world :=
  {| SESSION_CREATED := SESSION_CREATED w; DC_MIGRATED := DC_MIGRATED w;
     nearest_dc := d; cl := cl w; tasks := tasks w |}.
Definition set_cl (c : client) (w : world) : world :=
  {| SESSION_CREATED := SESSION_CREATED w; DC_MIGRATED := DC_MIGRATED w;
     nearest_dc := nearest_dc w; cl := c; tasks := tasks w |}.
Definition add_tasks (ts : list task) (w : world) : world :=
  {| SESSION_CREATED := SESSION_CREATED w; DC_MIGRATED := DC_MIGRATED w;
     nearest_dc := nearest_dc w; cl := cl w; tasks := (tasks w ++ ts)%list |}.

Definition set_is_connected (b : bool) (c : client) : client :=
  {| is_connected := b; has_session := has_session c;
     storage_dc_id := storage_dc_id c; storage_auth_key := storage_auth_key c;
     session_dc := session_dc c |}.
Definition set_storage_dc_id (d : Z) (c : client) : client :=
  {| is_connected := is_connected c; has_session := has_session c;
     storage_dc_id := d; storage_auth_key := storage_auth_key c;
     session_dc := session_dc c |}.
Definition set_storage_auth_key (k : list byte) (c : client) : client :=
  {| is_connected := is_connected c; has_session := has_session c;
     storage_dc_id := storage_dc_id c; storage_auth_key := k;
     session_dc := session_dc c |}.
Definition set_session (d : Z) (c : client) : client :=
  {| is_connected := is_connected c; has_session := true;
     storage_dc_id := storage_dc_id c; storage_auth_key := storage_auth_key c;
     session_dc := Some d |}.

Definition Q := M world.

(** A call on the client: recorded in the trace, answered by the outside. *)
Definition call {A} (c : client_call) (o : reply A) : Q A :=
  emit (Call c) ;; answer o.

(** ** [generate_qr] *)

(** [f"tg://login?token={token_b64}"]. *)
Definition login_url (token : list byte) : string :=
  "tg://login?token=" ++ Base64.urlsafe_b64encode token.

(** The [QRCode] object: the data added to it. *)
Record QRCode := { data_list : list string }.
Definition QRCode_new : QRCode := {| data_list := [] |}.
Definition qr_clear (q : QRCode) : QRCode := {| data_list := [] |}.
Definition qr_add_data (q : QRCode) (s : string) : QRCode :=
  {| data_list := (data_list q ++ [s])%list |}.

Definition generate_qr (token : list byte) : Q unit :=
  let token_b64 := Base64.urlsafe_b64encode token in
  let login_url := "tg://login?token=" ++ token_b64 in
  let qr := QRCode_new in
  let qr := qr_clear qr in
  let qr := qr_add_data qr login_url in
  emit (PrintAsciiQR (data_list qr)).

(** ** [check_session] *)

(** What the library answers during one call of [check_session]:
    [client.session.stop()], [Auth(...).create()] and
    [client.session.start()] (the truth value of what it returns). *)
Record check_session_env := {
  session_stop : reply unit;
  auth_create : reply (list byte);
  session_start : reply bool
}.

Definition check_session (e : check_session_env) (dc_id : Z) : Q bool :=
  try_except
    (w <- get ;;
     (if has_session (cl w) && is_connected (cl w)
      then call SessionStop (session_stop e)
      else ret tt) ;;
     modify (fun w => set_cl (set_storage_dc_id dc_id (cl w)) w) ;;
     w <- get ;;
     auth_key <- call (AuthCreate (storage_dc_id (cl w))) (auth_create e) ;;
     modify (fun w => set_cl (set_storage_auth_key auth_key (cl w)) w) ;;
     w <- get ;;
     modify (fun w' => set_cl (set_session (storage_dc_id (cl w)) (cl w')) w') ;;
     session_started <- call (SessionStart (storage_dc_id (cl w))) (session_start e) ;;
     ret session_started)
    (fun ex =>
       log ERROR [Str "Error in check_session: "; ExcStr ex] ;;
       ret false).

(** ** [handle_2fa] *)

Record twofa_env := {
  password : reply string;           (* [getpass.getpass(...)] *)
  check_password : reply unit        (* [client.check_password(password)] *)
}.

Definition handle_2fa (e : twofa_env) : Q bool :=
  try_except
    (log INFO [Str "Two-factor authentication required"] ;;
     password <- (emit (GetPass "Enter your 2FA password: ") ;; answer (password e)) ;;
     call (CheckPassword password) (check_password e) ;;
     log INFO [Str "2FA authentication successful"] ;;
     ret true)
    (fun ex =>
       if is_PasswordHashInvalid ex then
         log ERROR [Str "Invalid 2FA password"] ;;
         ret false
       else if is_FloodWait ex then
         log ERROR [Str "Too many attempts. Please wait "; Num (exn_value ex); Str " seconds"] ;;
         ret false
       else
         log ERROR [Str "Error during 2FA: "; ExcStr ex] ;;
         ret false).

(** ** [raw_update_handler] *)

(** What [ExportLoginToken] returns. *)
Inductive login_result :=
| LoginToken (token : list byte)                 (* [raw.types.auth.LoginToken] *)
| LoginTokenMigrateTo (dc_id : Z)                (* [raw.types.auth.LoginTokenMigrateTo] *)
| LoginTokenSuccess                              (* [raw.types.auth.LoginTokenSuccess] *)
| OtherResult (type_name : string).

Definition type_name_of (r : login_result) : string :=
  match r with
  | LoginToken _ => "LoginToken"
  | LoginTokenMigrateTo _ => "LoginTokenMigrateTo"
  | LoginTokenSuccess => "LoginTokenSuccess"
  | OtherResult n => n
  end.

(** The update handed to the handler, by its concrete type. *)
Inductive update :=
| UpdateLoginToken                               (* [raw.types.UpdateLoginToken] *)
| AuthLoginToken                                 (* [raw.types.auth.LoginToken] *)
| OtherUpdate.

(** What the library answers during one run of the handler. *)
Record handler_env := {
  realign : check_session_env;                   (* the [check_session] of the DC check *)
  export_token : reply login_result;             (* the first [ExportLoginToken] *)
  get_me : reply string;                         (* [client.get_me()], as its [str] *)
  export_session_string : reply string;
  switch : check_session_env;                    (* the [check_session] of the migration *)
  twofa : twofa_env;
  export_token_2 : reply login_result;           (* [ExportLoginToken] after 2FA *)
  get_me_2 : reply string;
  export_session_string_2 : reply string
}.

Definition raw_update_handler (e : handler_env) (u : update) : Q unit :=
  w <- get ;;
  match nearest_dc w with
  | Some ndc =>
      let current_dc := storage_dc_id (cl w) in
      if (match u with AuthLoginToken => true | _ => false end)
         && negb (ndc =? current_dc)
      then
        log INFO [Str "DC mismatch detected. Switching from DC "; Num current_dc;
                  Str " to DC "; Num ndc] ;;
        check_session (realign e) ndc ;;
        ret tt
      else ret tt
  | None => ret tt
  end ;;
  match u with
  | UpdateLoginToken =>
      log INFO [Str "QR code was scanned! Processing login..."] ;;
      try_except
        (result <- call ExportLoginToken (export_token e) ;;
         match result with
         | LoginTokenSuccess =>
             log INFO [Str "Authentication successful!"] ;;
             try_except
               (me <- call GetMe (get_me e) ;;
                log INFO [Str "User information:"; Str nl; Obj me] ;;
                session_string <- call ExportSessionString (export_session_string e) ;;
                print [Str nl; Str "Session string for future use (save this securely):";
                       Str nl; Str session_string; Str nl])
               (fun ex => log ERROR [Str "Error getting user info: "; ExcStr ex]) ;;
             modify (set_SESSION_CREATED true)
         | LoginTokenMigrateTo dc_id =>
             log INFO [Str "Need to migrate to DC "; Num dc_id] ;;
             ok <- check_session (switch e) dc_id ;;
             (if ok
              then log INFO [Str "Session switched to DC "; Num dc_id]
              else log ERROR [Str "Failed to switch to DC "; Num dc_id]) ;;
             modify (set_DC_MIGRATED true) ;;
             print [Str nl; Str "Migrating to DC "; Num dc_id;
                    Str ". A new QR code will be generated soon..."]
         | _ => ret tt
         end)
        (fun ex =>
           if is_SessionPasswordNeeded ex then
             ok <- handle_2fa (twofa e) ;;
             if ok then
               try_except
                 (result <- call ExportLoginToken (export_token_2 e) ;;
                  match result with
                  | LoginTokenSuccess =>
                      log INFO [Str "Login successful after 2FA!"] ;;
                      try_except
                        (me <- call GetMe (get_me_2 e) ;;
                         log INFO [Str "User information:"; Str nl; Obj me] ;;
                         session_string <- call ExportSessionString (export_session_string_2 e) ;;
                         print [Str nl; Str "Session string for future use (save this securely):";
                                Str nl; Str session_string; Str nl])
                        (fun ex => log ERROR [Str "Error getting user info after 2FA: "; ExcStr ex]) ;;
                      modify (set_SESSION_CREATED true)
                  | _ => ret tt
                  end)
                 (fun ex => log ERROR [Str "Error after 2FA: "; ExcStr ex])
             else ret tt
           else
             log ERROR [Str "Error handling login token update: "; ExcStr ex])
  | _ => ret tt
  end.

(** The updates the dispatcher hands to the handler while the coordinator
    is suspended in one [await], each with the library's answers.

    The handler runs in tasks of the dispatcher.  [create_qrcodes] sees of
    a handler run only the two events and the client object, and only when
    it resumes from an [await]; the handler sets an event as the last or
    last but one statement of its run.  So each [await] of the coordinator
    is followed here by the handler runs that end before the coordinator
    resumes, each run taken as a whole.  What a handler raises stays in its
    task and does not reach the coordinator. *)
Definition delivery : Type := update * handler_env.

Fixpoint deliver (ds : list delivery) : Q unit :=
  match ds with
  | [] => ret tt
  | (u, e) :: ds' =>
      try_except (raw_update_handler e u) (fun _ => ret tt) ;;
      deliver ds'
  end.

(** ** [create_qrcodes] *)

(** The local variables of [create_qrcodes]. *)
Record locals := { qr_counter : Z; dc_migrated_flag : bool }.

(** The three ways out of [create_qrcodes]. *)
Inductive exit :=
| WhileTestFalse           (* [while not SESSION_CREATED.is_set()] fails *)
| ReturnMaxCodes           (* [return] after "Please try again later." *)
| ReturnSessionCreated.    (* [return] in the inner loop, [SESSION_CREATED] set *)

(** How one pass through the body of the outer loop ends. *)
Inductive control :=
| Continue (l : locals)
| Return (x : exit) (l : locals).

(** What the outside does during one pass through the body of the outer
    loop: the updates handled during each [await], the answer to the token
    request, and whether the timer task is among the done ones when an
    event wakes [asyncio.wait] first. *)
Record iter_env := {
  on_settle : list delivery;             (* during [asyncio.sleep(2)] *)
  on_grace : list delivery;              (* during [wait_for(DC_MIGRATED.wait(), 10)] *)
  token_request : reply login_result;    (* [client.invoke(ExportLoginToken)] *)
  on_request : list delivery;            (* while that request is in flight *)
  on_race : list delivery;               (* during [asyncio.wait(...)] *)
  timer_done : bool;
  on_backoff : list delivery             (* during [sleep(3)] or [sleep(e.value)] *)
}.

(** [await asyncio.sleep(secs)]. *)
Definition sleep (secs : Z) (ds : list delivery) : Q unit :=
  emit (Sleep secs) ;; deliver ds.

(** [await asyncio.wait_for(DC_MIGRATED.wait(), timeout)]: returns once the
    event is set, raises [asyncio.TimeoutError] when it is not set in time. *)
Definition wait_for_DC_MIGRATED (timeout : Z) (ds : list delivery) : Q unit :=
  emit (WaitFor Wait_DC_MIGRATED timeout) ;;
  deliver ds ;;
  w <- get ;;
  if DC_MIGRATED w then ret tt else raise (PyException "TimeoutError" "").

(** [asyncio.create_task]: the task's identity is its index in [tasks]. *)
Definition create_task (k : task_kind) : Q nat :=
  w <- get ;;
  modify (add_tasks [{| kind := k; state := Pending |}]) ;;
  ret (List.length (tasks w)).

Fixpoint set_state (id : nat) (s : task_state) (ts : list task) : list task :=
  match ts, id with
  | [], _ => []
  | t :: ts', O => {| kind := kind t; state := s |} :: ts'
  | t :: ts', S id' => t :: set_state id' s ts'
  end.

Definition mark (id : nat) (s : task_state) : Q unit :=
  modify (fun w =>
    {| SESSION_CREATED := SESSION_CREATED w; DC_MIGRATED := DC_MIGRATED w;
       nearest_dc := nearest_dc w; cl := cl w;
       tasks := set_state id s (tasks w) |}).

(** Whether a task is complete when [asyncio.wait] returns: an event wait
    is complete when its event is set; the timer is complete when no event
    is set (nothing else can have woken the wait), or when the outside says
    so. *)
Definition completes (w : world) (timer : bool) (k : task_kind) : bool :=
  match k with
  | Wait_SESSION_CREATED => SESSION_CREATED w
  | Wait_DC_MIGRATED => DC_MIGRATED w
  | Timer _ => timer || negb (SESSION_CREATED w || DC_MIGRATED w)
  end.

Definition task_completes (w : world) (timer : bool) (id : nat) : bool :=
  match nth_error (tasks w) id with
  | Some t => completes w timer (kind t)
  | None => false
  end.

Fixpoint mark_all (ids : list nat) (s : task_state) : Q unit :=
  match ids with
  | [] => ret tt
  | id :: ids' => mark id s ;; mark_all ids' s
  end.

(** [done, pending = await asyncio.wait(ids, return_when=FIRST_COMPLETED)]. *)
Definition asyncio_wait (ids : list nat) (ds : list delivery) (timer : bool)
  : Q (list nat * list nat) :=
  w <- get ;;
  emit (WaitFirst (map (fun id => match nth_error (tasks w) id with
                                  | Some t => kind t
                                  | None => Timer 0
                                  end) ids)) ;;
  deliver ds ;;
  w <- get ;;
  let dp := partition (task_completes w timer) ids in
  mark_all (fst dp) Done ;;
  ret dp.

(** [for task in pending: task.cancel()]. *)
Fixpoint cancel_all (pending : list nat) : Q unit :=
  match pending with
  | [] => ret tt
  | id :: rest =>
      w <- get ;;
      match nth_error (tasks w) id with
      | Some t => emit (Cancel (kind t))
      | None => ret tt
      end ;;
      mark id Cancelled ;;
      cancel_all rest
  end.

(** Lines 271-279: the counter is reset when a migration was signalled. *)
Definition settle (ie : iter_env) (l : locals) : Q locals :=
  w <- get ;;
  if DC_MIGRATED w then
    log INFO [Str "DC migration detected, resetting QR code counter"] ;;
    sleep 2 (on_settle ie) ;;
    modify (set_DC_MIGRATED false) ;;
    ret {| qr_counter := 0; dc_migrated_flag := true |}
  else ret l.

(** Lines 285-300: the wait for a migration once the counter is above
    [MAX_QR_CODES]. *)
Definition grace (ie : iter_env) (l : locals) : Q control :=
  print [Str nl; Str "Maximum number of QR codes ("; Num MAX_QR_CODES;
         Str ") for this DC generated without success."] ;;
  try_except
    (wait_for_DC_MIGRATED 10 (on_grace ie) ;;
     w <- get ;;
     if DC_MIGRATED w then ret (Continue l)
     else
       print [Str "Please try again later."] ;;
       ret (Return ReturnMaxCodes l))
    (fun ex =>
       if is_TimeoutError ex then
         print [Str "Please try again later."] ;;
         ret (Return ReturnMaxCodes l)
       else raise ex).

(** Lines 303-310: the message before a code. *)
Definition announce (l : locals) : Q locals :=
  if dc_migrated_flag l then
    print [Str nl; Str "Here's a new QR code after DC migration. Please scan it:"] ;;
    ret {| qr_counter := qr_counter l; dc_migrated_flag := false |}
  else if qr_counter l =? 1 then
    print [Str nl; Str "Scan this QR code in the Telegram app:"] ;;
    print [Str "Settings > Devices > Link Desktop Device"; Str nl] ;;
    ret l
  else
    print [Str nl; Str "QR code expired. Generating new QR code ("; Num (qr_counter l);
           Str "/"; Num MAX_QR_CODES; Str "):"; Str nl] ;;
    ret l.

(** Lines 326-349: the wait for the scan, the timer or a migration.  The
    [while True:] is passed once: each of its three branches leaves it. *)
Definition race (ie : iter_env) (l : locals) : Q control :=
  t1 <- create_task Wait_SESSION_CREATED ;;
  t2 <- create_task (Timer QR_TIMEOUT) ;;
  t3 <- create_task Wait_DC_MIGRATED ;;
  dp <- asyncio_wait [t1; t2; t3] (on_race ie) (timer_done ie) ;;
  cancel_all (snd dp) ;;
  w <- get ;;
  if SESSION_CREATED w then ret (Return ReturnSessionCreated l)
  else if DC_MIGRATED w then
    log INFO [Str "DC migration occurred, will generate new QR codes"] ;;
    ret (Continue l)
  else
    log INFO [Str "QR code #"; Num (qr_counter l); Str " expired after ";
              Num QR_TIMEOUT; Str " seconds"] ;;
    ret (Continue l).

(** Lines 312-361: the token request, the code and the wait. *)
Definition issue (ie : iter_env) (l : locals) : Q control :=
  try_except
    (result <- (emit (Call ExportLoginToken) ;;
                deliver (on_request ie) ;;
                answer (token_request ie)) ;;
     match result with
     | LoginToken token =>
         log INFO [Str "Generated QR code #"; Num (qr_counter l); Str "/"; Num MAX_QR_CODES;
                   Str " (expires in "; Num QR_TIMEOUT; Str " seconds)"] ;;
         generate_qr token ;;
         race ie l
     | _ =>
         log WARNING [Str "Unexpected response when generating QR code: ";
                      Str (type_name_of result)] ;;
         sleep 3 (on_backoff ie) ;;
         ret (Continue l)
     end)
    (fun ex =>
       if is_FloodWait ex then
         log WARNING [Str "Rate limited. Waiting "; Num (exn_value ex); Str " seconds"] ;;
         sleep (exn_value ex) (on_backoff ie) ;;
         ret (Continue l)
       else if is_RPCError ex then
         log ERROR [Str "Telegram API error generating QR code: "; ExcName ex;
                    Str " - "; ExcStr ex] ;;
         sleep 3 (on_backoff ie) ;;
         ret (Continue l)
       else
         log ERROR [Str "Unexpected error generating QR code: "; ExcName ex;
                    Str " - "; ExcStr ex] ;;
         sleep 3 (on_backoff ie) ;;
         ret (Continue l)).

(** The body of [while not SESSION_CREATED.is_set():]. *)
Definition loop_body (ie : iter_env) (l : locals) : Q control :=
  l <- settle ie l ;;
  let l := {| qr_counter := qr_counter l + 1; dc_migrated_flag := dc_migrated_flag l |} in
  if MAX_QR_CODES <? qr_counter l then grace ie l
  else
    l <- announce l ;;
    issue ie l.

(** The outer loop from the local variables [l], one [iter_env] per pass.
    When the script is used up and the loop is still running, the run is
    [Unfinished]. *)
Fixpoint create_qrcodes_from (script : list iter_env) (l : locals) : Q exit :=
  w <- get ;;
  if SESSION_CREATED w then ret WhileTestFalse
  else
    match script with
    | [] => unfinished
    | ie :: rest =>
        c <- loop_body ie l ;;
        match c with
        | Continue l' => create_qrcodes_from rest l'
        | Return x _ => ret x
        end
    end.

Definition initial_locals : locals := {| qr_counter := 0; dc_migrated_flag := false |}.

Definition create_qrcodes (script : list iter_env) : Q exit :=
  create_qrcodes_from script initial_locals.

(** The passes of a script, stopping at the head of the loop when the
    script is used up: [Continue l] when the loop is still running there,
    with its local variables. *)
Fixpoint passes (script : list iter_env) (l : locals) : Q control :=
  match script with
  | [] => ret (Continue l)
  | ie :: rest =>
      w <- get ;;
      if SESSION_CREATED w then ret (Return WhileTestFalse l)
      else
        c <- loop_body ie l ;;
        match c with
        | Continue l' => passes rest l'
        | Return x l' => ret (Return x l')
        end
  end.

Definition locals_of (c : control) : locals :=
  match c with Continue l => l | Return _ l => l end.

(** ** [print_dc_info] *)

Fixpoint print_rows (rows : list (Z * dc_info)) : Q unit :=
  match rows with
  | [] => ret tt
  | (dc_id, info) :: rows' =>
      print [LJust 4 (Num dc_id); LJust 25 (Str (location info));
             LJust 20 (Str (ipv4 info)); Str (ipv6 info)] ;;
      print_rows rows'
  end.

Definition print_dc_info : Q unit :=
  print [Str nl; Str "Available Telegram Data Centers:"] ;;
  print [Str (str_mul "-" 60)] ;;
  print [LJust 4 (Str "ID"); LJust 25 (Str "Location"); LJust 20 (Str "IPv4"); Str "IPv6"] ;;
  print [Str (str_mul "-" 60)] ;;
  print_rows DC_INFO ;;
  print [].

(** ** [qr_auth] *)

(** [str.isdigit] and [int] on ASCII text. *)
Definition is_digit (c : ascii) : bool :=
  let n := nat_of_ascii c in ((48 <=? n) && (n <=? 57))%nat.

Definition isdigit (s : string) : bool :=
  negb (String.eqb s "") && Base64.string_forallb is_digit s.

Fixpoint int_digits (acc : Z) (s : string) : Z :=
  match s with
  | EmptyString => acc
  | String c s' => int_digits (10 * acc + (Z.of_nat (nat_of_ascii c) - 48)) s'
  end.

Definition int (s : string) : Z := int_digits 0 s.

(** The truth value of an [int] or [None]. *)
Definition truthy (x : option Z) : bool :=
  match x with
  | Some n => negb (n =? 0)
  | None => false
  end.

(** What the outside does during one run of [qr_auth].  The client always
    has its [dispatcher] attribute, so the [hasattr] of the [finally] block
    is true. *)
Record qr_auth_env := {
  dc_choice : string;                    (* what [input] returns *)
  connect : reply unit;                  (* [client.connect()] *)
  get_nearest_dc : reply Z;              (* [GetNearestDc()], its [nearest_dc] *)
  setup : check_session_env;             (* the [check_session] of the set-up *)
  dispatcher_start : reply unit;
  script : list iter_env;                (* the passes of [create_qrcodes] *)
  dispatcher_stop : reply unit;
  disconnect : reply unit
}.

(** Lines 382-392: the operator's choice of a data center. *)
Definition select_dc (dc_choice : string) : Q (option Z) :=
  if negb (String.eqb dc_choice "") && isdigit dc_choice then
    let dc_num := int dc_choice in
    if (1 <=? dc_num) && (dc_num <=? 5) then
      match dict_get DC_INFO dc_num with
      | Some info =>
          log INFO [Str "Selected DC"; Num dc_num; Str ": "; Str (location info);
                    Str " ("; Str (ipv4 info); Str ")"] ;;
          ret (Some dc_num)
      | None => raise (PyException "KeyError" "")
      end
    else
      log WARNING [Str "Invalid DC number. Using nearest DC."] ;;
      ret None
  else ret None.

(** Lines 410-427: which data center to use. *)
Definition resolve_dc (selected_dc : option Z) (e : qr_auth_env) : Q unit :=
  if truthy selected_dc then
    modify (set_nearest_dc selected_dc) ;;
    log INFO [Str "Using user-selected DC: ";
              Num (match selected_dc with Some d => d | None => 0 end)]
  else
    try_except
      (ndc <- call GetNearestDc (get_nearest_dc e) ;;
       modify (set_nearest_dc (Some ndc)) ;;
       match dict_get DC_INFO ndc with
       | Some info =>
           log INFO [Str "Using nearest DC"; Num ndc; Str ": "; Str (location info);
                     Str " ("; Str (ipv4 info); Str ")"]
       | None => ret tt
       end)
      (fun ex =>
         log ERROR [Str "Error getting nearest DC: "; ExcStr ex] ;;
         modify (set_nearest_dc (Some 2)) ;;
         log INFO [Str "Defaulting to DC"; Num 2]).

Definition qr_auth (e : qr_auth_env) : Q unit :=
  log INFO [Str "==== QR CODE AUTHENTICATION ====="] ;;
  print_dc_info ;;
  emit (Input "Select DC number (1-5) or press Enter for nearest DC: ") ;;
  selected_dc <- select_dc (dc_choice e) ;;
  emit (Call (NewClient "qr_auth_session" None true)) ;;
  modify (set_nearest_dc None) ;;
  try_finally
    (try_except
       (log INFO [Str "Connecting to Telegram servers..."] ;;
        call Connect (connect e) ;;
        modify (fun w => set_cl (set_is_connected true (cl w)) w) ;;
        log INFO [Str "Connected successfully"] ;;
        resolve_dc selected_dc e ;;
        w <- get ;;
        (if truthy (nearest_dc w) then
           let ndc := match nearest_dc w with Some d => d | None => 0 end in
           log INFO [Str "Setting up session with DC "; Num ndc] ;;
           ok <- check_session (setup e) ndc ;;
           if ok then ret tt
           else log WARNING [Str "Failed to set up session with DC "; Num ndc]
         else ret tt) ;;
        emit (Call AddHandler) ;;
        call DispatcherStart (dispatcher_start e) ;;
        log INFO [Str "Starting QR code generation (max "; Num MAX_QR_CODES;
                  Str " codes, "; Num QR_TIMEOUT; Str " seconds each)"] ;;
        create_qrcodes (script e) ;;
        w <- get ;;
        if SESSION_CREATED w
        then log INFO [Str "Authentication completed successfully"]
        else ret tt)
       (fun ex => log ERROR [Str "Unexpected error: "; ExcStr ex]))
    (try_except
       (call DispatcherStop (dispatcher_stop e))
       (fun ex => log ERROR [Str "Error stopping dispatcher: "; ExcStr ex]) ;;
     try_except
       (call Disconnect (disconnect e) ;;
        log INFO [Str "Disconnected from Telegram"])
       (fun ex => log ERROR [Str "Error disconnecting: "; ExcStr ex])).

(** The world when the script starts: the events are clear, [nearest_dc]
    is [None], no task exists; [c] is the object [Client(...)] builds. *)
Definition initial_world (c : client) : world :=
  {| SESSION_CREATED := false; DC_MIGRATED := false; nearest_dc := None;
     cl := c; tasks := [] |}.

(** ** The wait of lines 326-349, in closed form *)

(** The world when [asyncio.wait] starts: the three tasks are made. *)
Definition racing (w : world) : world :=
  add_tasks [{| kind := Wait_DC_MIGRATED; state := Pending |}]
    (add_tasks [{| kind := Timer QR_TIMEOUT; state := Pending |}]
       (add_tasks [{| kind := Wait_SESSION_CREATED; state := Pending |}] w)).

(** A task after the wait: done, or cancelled as one of the pending. *)
Definition settled (done : bool) : task_state := if done then Done else Cancelled.

Definition cancelled (done : bool) (k : task_kind) : trace :=
  if done then [] else [Cancel k].

(** ** Reading a trace *)

(** The scannable codes rendered in a trace. *)
Definition is_code (e : event) : bool :=
  match e with PrintAsciiQR _ => true | _ => false end.

Definition codes_issued (t : trace) : nat := List.length (filter is_code t).

(** The codes rendered since the counter was last reset, reading the trace
    from its end: the reset is the log record of line 274. *)
Definition is_reset (e : event) : bool :=
  match e with
  | Log INFO [Str s] => String.eqb s "DC migration detected, resetting QR code counter"
  | _ => false
  end.

Fixpoint codes_since_reset_rev (rt : trace) : nat :=
  match rt with
  | [] => O
  | e :: rt' =>
      if is_reset e then O
      else if is_code e then S (codes_since_reset_rev rt')
      else codes_since_reset_rev rt'
  end.

Definition codes_on_current_dc (t : trace) : nat := codes_since_reset_rev (rev t).

Definition is_call (c : client_call) (e : event) : bool :=
  match e, c with
  | Call GetMe, GetMe => true
  | Call ExportSessionString, ExportSessionString => true
  | Call ExportLoginToken, ExportLoginToken => true
  | Call (CheckPassword _), CheckPassword _ => true
  | _, _ => false
  end.

Definition calls (c : client_call) (t : trace) : nat := List.length (filter (is_call c) t).

Definition is_sleep (e : event) : bool :=
  match e with Sleep _ => true | _ => false end.

Definition is_print (e : event) : bool :=
  match e with Print _ => true | _ => false end.

Definition is_getpass (e : event) : bool :=
  match e with GetPass _ => true | _ => false end.

Definition is_grace_wait (e : event) : bool :=
  match e with WaitFor Wait_DC_MIGRATED 10 => true | _ => false end.

Definition is_pending (t : task) : bool :=
  match state t with Pending => true | _ => false end.

(** No task is left pending. *)
Definition settled_tasks (w : world) : Prop :=
  Forall (fun t => is_pending t = false) (tasks w).

(** Deliveries that leave the world as it is: no confirmation and no
    migration is signalled, and the client is not touched. *)
Definition silent (ds : list delivery) : Prop :=
  forall w, world_of (deliver ds w) = w.

Definition is_wait (e : event) : bool :=
  match e with WaitFor _ _ | WaitFirst _ | Cancel _ => true | _ => false end.

(** The two log records that close a wait of lines 326-349 without
    leaving [create_qrcodes]. *)
Definition is_branch_log (e : event) : bool :=
  match e with
  | Log INFO [Str s] => String.eqb s "DC migration occurred, will generate new QR codes"
  | Log INFO (Str s :: _ :: _) => String.eqb s "QR code #"
  | _ => false
  end.

Definition is_wait_first (e : event) : bool :=
  match e with WaitFirst _ => true | _ => false end.

(** The waits of [asyncio.wait] in a stretch of trace, and the branches
    taken after them: the two log records, or the [return] for
    [SESSION_CREATED]. *)
Definition waits (t : trace) : nat := List.length (filter is_wait_first t).
Definition branch_logs (t : trace) : nat := List.length (filter is_branch_log t).
Definition returned (c : control) : nat :=
  match c with Return ReturnSessionCreated _ => 1%nat | _ => 0%nat end.

(** The events only [create_qrcodes] emits, never the update handler. *)
Definition coordinator_only (e : event) : bool :=
  is_code e || is_reset e || is_sleep e || is_wait e || is_branch_log e.

Definition quiet_event (e : event) : Prop := coordinator_only e = false.

(** What a run of the update handler keeps of the world: the tasks and
    [nearest_dc]; an event that is set stays set. *)
Definition handler_keeps (w w' : world) : Prop :=
  tasks w' = tasks w /\ nearest_dc w' = nearest_dc w
  /\ (SESSION_CREATED w = true -> SESSION_CREATED w' = true)
  /\ (DC_MIGRATED w = true -> DC_MIGRATED w' = true).

End QrAuth.

(* ================================================================== *)
(** * string-auth/string-auth.py *)
(* ================================================================== *)

Module StringAuth.
Import Effects.
Local Open Scope monad_scope.

Definition nl : string := String (ascii_of_nat 10) EmptyString.

(** The client object of the script, once [Client(...)] has built it. *)
Record world := {
  client_built : bool;
  is_connected : bool                    (* [client.is_connected] *)
}.

Record env := {
  session_string : string;               (* what [input] returns *)
  connect : reply unit;                  (* [client.connect()] *)
  get_me : reply (string * bool);        (* [client.get_me()]: its [str] and [is_bot] *)
  is_initialized : bool;                 (* [client.is_initialized] in the [finally] *)
  disconnect : reply unit
}.

Definition initial_world : world := {| client_built := false; is_connected := false |}.

Definition is_class (c : rpc_class) (e : exn) : bool :=
  match e, c with
  | RPCError AuthKeyUnregistered _ _, AuthKeyUnregistered
  | RPCError AuthKeyInvalid _ _, AuthKeyInvalid
  | RPCError SessionExpired _ _, SessionExpired
  | RPCError SessionRevoked _ _, SessionRevoked
  | RPCError AuthKeyDuplicated _ _, AuthKeyDuplicated
  | RPCError UserDeactivated _ _, UserDeactivated
  | RPCError UserDeactivatedBan _ _, UserDeactivatedBan => true
  | _, _ => false
  end.

(** The [except] clauses of [session_string_auth], in their order. *)
Definition on_error (ex : exn) : M world unit :=
  if is_class AuthKeyUnregistered ex || is_class AuthKeyInvalid ex
     || is_class SessionExpired ex || is_class SessionRevoked ex then
    log ERROR [Str "Session invalid ("; ExcName ex;
               Str "): The session string is not valid or has expired/been revoked. Re-authentication required."]
  else if is_class AuthKeyDuplicated ex then
    log ERROR [Str "Session conflict: This session string is potentially being used elsewhere. Re-authentication is recommended."]
  else if is_class UserDeactivated ex || is_class UserDeactivatedBan ex then
    log ERROR [Str "Account deactivated ("; ExcName ex;
               Str "): This user account cannot be accessed."]
  else if is_FloodWait ex then
    log ERROR [Str "Flood wait error: Please wait "; Num (exn_value ex);
               Str " seconds before trying again."] ;;
    emit (Sleep (exn_value ex))
  else if in_category SeeOther ex then
    log ERROR [Str "Redirect required: "; ExcName ex; Str " - "; ExcStr ex]
  else if in_category Forbidden ex then
    log ERROR [Str "Forbidden operation: "; ExcName ex; Str " - "; ExcStr ex]
  else if in_category NotAcceptable ex then
    log ERROR [Str "Not acceptable: "; ExcName ex; Str " - "; ExcStr ex]
  else if in_category BadRequest ex then
    log ERROR [Str "Bad request: "; ExcName ex; Str " - "; ExcStr ex]
  else if in_category InternalServerError ex then
    log ERROR [Str "Telegram server error: "; ExcName ex; Str " - "; ExcStr ex;
               Str ". Please try again later."]
  else if in_category Unauthorized ex then
    log ERROR [Str "Unauthorized error: "; ExcName ex; Str " - "; ExcStr ex]
  else if is_RPCError ex then
    log ERROR [Str "Unhandled Telegram API error: "; ExcName ex; Str " - "; ExcStr ex]
  else
    log ERROR [Str "An unexpected general error occurred: "; ExcName ex; Str " - "; ExcStr ex].

Definition session_string_auth (e : env) : M world unit :=
  log INFO [Str "==== SESSION STRING AUTHENTICATION ===="] ;;
  emit (Input "Enter your session string (from a previous export): ") ;;
  let session_string := session_string e in
  if String.eqb session_string "" then
    log ERROR [Str "Session string cannot be empty."] ;;
    ret tt
  else
    emit (Call (NewClient "string_session" (Some session_string) false)) ;;
    modify (fun w => {| client_built := true; is_connected := is_connected w |}) ;;
    try_finally
      (try_except
         (log INFO [Str "Starting client with session string..."] ;;
          emit (Call Connect) ;; answer (connect e) ;;
          modify (fun w => {| client_built := client_built w; is_connected := true |}) ;;
          log INFO [Str "Client connected successfully!"] ;;
          log INFO [Str "Getting account information..."] ;;
          me <- (emit (Call GetMe) ;; answer (get_me e)) ;;
          log INFO [Str "Account info:"; Str nl; Obj (fst me)] ;;
          let account_type := if snd me then "bot" else "user" in
          log INFO [Str "This is a "; Str account_type; Str " account."])
         on_error)
      (try_except
         (w <- get ;;
          if is_initialized e && is_connected w then
            emit (Call Disconnect) ;; answer (disconnect e) ;;
            log INFO [Str "Client disconnected."]
          else ret tt)
         (fun ex => log ERROR [Str "Error disconnecting client: "; ExcStr ex])).

(** A call on the client, of whatever kind. *)
Definition is_client_call (e : event) : bool :=
  match e with Call _ => true | _ => false end.

(** An output that shows account information: the log records of lines
    100 and 104. *)
Definition shows_account (e : event) : bool :=
  match e with
  | Log INFO (Str s :: _) =>
      String.eqb s "Account info:" || String.eqb s "This is a "
  | _ => false
  end.

(** An operator who just presses Enter. *)
Definition empty_input : env :=
  {| session_string := ""; connect := Gives tt; get_me := Gives ("me", false);
     is_initialized := true; disconnect := Gives tt |}.

End StringAuth.

(* ================================================================== *)
(** * Concrete runs *)
(* ================================================================== *)

Module Scenarios.
Import Effects QrAuth.

(** A connected client on data center 2. *)
Definition client0 : client :=
  {| is_connected := true; has_session := true; storage_dc_id := 2;
     storage_auth_key := []; session_dc := Some 2 |}.

Definition w0 : world := initial_world client0.

Definition token0 : list byte := [x01; x02; x03].

(** A pass during which no update arrives. *)
Definition pass_with (r : reply login_result) : iter_env :=
  {| on_settle := []; on_grace := []; token_request := r; on_request := [];
     on_race := []; timer_done := false; on_backoff := [] |}.

(** A pass that renders a code nobody scans. *)
Definition expiring : iter_env := pass_with (Gives (LoginToken token0)).

(** A pass whose token request fails on a broken connection. *)
Definition failing : iter_env :=
  pass_with (Throws (PyException "ConnectionError" "Connection lost")).

Definition switch_ok : check_session_env :=
  {| session_stop := Gives tt; auth_create := Gives [x2a]; session_start := Gives true |}.

(** A switch in which stopping the old session already fails. *)
Definition stop_fails : check_session_env :=
  {| session_stop := Throws (PyException "OSError" "Connection lost");
     auth_create := Gives [x2a]; session_start := Gives true |}.

Definition answers (r : reply login_result) (cs : check_session_env)
    (me : reply string) (pw : reply unit) : handler_env :=
  {| realign := cs; export_token := r; get_me := me;
     export_session_string := Gives "BQAAAA";
     switch := cs;
     twofa := {| password := Gives "hunter2"; check_password := pw |};
     export_token_2 := Gives LoginTokenSuccess; get_me_2 := me;
     export_session_string_2 := Gives "BQAAAA" |}.

(** A pass whose code is answered by a migration to data center 4. *)
Definition migrating (cs : check_session_env) : iter_env :=
  {| on_settle := []; on_grace := []; token_request := Gives (LoginToken token0);
     on_request := [];
     on_race := [(UpdateLoginToken,
                  answers (Gives (LoginTokenMigrateTo 4)) cs (Gives "me") (Gives tt))];
     timer_done := false; on_backoff := [] |}.

(** A confirmation whose [get_me] fails. *)
Definition confirmed_no_identity : handler_env :=
  answers (Gives LoginTokenSuccess) switch_ok
    (Throws (PyException "ConnectionError" "Connection lost")) (Gives tt).

(** A 2FA check answered by a rate limit of 30 seconds. *)
Definition rate_limited_2fa : twofa_env :=
  {| password := Gives "hunter2"; check_password := Throws (RPCError FloodWait 30 "") |}.

(** A scan that needs a 2FA secret, and the wrong secret. *)
Definition wrong_secret : handler_env :=
  answers (Throws (RPCError SessionPasswordNeeded 0 "")) switch_ok (Gives "me")
    (Throws (RPCError PasswordHashInvalid 0 "")).

(** The operator presses Enter and the nearest-DC query fails. *)
Definition nearest_fails : qr_auth_env :=
  {| dc_choice := ""; connect := Gives tt;
     get_nearest_dc := Throws (PyException "TimeoutError" "");
     setup := switch_ok; dispatcher_start := Gives tt;
     script := [expiring; expiring; expiring; expiring];
     dispatcher_stop := Gives tt; disconnect := Gives tt |}.

(** The operator types 3; the nearest-DC query would answer 4. *)
Definition chooses_3 : qr_auth_env :=
  {| dc_choice := "3"; connect := Gives tt; get_nearest_dc := Gives 4;
     setup := switch_ok; dispatcher_start := Gives tt;
     script := [expiring; expiring; expiring; expiring];
     dispatcher_stop := Gives tt; disconnect := Gives tt |}.

End Scenarios.

(* ================================================================== *)
(** * Reading runs of the two scripts *)
(* ================================================================== *)

Module Readings.
Import Effects QrAuth.
Local Open Scope list_scope.

Definition is_error_log (e : event) : bool :=
  match e with Log ERROR _ => true | _ => false end.

(** The library calls of [check_session]. *)
Definition is_session_call (e : event) : bool :=
  match e with
  | Call SessionStop | Call (AuthCreate _) | Call (SessionStart _) => true
  | _ => false
  end.

(** Whether [check_session] has an old session to stop. *)
Definition stops_old_session (w : world) : bool :=
  has_session (cl w) && is_connected (cl w).

(** The first of the three library calls of [check_session] that raises,
    if one does. *)
Definition first_failure (e : check_session_env) (w : world) : option exn :=
  match (if stops_old_session w then session_stop e else Gives tt),
        auth_create e, session_start e with
  | Throws ex, _, _ => Some ex
  | Gives _, Throws ex, _ => Some ex
  | Gives _, Gives _, Throws ex => Some ex
  | Gives _, Gives _, Gives _ => None
  end.

(** What [check_session] returns. *)
Definition switch_succeeds (e : check_session_env) (w : world) : bool :=
  match first_failure e w, session_start e with
  | None, Gives started => started
  | _, _ => false
  end.

(** The 2FA secret is typed and the library accepts it. *)
Definition accepted (t : twofa_env) : bool :=
  match password t, check_password t with
  | Gives _, Gives _ => true
  | _, _ => false
  end.

Definition is_success (r : reply login_result) : bool :=
  match r with Gives LoginTokenSuccess => true | _ => false end.

(** The library's answers make a scan a confirmation: the token request
    is answered by the success variant, at once or after 2FA. *)
Definition confirms (e : handler_env) : bool :=
  match export_token e with
  | Gives LoginTokenSuccess => true
  | Throws ex =>
      is_SessionPasswordNeeded ex && accepted (twofa e) && is_success (export_token_2 e)
  | _ => false
  end.

(** The scan needs a 2FA secret. *)
Definition asks_secret (e : handler_env) : bool :=
  match export_token e with
  | Throws ex => is_SessionPasswordNeeded ex
  | Gives _ => false
  end.

(** What the finalization of a confirmation emits (lines 196-205 and
    240-247): the identity, then the session string; [failure] is the
    text of the error record. *)
Definition finalization (me es : reply string) (failure : string) : trace :=
  Call GetMe
  :: match me with
     | Gives m =>
         Log INFO [Str "User information:"; Str nl; Obj m]
         :: Call ExportSessionString
         :: match es with
            | Gives s =>
                [Print [Str nl; Str "Session string for future use (save this securely):";
                        Str nl; Str s; Str nl]]
            | Throws ex => [Log ERROR [Str failure; ExcStr ex]]
            end
     | Throws ex => [Log ERROR [Str failure; ExcStr ex]]
     end.

(** The library's answers make a scan a migration. *)
Definition migrates (e : handler_env) : bool :=
  match export_token e with
  | Gives (LoginTokenMigrateTo _) => true
  | _ => false
  end.

Definition is_UpdateLoginToken (u : update) : bool :=
  match u with UpdateLoginToken => true | _ => false end.

(** The print of the session string (lines 203 and 247). *)
Definition shows_session_string (e : event) : bool :=
  match e with
  | Print (Str _ :: Str s :: _) =>
      String.eqb s "Session string for future use (save this securely):"
  | _ => false
  end.

(** The events of [check_session] and of [handle_2fa]. *)
Definition session_event (e : event) : bool := is_session_call e || is_error_log e.

Definition twofa_event (e : event) : bool :=
  match e with
  | Log _ _ | GetPass _ | Call (CheckPassword _) => true
  | _ => false
  end.

(** The token requests in a trace, whoever makes them. *)
Definition token_requests (t : trace) : nat := calls ExportLoginToken t.

(** The resets of the counter in a trace. *)
Definition resets (t : trace) : nat := List.length (filter is_reset t).

(** A pass during which the dispatcher hands no update to the handler. *)
Definition no_updates (ie : iter_env) : Prop :=
  on_settle ie = [] /\ on_grace ie = [] /\ on_request ie = []
  /\ on_race ie = [] /\ on_backoff ie = [].

Definition is_token (r : reply login_result) : bool :=
  match r with Gives (LoginToken _) => true | _ => false end.

Definition tokens (rs : list (reply login_result)) : nat :=
  List.length (filter is_token rs).

(** The calls that release what [qr_auth] holds. *)
Definition is_cleanup_call (e : event) : bool :=
  match e with
  | Call DispatcherStop | Call Disconnect => true
  | _ => false
  end.

(** A coroutine that emits only events of one kind. *)
Definition emits_only {W A} (P : event -> bool) (m : M W A) : Prop :=
  forall w, Forall (fun e => P e = true) (trace_of (m w)).

(** What the body of [qr_auth] emits: anything but the two calls of its
    [finally] block. *)
Definition body_event (e : event) : bool := negb (is_cleanup_call e).

(** What [qr_auth] emits before its coordinator starts: no token request
    and no code. *)
Definition setup_event (e : event) : bool :=
  negb (is_call ExportLoginToken e) && negb (is_code e).

(** What lines 382-392 make of the operator's input. *)
Definition selection (dc_choice : string) : option Z :=
  if isdigit dc_choice && (1 <=? int dc_choice) && (int dc_choice <=? 5)
  then Some (int dc_choice) else None.

(** The data center lines 410-427 settle on: the choice, else the
    answer of the query, else 2. *)
Definition resolved (selected_dc : option Z) (e : qr_auth_env) : Z :=
  match selected_dc, get_nearest_dc e with
  | Some d, _ => d
  | None, Gives n => n
  | None, Throws _ => 2
  end.

(** The world when [qr_auth] sets up its session: the client is
    connected and [nearest_dc] is resolved. *)
Definition connected_on (d : Z) (w : world) : world :=
  set_nearest_dc (Some d)
    (set_cl (set_is_connected true (cl (set_nearest_dc None w))) (set_nearest_dc None w)).

(** What the [finally] block of [qr_auth] emits. *)
Definition cleanup_trace (e : qr_auth_env) : trace :=
  (Call DispatcherStop
   :: match dispatcher_stop e with
      | Gives _ => []
      | Throws ex => [Log ERROR [Str "Error stopping dispatcher: "; ExcStr ex]]
      end)
  ++ Call Disconnect
  :: match disconnect e with
     | Gives _ => [Log INFO [Str "Disconnected from Telegram"]]
     | Throws ex => [Log ERROR [Str "Error disconnecting: "; ExcStr ex]]
     end.

End Readings.

(* ================================================================== *)
(** * More concrete runs *)
(* ================================================================== *)

Module Runs.
Import Effects QrAuth Scenarios.

(** A scan answered by a migration to data center 4, the switch
    succeeding. *)
Definition migration_to_4 : delivery :=
  (UpdateLoginToken, answers (Gives (LoginTokenMigrateTo 4)) switch_ok (Gives "me") (Gives tt)).

(** A scan answered by the success variant. *)
Definition confirmation : delivery :=
  (UpdateLoginToken, answers (Gives LoginTokenSuccess) switch_ok (Gives "me") (Gives tt)).

(** A pass over the budget during whose wait a migration arrives. *)
Definition late_migration : iter_env :=
  {| on_settle := []; on_grace := [migration_to_4];
     token_request := Gives (LoginToken token0); on_request := [];
     on_race := []; timer_done := false; on_backoff := [] |}.

(** A pass over the budget during whose wait a confirmation arrives. *)
Definition late_confirmation : iter_env :=
  {| on_settle := []; on_grace := [confirmation];
     token_request := Gives (LoginToken token0); on_request := [];
     on_race := []; timer_done := false; on_backoff := [] |}.

(** A pass whose failed token request is followed, during the back-off,
    by a confirmation. *)
Definition confirmed_in_backoff : iter_env :=
  {| on_settle := []; on_grace := [];
     token_request := Throws (PyException "ConnectionError" "Connection lost");
     on_request := []; on_race := []; timer_done := false;
     on_backoff := [confirmation] |}.

(** A wait during which a migration and then a confirmation arrive. *)
Definition migration_and_confirmation : iter_env :=
  {| on_settle := []; on_grace := [];
     token_request := Gives (LoginToken token0); on_request := [];
     on_race := [migration_to_4; confirmation]; timer_done := true; on_backoff := [] |}.

(** The connection to Telegram cannot be made. *)
Definition cannot_connect : qr_auth_env :=
  {| dc_choice := "2"; connect := Throws (PyException "ConnectionError" "Connection lost");
     get_nearest_dc := Gives 4; setup := switch_ok; dispatcher_start := Gives tt;
     script := []; dispatcher_stop := Gives tt;
     disconnect := Throws (PyException "ConnectionError" "Client is already disconnected") |}.

(** A session string that Telegram no longer accepts. *)
Definition revoked_session : StringAuth.env :=
  {| StringAuth.session_string := "BQAAAA";
     StringAuth.connect := Gives tt;
     StringAuth.get_me := Throws (RPCError SessionRevoked 0 "SESSION_REVOKED");
     StringAuth.is_initialized := true;
     StringAuth.disconnect := Gives tt |}.

End Runs.

(* ================================================================== *)
(** * Properties *)
(* ================================================================== *)

Import Effects.

(** Splitting a conjunction without unfolding what it is made of. *)
Ltac conjs := repeat match goal with |- _ /\ _ => refine (conj _ _) end.

(** Running the monad as far as the outside's answers are known. *)
Ltac run :=
  cbv beta iota zeta delta [bind get emit modify ret raise try_except answer fst snd
                             log print QrAuth.call QrAuth.sleep QrAuth.wait_for_DC_MIGRATED
                             QrAuth.generate_qr].

(** ** The deep link *)

Section Base64Facts.
Import Base64.

(** Lists three elements at a time. *)
Lemma list_ind3 {A} (P : list A -> Prop) :
  P [] ->
  (forall a, P [a]) ->
  (forall a b, P [a; b]) ->
  (forall a b c l, P l -> P (a :: b :: c :: l)) ->
  forall l, P l.
Proof.
  intros H0 H1 H2 H3.
  assert (H : forall l, P l /\ (forall a, P (a :: l)) /\ (forall a b, P (a :: b :: l))).
  { induction l as [|x l [IH0 [IH1 IH2]]].
    - repeat split; auto.
    - repeat split; auto. }
  intro l. apply H.
Qed.

Lemma sextet_translate (i : Z) :
  urlsafe_translate_char (sextet std_alphabet i) = sextet url_alphabet i.
Proof.
  unfold sextet. generalize (Z.to_nat i). intro n.
  do 64 (destruct n as [|n]; [reflexivity|]).
  reflexivity.
Qed.

Lemma sextet_url_safe (i : Z) : url_safe_char (sextet url_alphabet i) = true.
Proof.
  unfold sextet. generalize (Z.to_nat i). intro n.
  do 64 (destruct n as [|n]; [reflexivity|]).
  reflexivity.
Qed.

(** Python's [urlsafe_b64encode] is the base64url of RFC 4648. *)
Lemma urlsafe_b64encode_base64url (bs : list byte) :
  urlsafe_b64encode bs = base64url bs.
Proof.
  unfold urlsafe_b64encode, b64encode, base64url.
  induction bs as [|a|a b|a b c l IH] using list_ind3.
  - reflexivity.
  - cbn [encode_with translate]. now rewrite !sextet_translate.
  - cbn [encode_with translate]. now rewrite !sextet_translate.
  - cbn [encode_with translate]. now rewrite !sextet_translate, IH.
Qed.

(** The encoded text needs no escaping in a URL. *)
Lemma base64url_url_safe (bs : list byte) :
  string_forallb url_safe_char (base64url bs) = true.
Proof.
  unfold base64url.
  induction bs as [|a|a b|a b c l IH] using list_ind3;
    cbn [encode_with string_forallb];
    rewrite ?sextet_url_safe, ?IH; reflexivity.
Qed.

(** Four characters for every three bytes, the last group padded. *)
Lemma base64url_length (bs : list byte) :
  String.length (base64url bs) = (4 * ((List.length bs + 2) / 3))%nat.
Proof.
  unfold base64url.
  induction bs as [|a|a b|a b c l IH] using list_ind3; try reflexivity.
  cbn [encode_with String.length List.length]. rewrite IH.
  replace (S (S (S (List.length l))) + 2)%nat with (1 * 3 + (List.length l + 2))%nat by lia.
  rewrite Nat.div_add_l by discriminate. lia.
Qed.

Example base64url_foobar :
  base64url (list_byte_of_string "foobar") = "Zm9vYmFy"
  /\ base64url (list_byte_of_string "fooba") = "Zm9vYmE="
  /\ base64url (list_byte_of_string "foob") = "Zm9vYg=="
  /\ b64encode [xfb; xff; xfe] = "+//+"
  /\ urlsafe_b64encode [xfb; xff; xfe] = "-__-".
Proof. repeat split; reflexivity. Qed.
End Base64Facts.

(** C9.  For every token, [generate_qr] renders one code, and the data of
    that code is exactly the text "tg://login?token=" followed by the
    base64url encoding (RFC 4648, with padding) of the token bytes; the
    world is left as it was. *)
Theorem generate_qr_deep_link (token : list byte) (w : QrAuth.world) :
  QrAuth.generate_qr token w
  = (Returns tt, w,
     [PrintAsciiQR ["tg://login?token=" ++ Base64.base64url token]])
  /\ QrAuth.login_url token = "tg://login?token=" ++ Base64.base64url token.
Proof.
  unfold QrAuth.generate_qr, QrAuth.login_url, emit. cbn.
  rewrite urlsafe_b64encode_base64url. split; reflexivity.
Qed.

(** ** The session-string script *)

Section StringAuthFacts.
Import StringAuth.

(** C10.  When the operator enters the empty session string,
    [session_string_auth] logs the banner, prompts, logs the error and
    returns: it makes no call on a client (none is built, nothing is
    connected), shows no account information, and leaves the world as it
    was. *)
Theorem empty_session_string_returns_at_once (e : env) (w : world) :
  session_string e = "" ->
  session_string_auth e w
  = (Returns tt, w,
     [Log INFO [Str "==== SESSION STRING AUTHENTICATION ===="];
      Input "Enter your session string (from a previous export): ";
      Log ERROR [Str "Session string cannot be empty."]])
  /\ filter is_client_call (trace_of (session_string_auth e w)) = []
  /\ filter shows_account (trace_of (session_string_auth e w)) = [].
Proof.
  intro H.
  assert (E : session_string_auth e w
              = (Returns tt, w,
                 [Log INFO [Str "==== SESSION STRING AUTHENTICATION ===="];
                  Input "Enter your session string (from a previous export): ";
                  Log ERROR [Str "Session string cannot be empty."]])).
  { unfold session_string_auth. rewrite H. reflexivity. }
  rewrite E. repeat split; reflexivity.
Qed.

Lemma empty_session_string_witness :
  session_string empty_input = ""
  /\ filter is_client_call (trace_of (session_string_auth empty_input initial_world)) = [].
Proof.
  split; [reflexivity|].
  apply (empty_session_string_returns_at_once empty_input initial_world).
  reflexivity.
Defined.

(** With a session string that is not empty the client is built and a
    connection is attempted. *)
Example nonempty_session_string_connects :
  let e := {| session_string := "AQ"; connect := Gives tt; get_me := Gives ("me", false);
              is_initialized := false; disconnect := Gives tt |} in
  trace_of (session_string_auth e initial_world)
  = [Log INFO [Str "==== SESSION STRING AUTHENTICATION ===="];
     Input "Enter your session string (from a previous export): ";
     Call (NewClient "string_session" (Some "AQ") false);
     Log INFO [Str "Starting client with session string..."];
     Call Connect;
     Log INFO [Str "Client connected successfully!"];
     Log INFO [Str "Getting account information..."];
     Call GetMe;
     Log INFO [Str "Account info:"; Str nl; Obj "me"];
     Log INFO [Str "This is a "; Str "user"; Str " account."]].
Proof. reflexivity. Qed.
End StringAuthFacts.

(** * The QR-login coordinator *)
(** ** Frame rules *)

Section Frame.
Context {W : Type}.
Variable R : W -> W -> Prop.
Variable P : event -> Prop.
Hypothesis R_refl : forall w, R w w.
Hypothesis R_trans : forall a b c, R a b -> R b c -> R a c.

Lemma sat_ret {A} (a : A) : sat R P (ret a).
Proof. intro w. cbn. repeat split; auto; discriminate. Qed.

Lemma sat_raise {A} (e : exn) : sat R P (@raise W A e).
Proof. intro w. cbn. repeat split; auto; discriminate. Qed.

Lemma sat_get : sat R P (@get W).
Proof. intro w. cbn. repeat split; auto; discriminate. Qed.

Lemma sat_emit (e : event) : P e -> sat R P (@emit W e).
Proof. intros H w. cbn. repeat split; auto; discriminate. Qed.

Lemma sat_modify (f : W -> W) : (forall w, R w (f w)) -> sat R P (modify f).
Proof. intros H w. cbn. repeat split; auto; discriminate. Qed.

Lemma sat_answer {A} (o : reply A) : sat R P (@answer W A o).
Proof. destruct o; [apply sat_ret | apply sat_raise]. Qed.

Lemma sat_bind {A B} (m : M W A) (k : A -> M W B) :
  sat R P m -> (forall a, sat R P (k a)) -> sat R P (bind m k).
Proof.
  intros Hm Hk w. specialize (Hm w).
  unfold bind, world_of, trace_of, result_of in *.
  destruct (m w) as [[r w1] t1]; cbn in Hm. destruct Hm as (HR & HP & HU).
  destruct r as [a|e|]; cbn; [|repeat split; auto; discriminate|congruence].
  specialize (Hk a w1). destruct (k a w1) as [[r2 w2] t2]; cbn in *.
  destruct Hk as (HR2 & HP2 & HU2).
  repeat split; eauto. apply Forall_app; auto.
Qed.

Lemma sat_try_except {A} (m : M W A) (h : exn -> M W A) :
  sat R P m -> (forall e, sat R P (h e)) -> sat R P (try_except m h).
Proof.
  intros Hm Hh w. specialize (Hm w).
  unfold try_except, world_of, trace_of, result_of in *.
  destruct (m w) as [[r w1] t1]; cbn in Hm. destruct Hm as (HR & HP & HU).
  destruct r as [a|e|]; cbn; [repeat split; auto; discriminate| |congruence].
  specialize (Hh e w1). destruct (h e w1) as [[r2 w2] t2]; cbn in *.
  destruct Hh as (HR2 & HP2 & HU2).
  repeat split; eauto. apply Forall_app; auto.
Qed.
End Frame.

Section QrFrame.
Import QrAuth.
Local Open Scope list_scope.

Lemma handler_keeps_refl w : handler_keeps w w.
Proof. unfold handler_keeps. auto. Qed.

Lemma handler_keeps_trans a b c :
  handler_keeps a b -> handler_keeps b c -> handler_keeps a c.
Proof. unfold handler_keeps. intuition congruence. Qed.

Lemma keeps_set_cl c : forall w, handler_keeps w (set_cl c w).
Proof. intro w. unfold handler_keeps. cbn. auto. Qed.

Lemma keeps_set_SESSION_CREATED : forall w, handler_keeps w (set_SESSION_CREATED true w).
Proof. intro w. unfold handler_keeps. cbn. auto. Qed.

Lemma keeps_set_DC_MIGRATED : forall w, handler_keeps w (set_DC_MIGRATED true w).
Proof. intro w. unfold handler_keeps. cbn. auto. Qed.

Ltac keeps := first [exact handler_keeps_refl | exact handler_keeps_trans].

Ltac sat_step :=
  match goal with
  | |- sat _ _ (bind _ _) => apply sat_bind; [keeps .. | | intro]
  | |- sat _ _ (try_except _ _) => apply sat_try_except; [keeps .. | | intro]
  | |- sat _ _ (ret _) => apply sat_ret; keeps
  | |- sat _ _ (raise _) => apply sat_raise; keeps
  | |- sat _ _ get => apply sat_get; keeps
  | |- sat _ _ (answer _) => apply sat_answer; keeps
  | |- sat _ _ (emit _) => apply sat_emit; [keeps .. | reflexivity]
  | |- sat _ _ (modify _) =>
      apply sat_modify;
      [keeps .. | intro; first [apply keeps_set_cl | apply keeps_set_SESSION_CREATED
                               | apply keeps_set_DC_MIGRATED]]
  | |- sat _ _ (match ?x with _ => _ end) => destruct x
  end.

Ltac handler_sat := repeat sat_step.

Lemma check_session_sat e dc : sat handler_keeps quiet_event (check_session e dc).
Proof. unfold check_session, call, log, print. handler_sat. Qed.

Lemma handle_2fa_sat e : sat handler_keeps quiet_event (handle_2fa e).
Proof. unfold handle_2fa, call, log, print. handler_sat. Qed.

Lemma raw_update_handler_sat e u : sat handler_keeps quiet_event (raw_update_handler e u).
Proof.
  unfold raw_update_handler, call, log, print.
  repeat first [ apply check_session_sat | apply handle_2fa_sat | progress handler_sat ].
Qed.
End QrFrame.

Section QrPhases.
Import QrAuth.
Local Open Scope list_scope.

(** The handler runs of one [await] end, keep the tasks and emit nothing
    of what only the coordinator emits. *)
Lemma deliver_spec ds : forall w,
  deliver ds w = (Returns tt, world_of (deliver ds w), trace_of (deliver ds w))
  /\ handler_keeps w (world_of (deliver ds w))
  /\ Forall quiet_event (trace_of (deliver ds w)).
Proof.
  induction ds as [|[u e] ds IH]; intro w.
  - cbn. split; [reflexivity|]. split; [apply handler_keeps_refl | constructor].
  - destruct (raw_update_handler_sat e u w) as (HR & HP & HU).
    destruct (IH (world_of (raw_update_handler e u w))) as (E & HR' & HP').
    match goal with |- ?run = _ /\ _ =>
    assert (D : run
                = (Returns tt,
                   world_of (deliver ds (world_of (raw_update_handler e u w))),
                   (trace_of (raw_update_handler e u w)
                    ++ trace_of (deliver ds (world_of (raw_update_handler e u w))))%list))
    end.
    { cbn [deliver]. unfold bind, try_except.
      unfold world_of, trace_of, result_of in *.
      destruct (raw_update_handler e u w) as [[r w1] t1]. cbn in *.
      destruct r as [[]|ex|]; [| |congruence]; cbn; rewrite E; cbn;
        rewrite ?app_nil_r; reflexivity. }
    rewrite D. cbn [world_of trace_of fst snd].
    split; [reflexivity|]. split.
    + eapply handler_keeps_trans; eauto.
    + apply Forall_app; auto.
Qed.

Lemma deliver_eq ds w :
  deliver ds w = (Returns tt, world_of (deliver ds w), trace_of (deliver ds w)).
Proof. apply deliver_spec. Qed.

Lemma deliver_keeps ds w : handler_keeps w (world_of (deliver ds w)).
Proof. apply deliver_spec. Qed.

Lemma deliver_quiet ds w : Forall quiet_event (trace_of (deliver ds w)).
Proof. apply deliver_spec. Qed.

(** Task identities are positions in the table of tasks. *)
Lemma nth_error_past {A} (ts l : list A) (i : nat) :
  nth_error (ts ++ l) (List.length ts + i) = nth_error l i.
Proof. induction ts; cbn; auto. Qed.

Lemma set_state_past (ts l : list task) (i : nat) (s : task_state) :
  set_state (List.length ts + i) s (ts ++ l) = (ts ++ set_state i s l)%list.
Proof. induction ts; cbn; [reflexivity | now f_equal]. Qed.

Lemma nth_error_past0 {A} (ts l : list A) :
  nth_error (ts ++ l) (List.length ts) = nth_error l 0.
Proof. rewrite <- (Nat.add_0_r (List.length ts)) at 1. apply nth_error_past. Qed.

Lemma set_state_past0 (ts l : list task) (s : task_state) :
  set_state (List.length ts) s (ts ++ l) = (ts ++ set_state 0 s l)%list.
Proof. rewrite <- (Nat.add_0_r (List.length ts)) at 1. apply set_state_past. Qed.

Lemma race_spec ie l w :
  let d := deliver (on_race ie) (racing w) in
  let w1 := world_of d in
  let sc := SESSION_CREATED w1 in
  let dm := DC_MIGRATED w1 in
  let tm := timer_done ie || negb (sc || dm) in
  race ie l w
  = (Returns (if sc then Return ReturnSessionCreated l else Continue l),
     {| SESSION_CREATED := sc; DC_MIGRATED := dm;
        nearest_dc := nearest_dc w1; cl := cl w1;
        tasks := (tasks w
                  ++ [ {| kind := Wait_SESSION_CREATED; state := settled sc |};
                       {| kind := Timer QR_TIMEOUT; state := settled tm |};
                       {| kind := Wait_DC_MIGRATED; state := settled dm |} ])%list |},
     (WaitFirst [Wait_SESSION_CREATED; Timer QR_TIMEOUT; Wait_DC_MIGRATED]
      :: trace_of d
      ++ cancelled sc Wait_SESSION_CREATED ++ cancelled tm (Timer QR_TIMEOUT)
      ++ cancelled dm Wait_DC_MIGRATED
      ++ (if sc then []
          else if dm
               then [Log INFO [Str "DC migration occurred, will generate new QR codes"]]
               else [Log INFO [Str "QR code #"; Num (qr_counter l); Str " expired after ";
                               Num QR_TIMEOUT; Str " seconds"]]))%list).
Proof.
  intros d w1 sc dm tm.
  pose proof (deliver_spec (on_race ie) (racing w)) as (E & K & _).
  destruct K as (Kt & _).
  fold d in E, Kt. fold w1 in E, Kt.
  assert (Kt' : tasks w1
                = (tasks w ++ [ {| kind := Wait_SESSION_CREATED; state := Pending |};
                                {| kind := Timer QR_TIMEOUT; state := Pending |};
                                {| kind := Wait_DC_MIGRATED; state := Pending |} ])%list).
  { rewrite Kt. cbn. now rewrite <- !app_assoc. }
  clear Kt.
  unfold race, create_task, asyncio_wait, log.
  cbv beta iota zeta delta [bind get emit modify ret fst snd map].
  fold (racing w). fold d. rewrite E.
  subst sc dm tm. set (td := trace_of d) in *. clearbody td. clear E. clearbody w1. clear d.
  destruct w1 as [sc dm nd1 c1 ts1]. cbn in Kt'. subst ts1.
  unfold task_completes.
  cbn [tasks add_tasks racing SESSION_CREATED DC_MIGRATED nearest_dc cl].
  rewrite !length_app. cbn [List.length].
  rewrite <- !app_assoc. cbn [app].
  rewrite <- !Nat.add_assoc. cbn [Nat.add].
  destruct sc, dm, (timer_done ie);
    repeat (progress (
      cbv beta iota zeta delta [bind get emit modify ret fst snd map mark_all cancel_all mark
                                 orb negb settled cancelled partition completes];
      cbn [tasks SESSION_CREATED DC_MIGRATED nearest_dc cl kind nth_error set_state];
      rewrite ?set_state_past0, ?set_state_past, ?nth_error_past0, ?nth_error_past)).
  all: cbn [trace_of snd app]; rewrite ?app_nil_r, <- ?app_assoc; cbn [app];
    rewrite ?app_nil_r; reflexivity.
Qed.

(** Replace a stuck [deliver ds w] by its canonical triple. *)
Ltac deliver_step ds :=
  match goal with
  | |- context [deliver ds ?w] =>
      let E := fresh "E" in
      let d := fresh "d" in
      let Hd := fresh "Hd" in
      pose proof (deliver_eq ds w) as E;
      remember (deliver ds w) as d eqn:Hd in *;
      rewrite E; clear E;
      cbn [world_of trace_of result_of fst snd]
  end.

Lemma settle_run ie l w :
  settle ie l w
  = if DC_MIGRATED w
    then (Returns {| qr_counter := 0; dc_migrated_flag := true |},
          set_DC_MIGRATED false (world_of (deliver (on_settle ie) w)),
          Log INFO [Str "DC migration detected, resetting QR code counter"]
          :: Sleep 2 :: trace_of (deliver (on_settle ie) w))
    else (Returns l, w, []).
Proof.
  unfold settle. run.
  destruct (DC_MIGRATED w); [|reflexivity].
  run. deliver_step (on_settle ie).
  cbn [app]. now rewrite app_nil_r.
Qed.

Lemma grace_run ie l w :
  grace ie l w
  = (Returns (if DC_MIGRATED (world_of (deliver (on_grace ie) w))
              then Continue l else Return ReturnMaxCodes l),
     world_of (deliver (on_grace ie) w),
     (Print [Str nl; Str "Maximum number of QR codes ("; Num MAX_QR_CODES;
             Str ") for this DC generated without success."]
      :: WaitFor Wait_DC_MIGRATED 10 :: trace_of (deliver (on_grace ie) w)
      ++ (if DC_MIGRATED (world_of (deliver (on_grace ie) w)) then []
          else [Print [Str "Please try again later."]]))%list).
Proof.
  unfold grace. run. deliver_step (on_grace ie). run.
  destruct (DC_MIGRATED (world_of d)) eqn:Hdm; cbn; rewrite ?Hdm; cbn;
    rewrite ?app_nil_r; reflexivity.
Qed.

Lemma announce_run l w :
  announce l w
  = (Returns {| qr_counter := qr_counter l; dc_migrated_flag := false |}, w,
     trace_of (announce l w))
  /\ Forall quiet_event (trace_of (announce l w)).
Proof.
  unfold announce. destruct l as [n [|]]; cbn [dc_migrated_flag qr_counter].
  - run. cbn. split; [reflexivity|]. repeat constructor.
  - destruct (n =? 1); run; cbn; (split; [reflexivity|]); repeat constructor.
Qed.

Lemma issue_run ie l w :
  let w1 := world_of (deliver (on_request ie) w) in
  let b := deliver (on_backoff ie) w1 in
  issue ie l w
  = match token_request ie with
    | Gives (LoginToken token) =>
        (result_of (race ie l w1), world_of (race ie l w1),
         (Call ExportLoginToken :: trace_of (deliver (on_request ie) w)
          ++ Log INFO [Str "Generated QR code #"; Num (qr_counter l); Str "/";
                       Num MAX_QR_CODES; Str " (expires in "; Num QR_TIMEOUT;
                       Str " seconds)"]
          :: PrintAsciiQR [login_url token] :: trace_of (race ie l w1))%list)
    | Gives result =>
        (Returns (Continue l), world_of b,
         (Call ExportLoginToken :: trace_of (deliver (on_request ie) w)
          ++ Log WARNING [Str "Unexpected response when generating QR code: ";
                          Str (type_name_of result)]
          :: Sleep 3 :: trace_of b)%list)
    | Throws ex =>
        (Returns (Continue l), world_of b,
         (Call ExportLoginToken :: trace_of (deliver (on_request ie) w)
          ++ (if is_FloodWait ex then
                [Log WARNING [Str "Rate limited. Waiting "; Num (exn_value ex);
                              Str " seconds"];
                 Sleep (exn_value ex)]
              else if is_RPCError ex then
                [Log ERROR [Str "Telegram API error generating QR code: "; ExcName ex;
                            Str " - "; ExcStr ex];
                 Sleep 3]
              else
                [Log ERROR [Str "Unexpected error generating QR code: "; ExcName ex;
                            Str " - "; ExcStr ex];
                 Sleep 3])
          ++ trace_of b)%list)
    end.
Proof.
  intros w1 b. subst b w1. unfold issue. run.
  deliver_step (on_request ie).
  destruct (token_request ie) as [[token|dc| |name]|ex]; run.
  - rewrite race_spec. cbn [result_of world_of trace_of fst snd app].
    destruct (SESSION_CREATED _); cbn [app]; rewrite ?app_nil_r; reflexivity.
  - deliver_step (on_backoff ie). cbn [app]. rewrite ?app_nil_r. reflexivity.
  - deliver_step (on_backoff ie). cbn [app]. rewrite ?app_nil_r. reflexivity.
  - deliver_step (on_backoff ie). cbn [app]. rewrite ?app_nil_r. reflexivity.
  - destruct (is_FloodWait ex); [|destruct (is_RPCError ex)]; run;
      deliver_step (on_backoff ie);
      cbn [app]; rewrite ?app_nil_r, <- ?app_assoc; reflexivity.
Qed.

(** One pass of the loop, in closed form. *)
Lemma loop_body_run ie l w :
  let w1 := if DC_MIGRATED w
            then set_DC_MIGRATED false (world_of (deliver (on_settle ie) w))
            else w in
  let pre := if DC_MIGRATED w
             then Log INFO [Str "DC migration detected, resetting QR code counter"]
                  :: Sleep 2 :: trace_of (deliver (on_settle ie) w)
             else [] in
  let l1 := {| qr_counter := (if DC_MIGRATED w then 0 else qr_counter l) + 1;
               dc_migrated_flag := if DC_MIGRATED w then true else dc_migrated_flag l |} in
  let l2 := {| qr_counter := qr_counter l1; dc_migrated_flag := false |} in
  loop_body ie l w
  = if MAX_QR_CODES <? qr_counter l1
    then (result_of (grace ie l1 w1), world_of (grace ie l1 w1),
          (pre ++ trace_of (grace ie l1 w1))%list)
    else (result_of (issue ie l2 w1), world_of (issue ie l2 w1),
          (pre ++ trace_of (announce l1 w1) ++ trace_of (issue ie l2 w1))%list).
Proof.
  intros w1 pre l1 l2. subst l2 l1 pre w1.
  unfold loop_body. unfold bind at 1. rewrite settle_run.
  destruct (DC_MIGRATED w); cbn [qr_counter dc_migrated_flag].
  - remember (set_DC_MIGRATED false _) as w1 eqn:Hw1.
    remember (trace_of (deliver (on_settle ie) w)) as td eqn:Htd.
    change (MAX_QR_CODES <? 0 + 1) with false. cbv iota.
    destruct (announce_run {| qr_counter := 0 + 1; dc_migrated_flag := true |} w1) as [Ea _].
    unfold bind. rewrite Ea. cbn [qr_counter].
    destruct (issue ie _ w1) as [[r w2] t2].
    reflexivity.
  - destruct (MAX_QR_CODES <? qr_counter l + 1).
    + destruct (grace ie _ w) as [[r w2] t2]. reflexivity.
    + destruct (announce_run {| qr_counter := qr_counter l + 1;
                                dc_migrated_flag := dc_migrated_flag l |} w) as [Ea _].
      unfold bind. rewrite Ea. cbn [qr_counter].
      destruct (issue ie _ w) as [[r w2] t2]. reflexivity.
Qed.
End QrPhases.

Section QrTraces.
Import QrAuth.
Local Open Scope list_scope.

Lemma codes_issued_app a b :
  codes_issued (a ++ b) = (codes_issued a + codes_issued b)%nat.
Proof. unfold codes_issued. now rewrite filter_app, length_app. Qed.

Lemma quiet_no_code t : Forall quiet_event t -> codes_issued t = 0%nat.
Proof.
  unfold codes_issued. induction 1 as [|e t He _ IH]; [reflexivity|].
  cbn. unfold quiet_event, coordinator_only in He.
  destruct (is_code e); [discriminate | exact IH].
Qed.

Lemma quiet_no_reset t : Forall quiet_event t -> existsb is_reset t = false.
Proof.
  induction 1 as [|e t He _ IH]; [reflexivity|].
  cbn. unfold quiet_event, coordinator_only in He.
  destruct (is_code e), (is_reset e); try discriminate. exact IH.
Qed.

Lemma quiet_count (p : event -> bool) t :
  (forall e, p e = true -> coordinator_only e = true) ->
  Forall quiet_event t -> filter p t = [].
Proof.
  intros Hp. induction 1 as [|e t He _ IH]; [reflexivity|].
  cbn. destruct (p e) eqn:E; [|exact IH].
  apply Hp in E. unfold quiet_event in He. congruence.
Qed.

Lemma codes_since_reset_rev_app a b :
  codes_since_reset_rev (a ++ b)
  = if existsb is_reset a then codes_since_reset_rev a
    else (codes_issued a + codes_since_reset_rev b)%nat.
Proof.
  induction a as [|e a IH]; [reflexivity|].
  cbn [app codes_since_reset_rev existsb].
  destruct (is_reset e) eqn:Er; [reflexivity|]. cbn [orb].
  unfold codes_issued in *. cbn [filter].
  destruct (is_code e); rewrite IH; destruct (existsb is_reset a); reflexivity.
Qed.

Lemma existsb_rev {A} (p : A -> bool) l : existsb p (rev l) = existsb p l.
Proof.
  induction l as [|x l IH]; [reflexivity|].
  cbn. rewrite existsb_app, IH. cbn. rewrite orb_false_r. apply orb_comm.
Qed.

Lemma codes_issued_rev t : codes_issued (rev t) = codes_issued t.
Proof.
  unfold codes_issued. induction t as [|e t IH]; [reflexivity|].
  cbn [rev]. rewrite filter_app, length_app, IH. cbn. destruct (is_code e); cbn; lia.
Qed.

Lemma codes_since_reset_rev_no_reset a :
  existsb is_reset a = false -> codes_since_reset_rev a = codes_issued a.
Proof.
  induction a as [|e a IH]; [reflexivity|].
  cbn [existsb codes_since_reset_rev]. unfold codes_issued in *. cbn [filter].
  destruct (is_reset e); [discriminate|]. cbn [orb]. intro H.
  destruct (is_code e); cbn; rewrite IH by assumption; reflexivity.
Qed.

(** The codes on the current data center after a further stretch of the
    trace: counted afresh when the stretch holds a reset. *)
Lemma codes_on_current_dc_app a b :
  codes_on_current_dc (a ++ b)
  = if existsb is_reset b then codes_on_current_dc b
    else (codes_on_current_dc a + codes_issued b)%nat.
Proof.
  unfold codes_on_current_dc. rewrite rev_app_distr, codes_since_reset_rev_app.
  rewrite existsb_rev, codes_issued_rev. destruct (existsb is_reset b); lia.
Qed.

Lemma codes_on_current_dc_after_reset b :
  existsb is_reset b = false ->
  codes_on_current_dc
    (Log INFO [Str "DC migration detected, resetting QR code counter"] :: b)
  = codes_issued b.
Proof.
  intro H.
  change (Log INFO [Str "DC migration detected, resetting QR code counter"] :: b)
    with ([Log INFO [Str "DC migration detected, resetting QR code counter"]] ++ b)%list.
  rewrite codes_on_current_dc_app, H. reflexivity.
Qed.
End QrTraces.

Section QrPasses.
Import QrAuth.
Local Open Scope list_scope.


Lemma settled_tasks_keeps w w' :
  handler_keeps w w' -> settled_tasks w -> settled_tasks w'.
Proof. unfold settled_tasks. intros (E & _) H. now rewrite E. Qed.

(** The wait for a migration: no code, no reset; the loop goes on only
    with [DC_MIGRATED] set. *)
Lemma grace_facts ie l w :
  exists c w' t,
    grace ie l w = (Returns c, w', t)
    /\ locals_of c = l
    /\ existsb is_reset t = false
    /\ codes_issued t = 0%nat
    /\ (forall l', c = Continue l' -> DC_MIGRATED w' = true)
    /\ handler_keeps w w'.
Proof.
  rewrite grace_run.
  pose proof (deliver_quiet (on_grace ie) w) as Hq.
  pose proof (deliver_keeps (on_grace ie) w) as Hk.
  do 3 eexists. split; [reflexivity|].
  destruct (DC_MIGRATED (world_of (deliver (on_grace ie) w))) eqn:Hdm.
  - conjs; auto.
    + cbn [existsb is_reset orb]. rewrite existsb_app, (quiet_no_reset _ Hq). reflexivity.
    + change (?a :: ?b :: ?t ++ []) with ([a; b] ++ t ++ []).
      rewrite !codes_issued_app, (quiet_no_code _ Hq). reflexivity.
  - conjs; auto; try discriminate.
    + cbn [existsb is_reset orb]. rewrite existsb_app, (quiet_no_reset _ Hq). reflexivity.
    + change (?a :: ?b :: ?t ++ ?u) with ([a; b] ++ t ++ u).
      rewrite !codes_issued_app, (quiet_no_code _ Hq). reflexivity.
Qed.

Lemma race_facts ie l w :
  exists c w' t,
    race ie l w = (Returns c, w', t)
    /\ locals_of c = l
    /\ existsb is_reset t = false
    /\ codes_issued t = 0%nat
    /\ (settled_tasks w -> settled_tasks w').
Proof.
  rewrite race_spec.
  pose proof (deliver_quiet (on_race ie) (racing w)) as Hq.
  do 3 eexists. split; [reflexivity|].
  set (w1 := world_of (deliver (on_race ie) (racing w))).
  conjs.
  - destruct (SESSION_CREATED w1); reflexivity.
  - cbn [existsb is_reset orb]. rewrite !existsb_app, (quiet_no_reset _ Hq).
    destruct (SESSION_CREATED w1), (DC_MIGRATED w1), (timer_done ie); reflexivity.
  - change (?a :: ?t ++ ?u) with ([a] ++ t ++ u).
    rewrite !codes_issued_app, (quiet_no_code _ Hq).
    destruct (SESSION_CREATED w1), (DC_MIGRATED w1), (timer_done ie); reflexivity.
  - unfold settled_tasks. cbn [tasks]. intro H. apply Forall_app. split; [exact H|].
    destruct (SESSION_CREATED w1), (DC_MIGRATED w1), (timer_done ie);
      repeat constructor.
Qed.

Lemma issue_facts ie l w :
  exists c w' t,
    issue ie l w = (Returns c, w', t)
    /\ locals_of c = l
    /\ existsb is_reset t = false
    /\ (codes_issued t <= 1)%nat
    /\ (settled_tasks w -> settled_tasks w').
Proof.
  rewrite issue_run.
  pose proof (deliver_quiet (on_request ie) w) as Hq.
  pose proof (deliver_keeps (on_request ie) w) as Hk.
  set (w1 := world_of (deliver (on_request ie) w)) in *.
  pose proof (deliver_quiet (on_backoff ie) w1) as Hqb.
  pose proof (deliver_keeps (on_backoff ie) w1) as Hkb.
  destruct (token_request ie) as [[token|dc| |name]|ex].
  - destruct (race_facts ie l w1) as (c & w' & t & E & Hl & Hr & Hc & Ht).
    rewrite E. cbn [result_of world_of trace_of fst snd].
    do 3 eexists. split; [reflexivity|]. conjs; auto.
    + cbn [existsb is_reset orb]. rewrite existsb_app, (quiet_no_reset _ Hq).
      cbn [existsb is_reset orb]. exact Hr.
    + change (?a :: ?t1 ++ ?b :: ?c :: ?t2) with ([a] ++ t1 ++ [b; c] ++ t2).
      rewrite !codes_issued_app, (quiet_no_code _ Hq), Hc. cbn. lia.
    + intro H. apply Ht. eapply settled_tasks_keeps; eauto.
  - do 3 eexists. split; [reflexivity|]. conjs; auto.
    + cbn [existsb is_reset orb]. rewrite existsb_app, (quiet_no_reset _ Hq).
      cbn [existsb is_reset orb]. apply (quiet_no_reset _ Hqb).
    + change (?a :: ?t1 ++ ?b :: ?c :: ?t2) with ([a] ++ t1 ++ [b; c] ++ t2).
      rewrite !codes_issued_app, (quiet_no_code _ Hq), (quiet_no_code _ Hqb). cbn. lia.
    + intro H. eapply settled_tasks_keeps; [exact Hkb|]. eapply settled_tasks_keeps; eauto.
  - do 3 eexists. split; [reflexivity|]. conjs; auto.
    + cbn [existsb is_reset orb]. rewrite existsb_app, (quiet_no_reset _ Hq).
      cbn [existsb is_reset orb]. apply (quiet_no_reset _ Hqb).
    + change (?a :: ?t1 ++ ?b :: ?c :: ?t2) with ([a] ++ t1 ++ [b; c] ++ t2).
      rewrite !codes_issued_app, (quiet_no_code _ Hq), (quiet_no_code _ Hqb). cbn. lia.
    + intro H. eapply settled_tasks_keeps; [exact Hkb|]. eapply settled_tasks_keeps; eauto.
  - do 3 eexists. split; [reflexivity|]. conjs; auto.
    + cbn [existsb is_reset orb]. rewrite existsb_app, (quiet_no_reset _ Hq).
      cbn [existsb is_reset orb]. apply (quiet_no_reset _ Hqb).
    + change (?a :: ?t1 ++ ?b :: ?c :: ?t2) with ([a] ++ t1 ++ [b; c] ++ t2).
      rewrite !codes_issued_app, (quiet_no_code _ Hq), (quiet_no_code _ Hqb). cbn. lia.
    + intro H. eapply settled_tasks_keeps; [exact Hkb|]. eapply settled_tasks_keeps; eauto.
  - do 3 eexists. split; [reflexivity|]. conjs; auto.
    + cbn [existsb is_reset orb]. rewrite !existsb_app, (quiet_no_reset _ Hq), (quiet_no_reset _ Hqb).
      destruct (is_FloodWait ex); [|destruct (is_RPCError ex)]; reflexivity.
    + change (?a :: ?t1) with ([a] ++ t1).
      rewrite !codes_issued_app, (quiet_no_code _ Hq), (quiet_no_code _ Hqb).
      destruct (is_FloodWait ex); [|destruct (is_RPCError ex)]; cbn; lia.
    + intro H. eapply settled_tasks_keeps; [exact Hkb|]. eapply settled_tasks_keeps; eauto.
Qed.

(** One pass: it ends, counts itself, resets at most at its start, and
    renders at most one code. *)
Lemma pass_facts ie l w :
  exists c w' body,
    loop_body ie l w
    = (Returns c, w',
       (if DC_MIGRATED w
        then [Log INFO [Str "DC migration detected, resetting QR code counter"]]
        else []) ++ body)
    /\ qr_counter (locals_of c) = (if DC_MIGRATED w then 0 else qr_counter l) + 1
    /\ existsb is_reset body = false
    /\ (codes_issued body <= 1)%nat
    /\ (forall l', c = Continue l' -> (MAX_QR_CODES <? qr_counter l') = true ->
                   DC_MIGRATED w' = true)
    /\ (settled_tasks w -> settled_tasks w').
Proof.
  rewrite loop_body_run.
  pose proof (deliver_quiet (on_settle ie) w) as Hq.
  pose proof (deliver_keeps (on_settle ie) w) as Hk.
  destruct (DC_MIGRATED w) eqn:Hdm; cbn [qr_counter dc_migrated_flag].
  - change (MAX_QR_CODES <? 0 + 1) with false. cbv iota.
    set (w1 := set_DC_MIGRATED false (world_of (deliver (on_settle ie) w))).
    set (l1 := {| qr_counter := 0 + 1; dc_migrated_flag := true |}).
    destruct (announce_run l1 w1) as [_ Ha].
    destruct (issue_facts ie {| qr_counter := 0 + 1; dc_migrated_flag := false |} w1)
      as (c & w' & t & E & Hl & Hr & Hc & Ht).
    rewrite E. cbn [result_of world_of trace_of fst snd].
    exists c, w', (Sleep 2 :: trace_of (deliver (on_settle ie) w)
                   ++ trace_of (announce l1 w1) ++ t).
    conjs.
    + reflexivity.
    + rewrite Hl. reflexivity.
    + cbn [existsb is_reset orb]. rewrite !existsb_app.
      rewrite (quiet_no_reset _ Hq), (quiet_no_reset _ Ha), Hr. reflexivity.
    + change (?a :: ?t1) with ([a] ++ t1).
      rewrite !codes_issued_app, (quiet_no_code _ Hq), (quiet_no_code _ Ha). cbn. lia.
    + intros l' -> H. cbn in Hl. subst l'. discriminate H.
    + intro H. apply Ht. unfold settled_tasks, w1. cbn [tasks set_DC_MIGRATED].
      apply (settled_tasks_keeps _ _ Hk H).
  - set (l1 := {| qr_counter := qr_counter l + 1; dc_migrated_flag := dc_migrated_flag l |}).
    destruct (MAX_QR_CODES <? qr_counter l + 1) eqn:Hmax.
    + destruct (grace_facts ie l1 w) as (c & w' & t & E & Hl & Hr & Hc & Hcont & Hkeep).
      rewrite E. cbn [result_of world_of trace_of fst snd].
      exists c, w', t. conjs; auto.
      * rewrite Hl. reflexivity.
      * rewrite Hc. lia.
      * intros l' Hc' _. eauto.
      * apply settled_tasks_keeps; assumption.
    + destruct (announce_run l1 w) as [_ Ha].
      destruct (issue_facts ie {| qr_counter := qr_counter l + 1; dc_migrated_flag := false |} w)
        as (c & w' & t & E & Hl & Hr & Hc & Ht).
      rewrite E. cbn [result_of world_of trace_of fst snd].
      exists c, w', (trace_of (announce l1 w) ++ t). conjs; auto.
      * rewrite Hl. reflexivity.
      * rewrite existsb_app, (quiet_no_reset _ Ha), Hr. reflexivity.
      * rewrite codes_issued_app, (quiet_no_code _ Ha). lia.
      * intros l' -> H. cbn in Hl. subst l'. cbn in H. congruence.
Qed.

Lemma passes_cons ie rest l w c w1 t1 :
  SESSION_CREATED w = false ->
  loop_body ie l w = (Returns c, w1, t1) ->
  passes (ie :: rest) l w
  = match c with
    | Continue l' =>
        (result_of (passes rest l' w1), world_of (passes rest l' w1),
         t1 ++ trace_of (passes rest l' w1))
    | Return x l' => (Returns (Return x l'), w1, t1)
    end.
Proof.
  intros Hs E. cbn [passes]. unfold bind at 1, get. rewrite Hs.
  unfold bind. rewrite E. destruct c as [l'|x l'].
  - destruct (passes rest l' w1) as [[r w2] t2]. reflexivity.
  - cbn. now rewrite app_nil_r.
Qed.

Lemma create_qrcodes_from_cons ie rest l w c w1 t1 :
  SESSION_CREATED w = false ->
  loop_body ie l w = (Returns c, w1, t1) ->
  create_qrcodes_from (ie :: rest) l w
  = match c with
    | Continue l' =>
        (result_of (create_qrcodes_from rest l' w1),
         world_of (create_qrcodes_from rest l' w1),
         t1 ++ trace_of (create_qrcodes_from rest l' w1))
    | Return x _ => (Returns x, w1, t1)
    end.
Proof.
  intros Hs E. cbn [create_qrcodes_from]. unfold bind at 1, get. rewrite Hs.
  unfold bind. rewrite E. destruct c as [l'|x l'].
  - destruct (create_qrcodes_from rest l' w1) as [[r w2] t2]. reflexivity.
  - cbn. now rewrite app_nil_r.
Qed.

Lemma create_qrcodes_from_test l w script :
  SESSION_CREATED w = true ->
  create_qrcodes_from script l w = (Returns WhileTestFalse, w, []).
Proof. intro H. destruct script; cbn; unfold bind, get; rewrite H; reflexivity. Qed.

(** A run over [s ++ s'] is the passes of [s], then the run over [s']
    from the head of the loop they reach. *)
Lemma create_qrcodes_from_app s s' : forall l w l1 w1 t1,
  passes s l w = (Returns (Continue l1), w1, t1) ->
  create_qrcodes_from (s ++ s') l w
  = (result_of (create_qrcodes_from s' l1 w1),
     world_of (create_qrcodes_from s' l1 w1),
     t1 ++ trace_of (create_qrcodes_from s' l1 w1)).
Proof.
  induction s as [|ie s IH]; intros l w l1 w1 t1 H.
  - cbn in H. injection H as H1 H2 H3. subst l1 w1 t1. cbn [app].
    destruct (create_qrcodes_from s' l w) as [[r w2] t2]. reflexivity.
  - destruct (SESSION_CREATED w) eqn:Hs.
    { cbn [passes] in H. unfold bind, get in H. rewrite Hs in H. discriminate H. }
    destruct (pass_facts ie l w) as (c & w2 & body & E & _).
    rewrite (passes_cons _ _ _ _ _ _ _ Hs E) in H.
    cbn [app]. rewrite (create_qrcodes_from_cons _ _ _ _ _ _ _ Hs E).
    destruct c as [l'|x l']; [|discriminate H].
    destruct (passes s l' w2) as [[r w3] t3] eqn:Ep.
    cbn [result_of world_of trace_of fst snd] in H. injection H as H1 H2 H3.
    subst r w3 t1.
    rewrite (IH _ _ _ _ _ Ep). cbn [result_of world_of trace_of fst snd].
    now rewrite app_assoc.
Qed.

(** The loop invariant: at the head of the loop the counter is at least
    the number of codes rendered since the last reset, and it is above
    [MAX_QR_CODES] only when a migration has just been signalled. *)
Lemma passes_invariant s : forall l w t0 l' w' t,
  (Z.of_nat (codes_on_current_dc t0) <= qr_counter l) ->
  (qr_counter l <= MAX_QR_CODES \/ DC_MIGRATED w = true) ->
  passes s l w = (Returns (Continue l'), w', t) ->
  Z.of_nat (codes_on_current_dc (t0 ++ t)) <= qr_counter l'
  /\ (qr_counter l' <= MAX_QR_CODES \/ DC_MIGRATED w' = true).
Proof.
  induction s as [|ie s IH]; intros l w t0 l' w' t Hc Hm H.
  - cbn in H. injection H as H1 H2 H3. subst l' w' t. rewrite app_nil_r. auto.
  - destruct (SESSION_CREATED w) eqn:Hs.
    { cbn [passes] in H. unfold bind, get in H. rewrite Hs in H. discriminate H. }
    destruct (pass_facts ie l w) as (c & w2 & body & E & Hn & Hr & Hcode & Hgo & _).
    rewrite (passes_cons _ _ _ _ _ _ _ Hs E) in H.
    destruct c as [l2|x l2]; [|discriminate H].
    destruct (passes s l2 w2) as [[r w3] t3] eqn:Ep.
    cbn [result_of world_of trace_of fst snd] in H. injection H as H1 H2 H3.
    subst r w3 t.
    rewrite app_assoc. eapply IH; [| |exact Ep].
    + cbn [locals_of] in Hn. rewrite Hn.
      destruct (DC_MIGRATED w).
      * rewrite codes_on_current_dc_app. cbn [app existsb is_reset].
        cbn [String.eqb Ascii.eqb Bool.eqb andb orb].
        rewrite codes_on_current_dc_after_reset by assumption. lia.
      * cbn [app]. rewrite codes_on_current_dc_app, Hr. lia.
    + destruct (MAX_QR_CODES <? qr_counter l2) eqn:Hlt.
      * right. eapply Hgo; eauto.
      * left. apply Z.ltb_ge in Hlt. exact Hlt.
Qed.
End QrPasses.

Section QrHandler.
Import QrAuth.
Local Open Scope list_scope.

(** The 2FA check that fails on the secret or on a rate limit. *)
Lemma handle_2fa_rejected e pw ex w :
  password e = Gives pw ->
  check_password e = Throws ex ->
  is_PasswordHashInvalid ex = true \/ is_FloodWait ex = true ->
  handle_2fa e w
  = (Returns false, w,
     [Log INFO [Str "Two-factor authentication required"];
      GetPass "Enter your 2FA password: ";
      Call (CheckPassword pw);
      Log ERROR (if is_PasswordHashInvalid ex
                 then [Str "Invalid 2FA password"]
                 else [Str "Too many attempts. Please wait "; Num (exn_value ex);
                       Str " seconds"])]).
Proof.
  intros Hp H Hex. unfold handle_2fa. run. rewrite Hp. run. rewrite H. run.
  destruct (is_PasswordHashInvalid ex) eqn:Ep; run; [reflexivity|].
  destruct Hex as [Hex|Hex]; [discriminate|]. rewrite Hex. reflexivity.
Qed.

(** A failed 2FA check ends the handler run and leaves the world as it
    was. *)
Lemma handler_2fa_rejected e w v s pw ex :
  export_token e = Throws (RPCError SessionPasswordNeeded v s) ->
  password (twofa e) = Gives pw ->
  check_password (twofa e) = Throws ex ->
  is_PasswordHashInvalid ex = true \/ is_FloodWait ex = true ->
  raw_update_handler e UpdateLoginToken w
  = (Returns tt, w,
     [Log INFO [Str "QR code was scanned! Processing login..."];
      Call ExportLoginToken;
      Log INFO [Str "Two-factor authentication required"];
      GetPass "Enter your 2FA password: ";
      Call (CheckPassword pw);
      Log ERROR (if is_PasswordHashInvalid ex
                 then [Str "Invalid 2FA password"]
                 else [Str "Too many attempts. Please wait "; Num (exn_value ex);
                       Str " seconds"])]).
Proof.
  intros He Hp Hc Hex. unfold raw_update_handler. run.
  destruct (nearest_dc w); cbn [andb]; run; rewrite He; run;
    cbn [is_SessionPasswordNeeded]; rewrite (handle_2fa_rejected _ _ _ _ Hp Hc Hex);
    reflexivity.
Qed.

(** [check_session] ends with a truth value. *)
Lemma check_session_returns e dc w :
  exists ok, result_of (check_session e dc w) = Returns ok.
Proof.
  unfold check_session. run.
  destruct (has_session (cl w) && is_connected (cl w)); run.
  - destruct (session_stop e); run; [|eexists; reflexivity].
    destruct (auth_create e); run; [|eexists; reflexivity].
    destruct (session_start e); run; eexists; reflexivity.
  - destruct (auth_create e); run; [|eexists; reflexivity].
    destruct (session_start e); run; eexists; reflexivity.
Qed.

(** Where [check_session] leaves the stored data center: at [dc] once the
    old session is stopped, however the rest goes; where it was when
    stopping the old session fails. *)
Lemma check_session_storage e dc w :
  storage_dc_id (cl (world_of (check_session e dc w)))
  = if has_session (cl w) && is_connected (cl w)
    then match session_stop e with
         | Gives _ => dc
         | Throws _ => storage_dc_id (cl w)
         end
    else dc.
Proof.
  unfold check_session. run.
  destruct (has_session (cl w) && is_connected (cl w)); run.
  - destruct (session_stop e); run; [|reflexivity].
    destruct (auth_create e); run; [|reflexivity].
    destruct (session_start e); run; reflexivity.
  - destruct (auth_create e); run; [|reflexivity].
    destruct (session_start e); run; reflexivity.
Qed.

Lemma check_session_flags e dc w :
  SESSION_CREATED (world_of (check_session e dc w)) = SESSION_CREATED w
  /\ DC_MIGRATED (world_of (check_session e dc w)) = DC_MIGRATED w.
Proof.
  unfold check_session. run.
  destruct (has_session (cl w) && is_connected (cl w)); run.
  - destruct (session_stop e); run; [|split; reflexivity].
    destruct (auth_create e); run; [|split; reflexivity].
    destruct (session_start e); run; split; reflexivity.
  - destruct (auth_create e); run; [|split; reflexivity].
    destruct (session_start e); run; split; reflexivity.
Qed.

(** A migration answer: [DC_MIGRATED] is set whatever [check_session]
    returns. *)
Lemma handler_migrate e w dc :
  export_token e = Gives (LoginTokenMigrateTo dc) ->
  let r := raw_update_handler e UpdateLoginToken w in
  result_of r = Returns tt
  /\ world_of r = set_DC_MIGRATED true (world_of (check_session (switch e) dc w)).
Proof.
  intros He. unfold raw_update_handler. run.
  destruct (nearest_dc w); cbn [andb]; run; rewrite He; run;
    destruct (check_session_returns (switch e) dc w) as [ok Hok];
    unfold result_of, world_of in *;
    destruct (check_session (switch e) dc w) as [[r1 w1] t1]; cbn in Hok; subst r1;
    destruct ok; split; reflexivity.
Qed.

(** A confirmation whose finalization succeeds. *)
Lemma handler_success e w me s :
  export_token e = Gives LoginTokenSuccess ->
  get_me e = Gives me ->
  export_session_string e = Gives s ->
  raw_update_handler e UpdateLoginToken w
  = (Returns tt, set_SESSION_CREATED true w,
     [Log INFO [Str "QR code was scanned! Processing login..."];
      Call ExportLoginToken;
      Log INFO [Str "Authentication successful!"];
      Call GetMe;
      Log INFO [Str "User information:"; Str nl; Obj me];
      Call ExportSessionString;
      Print [Str nl; Str "Session string for future use (save this securely):";
             Str nl; Str s; Str nl]]).
Proof.
  intros He Hm Hs. unfold raw_update_handler. run.
  destruct (nearest_dc w); cbn [andb]; run; rewrite He; run; rewrite Hm; run;
    rewrite Hs; reflexivity.
Qed.
End QrHandler.

(** ** The claims about the coordinator *)

Section QrExamples.
Import QrAuth.
Local Open Scope list_scope.

(** The scenario of the specification: three codes nobody scans, then the
  wait for a migration, and the run gives up. *)
Example three_codes_then_give_up :
create_qrcodes
  [Scenarios.expiring; Scenarios.expiring; Scenarios.expiring; Scenarios.expiring]
  Scenarios.w0
= (Returns ReturnMaxCodes,
   add_tasks
     [ {| kind := Wait_SESSION_CREATED; state := Cancelled |};
       {| kind := Timer 30; state := Done |};
       {| kind := Wait_DC_MIGRATED; state := Cancelled |};
       {| kind := Wait_SESSION_CREATED; state := Cancelled |};
       {| kind := Timer 30; state := Done |};
       {| kind := Wait_DC_MIGRATED; state := Cancelled |};
       {| kind := Wait_SESSION_CREATED; state := Cancelled |};
       {| kind := Timer 30; state := Done |};
       {| kind := Wait_DC_MIGRATED; state := Cancelled |} ]
     Scenarios.w0,
   [ Print [Str nl; Str "Scan this QR code in the Telegram app:"];
     Print [Str "Settings > Devices > Link Desktop Device"; Str nl];
     Call ExportLoginToken;
     Log INFO [Str "Generated QR code #"; Num 1; Str "/"; Num 3;
               Str " (expires in "; Num 30; Str " seconds)"];
     PrintAsciiQR ["tg://login?token=AQID"];
     WaitFirst [Wait_SESSION_CREATED; Timer 30; Wait_DC_MIGRATED];
     Cancel Wait_SESSION_CREATED; Cancel Wait_DC_MIGRATED;
     Log INFO [Str "QR code #"; Num 1; Str " expired after "; Num 30; Str " seconds"];
     Print [Str nl; Str "QR code expired. Generating new QR code ("; Num 2; Str "/";
            Num 3; Str "):"; Str nl];
     Call ExportLoginToken;
     Log INFO [Str "Generated QR code #"; Num 2; Str "/"; Num 3;
               Str " (expires in "; Num 30; Str " seconds)"];
     PrintAsciiQR ["tg://login?token=AQID"];
     WaitFirst [Wait_SESSION_CREATED; Timer 30; Wait_DC_MIGRATED];
     Cancel Wait_SESSION_CREATED; Cancel Wait_DC_MIGRATED;
     Log INFO [Str "QR code #"; Num 2; Str " expired after "; Num 30; Str " seconds"];
     Print [Str nl; Str "QR code expired. Generating new QR code ("; Num 3; Str "/";
            Num 3; Str "):"; Str nl];
     Call ExportLoginToken;
     Log INFO [Str "Generated QR code #"; Num 3; Str "/"; Num 3;
               Str " (expires in "; Num 30; Str " seconds)"];
     PrintAsciiQR ["tg://login?token=AQID"];
     WaitFirst [Wait_SESSION_CREATED; Timer 30; Wait_DC_MIGRATED];
     Cancel Wait_SESSION_CREATED; Cancel Wait_DC_MIGRATED;
     Log INFO [Str "QR code #"; Num 3; Str " expired after "; Num 30; Str " seconds"];
     Print [Str nl; Str "Maximum number of QR codes ("; Num 3;
            Str ") for this DC generated without success."];
     WaitFor Wait_DC_MIGRATED 10;
     Print [Str "Please try again later."] ]).
Proof. reflexivity. Qed.

(** A code answered by a migration to data center 4 whose switch succeeds:
  the counter is reset and the next code is announced as the one after
  the migration. *)
Example migration_then_new_code :
let r := create_qrcodes [Scenarios.migrating Scenarios.switch_ok; Scenarios.expiring]
           Scenarios.w0 in
result_of r = Unfinished
/\ storage_dc_id (cl (world_of r)) = 4
/\ session_dc (cl (world_of r)) = Some 4
/\ codes_issued (trace_of r) = 2%nat
/\ codes_on_current_dc (trace_of r) = 1%nat
/\ filter is_print (trace_of r)
   = [ Print [Str nl; Str "Scan this QR code in the Telegram app:"];
       Print [Str "Settings > Devices > Link Desktop Device"; Str nl];
       Print [Str nl; Str "Migrating to DC "; Num 4;
              Str ". A new QR code will be generated soon..."];
       Print [Str nl; Str "Here's a new QR code after DC migration. Please scan it:"] ].
Proof. cbv zeta. conjs; reflexivity. Qed.
End QrExamples.

Section QrClaims.
Import QrAuth.
Local Open Scope list_scope.

(** C1.  Take any run of [create_qrcodes] and any point where it is back
    at the head of its loop with [MAX_QR_CODES] (3) codes rendered on the
    current data center and neither event set.  Whatever the script goes
    on with, if no migration is signalled during the wait of the next
    pass, the run ends there by the [return] after "Please try again
    later.": the pass holds exactly one wait of 10 seconds for
    [DC_MIGRATED], the run requests no token and renders no code in it,
    and it renders none afterwards. *)
Theorem exhausted_after_max_codes
    (w0 : world) (s : list iter_env) (ie : iter_env) (rest : list iter_env)
    (l : locals) (w : world) (t : trace) :
  passes s initial_locals w0 = (Returns (Continue l), w, t) ->
  Z.of_nat (codes_on_current_dc t) = MAX_QR_CODES ->
  SESSION_CREATED w = false ->
  DC_MIGRATED w = false ->
  DC_MIGRATED (world_of (deliver (on_grace ie) w)) = false ->
  let t' :=
    Print [Str nl; Str "Maximum number of QR codes ("; Num MAX_QR_CODES;
           Str ") for this DC generated without success."]
    :: WaitFor Wait_DC_MIGRATED 10
    :: trace_of (deliver (on_grace ie) w)
    ++ [Print [Str "Please try again later."]] in
  create_qrcodes (s ++ ie :: rest) w0
  = (Returns ReturnMaxCodes, world_of (deliver (on_grace ie) w), t ++ t')
  /\ filter is_grace_wait t' = [WaitFor Wait_DC_MIGRATED 10]
  /\ filter (is_call ExportLoginToken) t'
     = filter (is_call ExportLoginToken) (trace_of (deliver (on_grace ie) w))
  /\ codes_issued t' = 0%nat
  /\ codes_issued (t ++ t') = codes_issued t.
Proof.
  intros Hp Hcodes Hs Hm Hg t'.
  assert (Hl : qr_counter l = MAX_QR_CODES).
  { destruct (passes_invariant s initial_locals w0 [] l w t) as [H1 H2];
      [cbn; lia | left; cbn; unfold MAX_QR_CODES; lia | exact Hp |].
    cbn [app] in H1. destruct H2 as [H2|H2]; [lia | congruence]. }
  pose proof (deliver_quiet (on_grace ie) w) as Hq.
  assert (E : loop_body ie l w
              = (Returns (Return ReturnMaxCodes
                            {| qr_counter := qr_counter l + 1;
                               dc_migrated_flag := dc_migrated_flag l |}),
                 world_of (deliver (on_grace ie) w), t')).
  { rewrite loop_body_run, Hm. cbn [qr_counter dc_migrated_flag].
    rewrite Hl. change (MAX_QR_CODES <? MAX_QR_CODES + 1) with true. cbv iota.
    rewrite grace_run, Hg. reflexivity. }
  conjs.
  - unfold create_qrcodes. rewrite (create_qrcodes_from_app _ _ _ _ _ _ _ Hp).
    rewrite (create_qrcodes_from_cons _ _ _ _ _ _ _ Hs E). reflexivity.
  - subst t'. cbn [filter is_grace_wait]. rewrite filter_app.
    rewrite (quiet_count is_grace_wait _) by
      (try exact Hq; intros e He; destruct e as [| | | | |[]| | | |]; cbn in *; congruence).
    reflexivity.
  - subst t'. cbn [filter is_call]. rewrite filter_app. cbn. now rewrite app_nil_r.
  - subst t'. change (?a :: ?b :: ?u ++ ?v) with ([a; b] ++ u ++ v).
    rewrite !codes_issued_app, (quiet_no_code _ Hq). reflexivity.
  - rewrite codes_issued_app. subst t'.
    change (?a :: ?b :: ?u ++ ?v) with ([a; b] ++ u ++ v).
    rewrite !codes_issued_app, (quiet_no_code _ Hq). cbn. lia.
Qed.

(** Three codes nobody scans, then the wait: the run of the scenario. *)
Lemma exhausted_after_max_codes_witness :
  result_of (create_qrcodes
               ([Scenarios.expiring; Scenarios.expiring; Scenarios.expiring]
                ++ Scenarios.expiring :: []) Scenarios.w0)
  = Returns ReturnMaxCodes
  /\ codes_issued (trace_of (create_qrcodes
               ([Scenarios.expiring; Scenarios.expiring; Scenarios.expiring]
                ++ Scenarios.expiring :: []) Scenarios.w0)) = 3%nat.
Proof.
  pose proof (exhausted_after_max_codes Scenarios.w0
                [Scenarios.expiring; Scenarios.expiring; Scenarios.expiring]
                Scenarios.expiring []
                {| qr_counter := 3; dc_migrated_flag := false |}
                (world_of (passes [Scenarios.expiring; Scenarios.expiring; Scenarios.expiring]
                             initial_locals Scenarios.w0))
                (trace_of (passes [Scenarios.expiring; Scenarios.expiring; Scenarios.expiring]
                             initial_locals Scenarios.w0))
                eq_refl eq_refl eq_refl eq_refl eq_refl) as H.
  cbv zeta in H. destruct H as (E & _ & _ & _ & Hc).
  rewrite E. split; [reflexivity|].
  cbn [trace_of snd]. rewrite Hc. reflexivity.
Defined.
End QrClaims.

Section QrClaims2.
Import QrAuth.
Local Open Scope list_scope.

(** C4, as stated, fails at the third expiry.  After three codes nobody
    scanned the loop is at its head with the counter at 3 and no event
    set, the last record being the expiry of code 3; the pass that
    follows renders no code: it raises the counter to 4, waits for a
    migration and returns. *)
Lemma third_expiry_issues_no_code :
  let three := passes [Scenarios.expiring; Scenarios.expiring; Scenarios.expiring]
                 initial_locals Scenarios.w0 in
  let next := loop_body Scenarios.expiring
                {| qr_counter := 3; dc_migrated_flag := false |} (world_of three) in
  result_of three = Returns (Continue {| qr_counter := 3; dc_migrated_flag := false |})
  /\ SESSION_CREATED (world_of three) = false
  /\ DC_MIGRATED (world_of three) = false
  /\ last (trace_of three) (Sleep 0)
     = Log INFO [Str "QR code #"; Num 3; Str " expired after "; Num 30; Str " seconds"]
  /\ codes_issued (trace_of next) = 0%nat
  /\ result_of next
     = Returns (Return ReturnMaxCodes {| qr_counter := 4; dc_migrated_flag := false |}).
Proof. cbv zeta. conjs; reflexivity. Qed.

(** C4, amended.  A pass entered with no migration signalled, as after
    the expiry of a timer, raises the counter by exactly 1, whatever
    happens in it.  When its token request is answered by a token, it
    renders exactly one code, the one of that token, if the counter was
    below [MAX_QR_CODES], and none if the counter had reached it.  When
    moreover the counter was below [MAX_QR_CODES], no event is set and the
    updates handled during the pass leave the world as it is, the pass
    ends by the expiry of the timer, the loop goes on, and the client,
    with its stored data center, is as before. *)
Theorem timer_expiry_issues_one_code (ie : iter_env) (l : locals) (w : world) :
  DC_MIGRATED w = false ->
  let r := loop_body ie l w in
  let l' := {| qr_counter := qr_counter l + 1; dc_migrated_flag := false |} in
  (exists c, result_of r = Returns c /\ qr_counter (locals_of c) = qr_counter l + 1)
  /\ (forall token, token_request ie = Gives (LoginToken token) ->
      filter is_code (trace_of r)
      = if qr_counter l <? MAX_QR_CODES then [PrintAsciiQR [login_url token]] else [])
  /\ (forall token, token_request ie = Gives (LoginToken token) ->
      qr_counter l < MAX_QR_CODES ->
      SESSION_CREATED w = false -> silent (on_request ie) -> silent (on_race ie) ->
      result_of r = Returns (Continue l')
      /\ cl (world_of r) = cl w
      /\ SESSION_CREATED (world_of r) = false
      /\ DC_MIGRATED (world_of r) = false
      /\ last (trace_of r) (Sleep 0)
         = Log INFO [Str "QR code #"; Num (qr_counter l'); Str " expired after ";
                     Num QR_TIMEOUT; Str " seconds"]).
Proof.
  intros Hm r l'.
  assert (Hcount : exists c, result_of r = Returns c
                             /\ qr_counter (locals_of c) = qr_counter l + 1).
  { destruct (pass_facts ie l w) as (c & w' & body & E & Hn & _).
    exists c. subst r. rewrite E. rewrite Hm in Hn. split; [reflexivity | exact Hn]. }
  set (l1 := {| qr_counter := qr_counter l + 1; dc_migrated_flag := dc_migrated_flag l |}).
  set (w1 := world_of (deliver (on_request ie) w)).
  set (w2 := world_of (deliver (on_race ie) (racing w1))).
  pose proof (deliver_quiet (on_request ie) w) as Hq1.
  pose proof (deliver_quiet (on_race ie) (racing w1)) as Hq2.
  pose proof (deliver_quiet (on_grace ie) w) as Hqg.
  destruct (announce_run l1 w) as [_ Ha].
  assert (E : forall token, token_request ie = Gives (LoginToken token) ->
              qr_counter l < MAX_QR_CODES ->
              r = (Returns (if SESSION_CREATED w2
                            then Return ReturnSessionCreated l' else Continue l'),
                   world_of (race ie l' w1),
                   trace_of (announce l1 w)
                   ++ Call ExportLoginToken :: trace_of (deliver (on_request ie) w)
                   ++ Log INFO [Str "Generated QR code #"; Num (qr_counter l'); Str "/";
                                Num MAX_QR_CODES; Str " (expires in "; Num QR_TIMEOUT;
                                Str " seconds)"]
                   :: PrintAsciiQR [login_url token] :: trace_of (race ie l' w1))).
  { intros token Htok Hlt.
    assert (Hmax : (MAX_QR_CODES <? qr_counter l + 1) = false) by (apply Z.ltb_ge; lia).
    subst r. rewrite loop_body_run, Hm. cbn [qr_counter dc_migrated_flag].
    rewrite Hmax. rewrite issue_run, Htok.
    cbn [result_of world_of trace_of fst snd app].
    fold w1. fold l'. rewrite race_spec at 1.
    cbn [result_of fst]. reflexivity. }
  assert (Fcode : filter is_code (trace_of (race ie l' w1)) = []).
  { rewrite race_spec. cbn [trace_of snd filter is_code]. rewrite !filter_app.
    rewrite (quiet_count is_code _) by
      (try exact Hq2; intros e He; unfold coordinator_only; now rewrite He).
    fold w2. destruct (SESSION_CREATED w2), (DC_MIGRATED w2), (timer_done ie); reflexivity. }
  conjs.
  - exact Hcount.
  - intros token Htok. destruct (qr_counter l <? MAX_QR_CODES) eqn:Hlt.
    + apply Z.ltb_lt in Hlt. rewrite (E token Htok Hlt). cbn [trace_of snd].
      rewrite filter_app. cbn [filter is_code].
      rewrite filter_app. cbn [filter is_code]. rewrite Fcode.
      rewrite !(quiet_count is_code _) by
        (try assumption; intros e He; unfold coordinator_only; now rewrite He).
      reflexivity.
    + apply Z.ltb_ge in Hlt.
      assert (Hmax : (MAX_QR_CODES <? qr_counter l + 1) = true) by (apply Z.ltb_lt; lia).
      subst r. rewrite loop_body_run, Hm. cbn [qr_counter dc_migrated_flag].
      rewrite Hmax. cbn [trace_of snd app]. rewrite grace_run. cbn [trace_of snd].
      cbn [filter is_code]. rewrite filter_app.
      rewrite (quiet_count is_code _) by
        (try assumption; intros e He; unfold coordinator_only; now rewrite He).
      destruct (DC_MIGRATED (world_of (deliver (on_grace ie) w))); reflexivity.
  - intros token Htok Hlt Hs Sil1 Sil2.
    assert (Hw1 : w1 = w) by apply Sil1.
    assert (Hw2 : w2 = racing w) by (unfold w2; rewrite Hw1; apply Sil2).
    rewrite (E token Htok Hlt). cbn [result_of world_of trace_of fst snd].
    rewrite race_spec. fold w2. rewrite Hw2.
    cbn [world_of trace_of fst snd SESSION_CREATED DC_MIGRATED cl racing add_tasks].
    rewrite Hs, Hm. conjs; try reflexivity.
    rewrite !app_assoc. cbn [orb negb cancelled].
    change (?x ++ [] ++ [Cancel Wait_DC_MIGRATED] ++ ?y)
      with (x ++ [Cancel Wait_DC_MIGRATED] ++ y).
    rewrite !app_comm_cons, !app_assoc. apply last_last.
Qed.

(** The second code of a run nobody answers. *)
Lemma timer_expiry_issues_one_code_witness :
  filter is_code (trace_of (loop_body Scenarios.expiring
                              {| qr_counter := 1; dc_migrated_flag := false |}
                              Scenarios.w0))
  = [PrintAsciiQR [login_url Scenarios.token0]]
  /\ filter is_code (trace_of (loop_body Scenarios.expiring
                                 {| qr_counter := 3; dc_migrated_flag := false |}
                                 Scenarios.w0))
     = [].
Proof.
  split.
  - exact (proj1 (proj2 (timer_expiry_issues_one_code Scenarios.expiring
                           {| qr_counter := 1; dc_migrated_flag := false |}
                           Scenarios.w0 eq_refl))
             Scenarios.token0 eq_refl).
  - exact (proj1 (proj2 (timer_expiry_issues_one_code Scenarios.expiring
                           {| qr_counter := 3; dc_migrated_flag := false |}
                           Scenarios.w0 eq_refl))
             Scenarios.token0 eq_refl).
Defined.
End QrClaims2.

Section QrClaims3.
Import QrAuth.
Local Open Scope list_scope.

(** A confirmation: the handler's run, whatever [get_me] and
    [export_session_string] answer. *)
Lemma handler_confirmed e w :
  export_token e = Gives LoginTokenSuccess ->
  raw_update_handler e UpdateLoginToken w
  = (Returns tt, set_SESSION_CREATED true w,
     [Log INFO [Str "QR code was scanned! Processing login..."];
      Call ExportLoginToken;
      Log INFO [Str "Authentication successful!"];
      Call GetMe]
     ++ match get_me e with
        | Gives me =>
            [Log INFO [Str "User information:"; Str nl; Obj me];
             Call ExportSessionString]
            ++ match export_session_string e with
               | Gives s =>
                   [Print [Str nl;
                           Str "Session string for future use (save this securely):";
                           Str nl; Str s; Str nl]]
               | Throws ex => [Log ERROR [Str "Error getting user info: "; ExcStr ex]]
               end
        | Throws ex => [Log ERROR [Str "Error getting user info: "; ExcStr ex]]
        end).
Proof.
  intros He. unfold raw_update_handler. run.
  destruct (nearest_dc w); cbn [andb]; run; rewrite He; run;
    (destruct (get_me e) as [me|ex]; run;
     [destruct (export_session_string e) as [s|ex]; run|]; reflexivity).
Qed.

(** C3, as stated, fails when [get_me] fails.  The handler then logs the
    error and still sets [SESSION_CREATED]: the identity is requested
    once, the session string is never exported and never printed. *)
Lemma confirmation_without_identity_exports_nothing :
  let r := raw_update_handler Scenarios.confirmed_no_identity UpdateLoginToken
             Scenarios.w0 in
  result_of r = Returns tt
  /\ SESSION_CREATED (world_of r) = true
  /\ calls GetMe (trace_of r) = 1%nat
  /\ calls ExportSessionString (trace_of r) = 0%nat
  /\ filter is_print (trace_of r) = [].
Proof. cbv zeta. conjs; reflexivity. Qed.

(** C3, amended.  When the scan of a code is answered by the success
    variant, then, whatever the counter is, the wait of lines 326-349
    ends by the [return] for [SESSION_CREATED], with no further code.
    [get_me] is called exactly once; [export_session_string] is called
    exactly once when [get_me] succeeds and not at all when it fails; a
    session string is printed only when both succeed, and it is the one
    the client exported. *)
Theorem confirmation_exports_one_credential
    (ie : iter_env) (l : locals) (w : world) (e : handler_env) :
  on_race ie = [(UpdateLoginToken, e)] ->
  export_token e = Gives LoginTokenSuccess ->
  let r := race ie l w in
  result_of r = Returns (Return ReturnSessionCreated l)
  /\ SESSION_CREATED (world_of r) = true
  /\ calls GetMe (trace_of r) = 1%nat
  /\ calls ExportSessionString (trace_of r)
     = match get_me e with Gives _ => 1%nat | Throws _ => 0%nat end
  /\ filter is_print (trace_of r)
     = match get_me e, export_session_string e with
       | Gives _, Gives s =>
           [Print [Str nl; Str "Session string for future use (save this securely):";
                   Str nl; Str s; Str nl]]
       | _, _ => []
       end
  /\ codes_issued (trace_of r) = 0%nat.
Proof.
  intros Hr He r.
  assert (D : deliver (on_race ie) (racing w)
              = (Returns tt, set_SESSION_CREATED true (racing w),
                 trace_of (raw_update_handler e UpdateLoginToken (racing w)))).
  { rewrite Hr. cbn [deliver]. unfold bind, try_except.
    rewrite (handler_confirmed _ _ He). cbn [trace_of snd app ret deliver].
    rewrite ?app_nil_r. reflexivity. }
  subst r. rewrite race_spec, D. rewrite (handler_confirmed _ _ He).
  cbn [world_of trace_of result_of fst snd SESSION_CREATED DC_MIGRATED
       set_SESSION_CREATED racing add_tasks].
  destruct (get_me e) as [me|ex]; [destruct (export_session_string e) as [s|ex]|];
    destruct (DC_MIGRATED w), (timer_done ie); conjs; reflexivity.
Qed.

(** A code scanned and confirmed while the first code is shown. *)
Lemma confirmation_exports_one_credential_witness :
  let e := Scenarios.answers (Gives LoginTokenSuccess) Scenarios.switch_ok
             (Gives "me") (Gives tt) in
  let ie := {| on_settle := []; on_grace := [];
               token_request := Gives (LoginToken Scenarios.token0); on_request := [];
               on_race := [(UpdateLoginToken, e)];
               timer_done := false; on_backoff := [] |} in
  let r := race ie {| qr_counter := 1; dc_migrated_flag := false |} Scenarios.w0 in
  calls GetMe (trace_of r) = 1%nat
  /\ calls ExportSessionString (trace_of r) = 1%nat
  /\ filter is_print (trace_of r)
     = [Print [Str nl; Str "Session string for future use (save this securely):";
               Str nl; Str "BQAAAA"; Str nl]].
Proof.
  cbv zeta.
  destruct (confirmation_exports_one_credential
              {| on_settle := []; on_grace := [];
                 token_request := Gives (LoginToken Scenarios.token0); on_request := [];
                 on_race := [(UpdateLoginToken,
                              Scenarios.answers (Gives LoginTokenSuccess) Scenarios.switch_ok
                                (Gives "me") (Gives tt))];
                 timer_done := false; on_backoff := [] |}
              {| qr_counter := 1; dc_migrated_flag := false |} Scenarios.w0
              (Scenarios.answers (Gives LoginTokenSuccess) Scenarios.switch_ok
                 (Gives "me") (Gives tt))
              eq_refl eq_refl)
    as (_ & _ & G & X & P & _).
  conjs; [exact G | exact X | exact P].
Defined.

(** C6, as stated, fails in the 2FA check.  A [FloodWait] of 30 seconds
    from [check_password] is logged as an error and [handle_2fa] returns
    [False]: it does not sleep and does not ask again. *)
Lemma rate_limit_in_2fa_is_not_slept :
  let r := handle_2fa Scenarios.rate_limited_2fa Scenarios.w0 in
  result_of r = Returns false
  /\ filter is_sleep (trace_of r) = []
  /\ calls (CheckPassword "") (trace_of r) = 1%nat
  /\ last (trace_of r) (Sleep 0)
     = Log ERROR [Str "Too many attempts. Please wait "; Num 30; Str " seconds"].
Proof. cbv zeta. conjs; reflexivity. Qed.

(** C6, amended.  A [FloodWait] answer to the token request of
    [create_qrcodes] is logged as a warning; the coordinator then sleeps
    for the seconds it names, once, and the pass ends with the loop going
    on and the pass counted: the counter is one above what it was, or 1
    after a migration.  In the 2FA check a [FloodWait] is logged as an
    error and the check returns [False], with no sleep. *)
Theorem rate_limit_on_token_request
    (ie : iter_env) (l : locals) (w : world) (n : Z) (s : string)
    (e2 : twofa_env) (w2 : world) (pw : string) (n2 : Z) (s2 : string) :
  token_request ie = Throws (RPCError FloodWait n s) ->
  password e2 = Gives pw ->
  check_password e2 = Throws (RPCError FloodWait n2 s2) ->
  let w1 := world_of (deliver (on_request ie) w) in
  issue ie l w
  = (Returns (Continue l), world_of (deliver (on_backoff ie) w1),
     Call ExportLoginToken :: trace_of (deliver (on_request ie) w)
     ++ [Log WARNING [Str "Rate limited. Waiting "; Num n; Str " seconds"]; Sleep n]
     ++ trace_of (deliver (on_backoff ie) w1))
  /\ filter is_sleep (trace_of (issue ie l w)) = [Sleep n]
  /\ (DC_MIGRATED w = true \/ qr_counter l < MAX_QR_CODES ->
      result_of (loop_body ie l w)
      = Returns (Continue {| qr_counter := (if DC_MIGRATED w then 0 else qr_counter l) + 1;
                             dc_migrated_flag := false |})
      /\ In (Sleep n) (trace_of (loop_body ie l w)))
  /\ handle_2fa e2 w2
     = (Returns false, w2,
        [Log INFO [Str "Two-factor authentication required"];
         GetPass "Enter your 2FA password: ";
         Call (CheckPassword pw);
         Log ERROR [Str "Too many attempts. Please wait "; Num n2; Str " seconds"]]).
Proof.
  intros Htok Hp Hpw w1.
  assert (E : forall l0 w0,
            issue ie l0 w0
            = (Returns (Continue l0),
               world_of (deliver (on_backoff ie) (world_of (deliver (on_request ie) w0))),
               Call ExportLoginToken :: trace_of (deliver (on_request ie) w0)
               ++ [Log WARNING [Str "Rate limited. Waiting "; Num n; Str " seconds"];
                   Sleep n]
               ++ trace_of (deliver (on_backoff ie)
                              (world_of (deliver (on_request ie) w0))))).
  { intros l0 w0. rewrite issue_run, Htok. reflexivity. }
  conjs.
  - apply E.
  - rewrite E. cbn [trace_of snd filter is_sleep]. rewrite !filter_app.
    cbn [filter is_sleep].
    rewrite !(quiet_count is_sleep _);
      try solve [apply deliver_quiet
                | intros e He; unfold coordinator_only; rewrite He;
                  now rewrite ?orb_true_r].
    reflexivity.
  - intros Hgo. rewrite loop_body_run.
    assert (Hmax : (MAX_QR_CODES <? (if DC_MIGRATED w then 0 else qr_counter l) + 1) = false).
    { apply Z.ltb_ge. destruct (DC_MIGRATED w); [unfold MAX_QR_CODES; lia|].
      destruct Hgo as [Hgo|Hgo]; [discriminate | lia]. }
    cbn [qr_counter dc_migrated_flag]. rewrite Hmax. rewrite !E.
    cbn [result_of trace_of fst snd]. split; [reflexivity|].
    apply in_or_app. right. apply in_or_app. right.
    right. apply in_or_app. right. apply in_or_app. left. right. left. reflexivity.
  - rewrite (handle_2fa_rejected e2 pw _ w2 Hp Hpw) by (right; reflexivity). reflexivity.
Qed.

(** A rate limit of 30 seconds on the first token request. *)
Lemma rate_limit_on_token_request_witness :
  filter is_sleep
    (trace_of (issue (Scenarios.pass_with (Throws (RPCError FloodWait 30 "")))
                 {| qr_counter := 1; dc_migrated_flag := false |} Scenarios.w0))
  = [Sleep 30]
  /\ result_of (handle_2fa Scenarios.rate_limited_2fa Scenarios.w0) = Returns false.
Proof.
  destruct (rate_limit_on_token_request
              (Scenarios.pass_with (Throws (RPCError FloodWait 30 "")))
              {| qr_counter := 1; dc_migrated_flag := false |} Scenarios.w0 30 ""
              Scenarios.rate_limited_2fa Scenarios.w0 "hunter2" 30 ""
              eq_refl eq_refl eq_refl)
    as (_ & S & _ & H).
  split; [exact S | now rewrite H].
Defined.

(** C8.  When the scan of a code needs a 2FA secret and the check of the
    secret fails, on an invalid secret or on a rate limit, the handler
    logs the error and ends: it asks for the secret once, checks it once,
    requests the token once, does not sleep, and leaves the world as it
    was, so neither event is set.  A coordinator waiting in lines 326-349
    during which only this update arrives is not terminated: the wait
    ends by the expiry of the timer and the loop goes on. *)
Theorem failed_2fa_aborts_one_attempt
    (e : handler_env) (w : world) (v : Z) (s pw : string) (ex : exn)
    (ie : iter_env) (l : locals) :
  export_token e = Throws (RPCError SessionPasswordNeeded v s) ->
  password (twofa e) = Gives pw ->
  check_password (twofa e) = Throws ex ->
  is_PasswordHashInvalid ex = true \/ is_FloodWait ex = true ->
  on_race ie = [(UpdateLoginToken, e)] ->
  SESSION_CREATED w = false ->
  DC_MIGRATED w = false ->
  let r := raw_update_handler e UpdateLoginToken w in
  r = (Returns tt, w,
       [Log INFO [Str "QR code was scanned! Processing login..."];
        Call ExportLoginToken;
        Log INFO [Str "Two-factor authentication required"];
        GetPass "Enter your 2FA password: ";
        Call (CheckPassword pw);
        Log ERROR (if is_PasswordHashInvalid ex
                   then [Str "Invalid 2FA password"]
                   else [Str "Too many attempts. Please wait "; Num (exn_value ex);
                         Str " seconds"])])
  /\ List.length (filter is_getpass (trace_of r)) = 1%nat
  /\ calls (CheckPassword "") (trace_of r) = 1%nat
  /\ calls ExportLoginToken (trace_of r) = 1%nat
  /\ filter is_sleep (trace_of r) = []
  /\ result_of (race ie l w) = Returns (Continue l)
  /\ SESSION_CREATED (world_of (race ie l w)) = false
  /\ DC_MIGRATED (world_of (race ie l w)) = false
  /\ last (trace_of (race ie l w)) (Sleep 0)
     = Log INFO [Str "QR code #"; Num (qr_counter l); Str " expired after ";
                 Num QR_TIMEOUT; Str " seconds"].
Proof.
  intros He Hp Hc Hex Hr Hs Hm r.
  assert (E : forall w', raw_update_handler e UpdateLoginToken w'
              = (Returns tt, w',
                 [Log INFO [Str "QR code was scanned! Processing login..."];
                  Call ExportLoginToken;
                  Log INFO [Str "Two-factor authentication required"];
                  GetPass "Enter your 2FA password: ";
                  Call (CheckPassword pw);
                  Log ERROR (if is_PasswordHashInvalid ex
                             then [Str "Invalid 2FA password"]
                             else [Str "Too many attempts. Please wait ";
                                   Num (exn_value ex); Str " seconds"])]))
    by (intro w'; exact (handler_2fa_rejected e w' v s pw ex He Hp Hc Hex)).
  assert (D : deliver (on_race ie) (racing w)
              = (Returns tt, racing w, trace_of (raw_update_handler e UpdateLoginToken w))).
  { rewrite Hr. cbn [deliver]. unfold bind, try_except. rewrite !E. reflexivity. }
  subst r. rewrite E. cbn [trace_of result_of world_of fst snd].
  rewrite race_spec, D.
  cbn [world_of trace_of result_of fst snd SESSION_CREATED DC_MIGRATED racing add_tasks].
  rewrite Hs, Hm. cbn [orb negb settled cancelled app].
  conjs; try reflexivity;
    rewrite ?E; cbn [trace_of snd];
    destruct (is_PasswordHashInvalid ex), (timer_done ie); reflexivity.
Qed.

(** The wrong 2FA secret while the first code is shown. *)
Lemma failed_2fa_aborts_one_attempt_witness :
  let ie := {| on_settle := []; on_grace := [];
               token_request := Gives (LoginToken Scenarios.token0); on_request := [];
               on_race := [(UpdateLoginToken, Scenarios.wrong_secret)];
               timer_done := false; on_backoff := [] |} in
  world_of (raw_update_handler Scenarios.wrong_secret UpdateLoginToken Scenarios.w0)
  = Scenarios.w0
  /\ result_of (race ie {| qr_counter := 1; dc_migrated_flag := false |} Scenarios.w0)
     = Returns (Continue {| qr_counter := 1; dc_migrated_flag := false |}).
Proof.
  cbv zeta.
  destruct (failed_2fa_aborts_one_attempt Scenarios.wrong_secret Scenarios.w0 0 ""
              "hunter2" (RPCError PasswordHashInvalid 0 "")
              {| on_settle := []; on_grace := [];
                 token_request := Gives (LoginToken Scenarios.token0); on_request := [];
                 on_race := [(UpdateLoginToken, Scenarios.wrong_secret)];
                 timer_done := false; on_backoff := [] |}
              {| qr_counter := 1; dc_migrated_flag := false |}
              eq_refl eq_refl eq_refl (or_introl eq_refl) eq_refl eq_refl eq_refl)
    as (E & _ & _ & _ & _ & R & _).
  split; [now rewrite E | exact R].
Defined.
End QrClaims3.

Section QrClaims4.
Import QrAuth.
Local Open Scope list_scope.

Lemma waits_app a b : waits (a ++ b) = (waits a + waits b)%nat.
Proof. unfold waits. now rewrite filter_app, length_app. Qed.

Lemma branch_logs_app a b : branch_logs (a ++ b) = (branch_logs a + branch_logs b)%nat.
Proof. unfold branch_logs. now rewrite filter_app, length_app. Qed.

Lemma quiet_waits t : Forall quiet_event t -> waits t = 0%nat.
Proof.
  intro H. unfold waits. rewrite (quiet_count is_wait_first t); [reflexivity| |exact H].
  intros e He. destruct e; try discriminate He. reflexivity.
Qed.

Lemma quiet_branch_logs t : Forall quiet_event t -> branch_logs t = 0%nat.
Proof.
  intro H. unfold branch_logs. rewrite (quiet_count is_branch_log t); [reflexivity| |exact H].
  intros e He. unfold coordinator_only. rewrite He. now rewrite !orb_true_r.
Qed.

Lemma race_one_branch ie l w :
  exists c w' t,
    race ie l w = (Returns c, w', t)
    /\ waits t = 1%nat
    /\ (branch_logs t + returned c = 1)%nat.
Proof.
  rewrite race_spec.
  pose proof (deliver_quiet (on_race ie) (racing w)) as Hq.
  set (w1 := world_of (deliver (on_race ie) (racing w))).
  do 3 eexists. split; [reflexivity|].
  change (?a :: ?u ++ ?v) with ([a] ++ u ++ v).
  rewrite !waits_app, !branch_logs_app, (quiet_waits _ Hq), (quiet_branch_logs _ Hq).
  destruct (SESSION_CREATED w1), (DC_MIGRATED w1), (timer_done ie); split; reflexivity.
Qed.

Lemma grace_no_branch ie l w :
  waits (trace_of (grace ie l w)) = 0%nat
  /\ branch_logs (trace_of (grace ie l w)) = 0%nat
  /\ (forall c, result_of (grace ie l w) = Returns c -> returned c = 0%nat).
Proof.
  rewrite grace_run. cbn [trace_of result_of fst snd].
  pose proof (deliver_quiet (on_grace ie) w) as Hq.
  change (?a :: ?b :: ?u ++ ?v) with ([a; b] ++ u ++ v).
  rewrite !waits_app, !branch_logs_app, (quiet_waits _ Hq), (quiet_branch_logs _ Hq).
  destruct (DC_MIGRATED (world_of (deliver (on_grace ie) w)));
    (conjs; [reflexivity | reflexivity | intros c [= <-]; reflexivity]).
Qed.

Lemma issue_one_branch ie l w :
  exists c w' t,
    issue ie l w = (Returns c, w', t)
    /\ waits t = (branch_logs t + returned c)%nat.
Proof.
  rewrite issue_run.
  pose proof (deliver_quiet (on_request ie) w) as Hq.
  set (w1 := world_of (deliver (on_request ie) w)) in *.
  pose proof (deliver_quiet (on_backoff ie) w1) as Hqb.
  destruct (token_request ie) as [[token|dc| |name]|ex].
  - destruct (race_one_branch ie l w1) as (c & w' & t & E & Hw & Hb).
    rewrite E. cbn [result_of world_of trace_of fst snd].
    do 3 eexists. split; [reflexivity|].
    change (?a :: ?t1 ++ ?b :: ?c :: ?t2) with ([a] ++ t1 ++ [b; c] ++ t2).
    rewrite !waits_app, !branch_logs_app, (quiet_waits _ Hq), (quiet_branch_logs _ Hq), Hw.
    cbn. cbn in Hb. lia.
  - do 3 eexists. split; [reflexivity|].
    change (?a :: ?t1 ++ ?b :: ?c :: ?t2) with ([a] ++ t1 ++ [b; c] ++ t2).
    rewrite !waits_app, !branch_logs_app, (quiet_waits _ Hq), (quiet_branch_logs _ Hq),
      (quiet_waits _ Hqb), (quiet_branch_logs _ Hqb). reflexivity.
  - do 3 eexists. split; [reflexivity|].
    change (?a :: ?t1 ++ ?b :: ?c :: ?t2) with ([a] ++ t1 ++ [b; c] ++ t2).
    rewrite !waits_app, !branch_logs_app, (quiet_waits _ Hq), (quiet_branch_logs _ Hq),
      (quiet_waits _ Hqb), (quiet_branch_logs _ Hqb). reflexivity.
  - do 3 eexists. split; [reflexivity|].
    change (?a :: ?t1 ++ ?b :: ?c :: ?t2) with ([a] ++ t1 ++ [b; c] ++ t2).
    rewrite !waits_app, !branch_logs_app, (quiet_waits _ Hq), (quiet_branch_logs _ Hq),
      (quiet_waits _ Hqb), (quiet_branch_logs _ Hqb). reflexivity.
  - do 3 eexists. split; [reflexivity|].
    change (?a :: ?t1) with ([a] ++ t1).
    rewrite !waits_app, !branch_logs_app, (quiet_waits _ Hq), (quiet_branch_logs _ Hq),
      (quiet_waits _ Hqb), (quiet_branch_logs _ Hqb).
    destruct (is_FloodWait ex); [|destruct (is_RPCError ex)]; reflexivity.
Qed.

Lemma pass_one_branch ie l w :
  exists c w' t,
    loop_body ie l w = (Returns c, w', t)
    /\ waits t = (branch_logs t + returned c)%nat
    /\ (settled_tasks w -> settled_tasks w').
Proof.
  destruct (pass_facts ie l w) as (c & w' & body & E & _ & _ & _ & _ & Hset).
  exists c, w', (trace_of (loop_body ie l w)).
  conjs; [now rewrite E| |exact Hset].
  assert (R : result_of (loop_body ie l w) = Returns c) by now rewrite E.
  clear E Hset. revert R. rewrite loop_body_run.
  pose proof (deliver_quiet (on_settle ie) w) as Hq.
  set (pre := if DC_MIGRATED w then Log INFO _ :: _ else []).
  assert (Hpre : waits pre = 0%nat /\ branch_logs pre = 0%nat).
  { subst pre. destruct (DC_MIGRATED w); [|split; reflexivity].
    change (?a :: ?b :: ?u) with ([a; b] ++ u).
    rewrite waits_app, branch_logs_app, (quiet_waits _ Hq), (quiet_branch_logs _ Hq).
    split; reflexivity. }
  destruct Hpre as [Hp1 Hp2].
  destruct (MAX_QR_CODES <? _); cbn [result_of trace_of fst snd]; intro R.
  - destruct (grace_no_branch ie
                {| qr_counter := (if DC_MIGRATED w then 0 else qr_counter l) + 1;
                   dc_migrated_flag := if DC_MIGRATED w then true else dc_migrated_flag l |}
                (if DC_MIGRATED w
                 then set_DC_MIGRATED false (world_of (deliver (on_settle ie) w))
                 else w)) as (G1 & G2 & G3).
    rewrite waits_app, branch_logs_app, Hp1, Hp2, G1, G2, (G3 _ R). reflexivity.
  - match goal with |- context [announce ?l1 ?w1] =>
      destruct (announce_run l1 w1) as [_ Ha] end.
    match goal with |- context [issue ie ?l2 ?w1] =>
      destruct (issue_one_branch ie l2 w1) as (c2 & w2 & t2 & E2 & H2);
      rewrite E2 in R |- * end.
    cbn [result_of trace_of fst snd] in R |- *. injection R as ->.
    rewrite !waits_app, !branch_logs_app, Hp1, Hp2,
      (quiet_waits _ Ha), (quiet_branch_logs _ Ha), H2. reflexivity.
Qed.

(** C5.  In every run of [create_qrcodes], from a world with no pending
    task: wherever the run stops (at a [return], or at the head of the
    loop when the script is used up), no task is pending, so each task
    of each wait is done or cancelled before the next pass starts; and
    the waits of [asyncio.wait] are as many as the branches taken after
    them, so each wait is followed by exactly one branch. *)
Theorem one_branch_per_wait (script : list iter_env) (l : locals) (w : world) :
  settled_tasks w ->
  let r := create_qrcodes_from script l w in
  settled_tasks (world_of r)
  /\ List.length (filter is_wait_first (trace_of r))
     = (List.length (filter is_branch_log (trace_of r))
        + match result_of r with
          | Returns ReturnSessionCreated => 1
          | _ => 0
          end)%nat.
Proof.
  revert l w. induction script as [|ie rest IH]; intros l w Hset; cbv zeta.
  - cbn [create_qrcodes_from]. unfold bind, get, ret, unfinished.
    destruct (SESSION_CREATED w); cbn; auto.
  - destruct (SESSION_CREATED w) eqn:Hs.
    { rewrite create_qrcodes_from_test by assumption. cbn. auto. }
    destruct (pass_one_branch ie l w) as (c & w1 & t1 & E & Hb & Hset1).
    rewrite (create_qrcodes_from_cons _ _ _ _ _ _ _ Hs E).
    destruct c as [l'|x l'].
    + destruct (IH l' w1 (Hset1 Hset)) as [I1 I2].
      cbn [result_of world_of trace_of fst snd] in *. split; [exact I1|].
      fold (waits (t1 ++ trace_of (create_qrcodes_from rest l' w1))).
      fold (branch_logs (t1 ++ trace_of (create_qrcodes_from rest l' w1))).
      rewrite waits_app, branch_logs_app, Hb. unfold waits at 1, branch_logs at 2.
      rewrite I2. cbn [returned]. unfold branch_logs. lia.
    + cbn [result_of world_of trace_of fst snd]. split; [auto|].
      fold (waits t1). fold (branch_logs t1). rewrite Hb.
      destruct x; reflexivity.
Qed.

(** A code answered by a migration, then a failing token request. *)
Lemma one_branch_per_wait_witness :
  settled_tasks
    (world_of (create_qrcodes_from [Scenarios.migrating Scenarios.switch_ok; Scenarios.failing]
                 initial_locals Scenarios.w0)).
Proof.
  apply (one_branch_per_wait [Scenarios.migrating Scenarios.switch_ok; Scenarios.failing]
           initial_locals Scenarios.w0).
  constructor.
Defined.
End QrClaims4.

Section QrClaims5.
Import QrAuth.
Local Open Scope list_scope.

(** C2, as stated, fails when the switch fails early and the client is
    left without a working session.  A code is answered by a migration
    to data center 4; stopping the old session raises, so
    [check_session] returns [False] before it stores the new data
    center; the three token requests that follow fail.  The counter is
    reset, but the stored data center still is 2 and no code is rendered
    after the migration: the run ends with one code in all. *)
Lemma failed_switch_keeps_data_center :
  let r := create_qrcodes
             [Scenarios.migrating Scenarios.stop_fails; Scenarios.failing;
              Scenarios.failing; Scenarios.failing; Scenarios.failing]
             Scenarios.w0 in
  result_of r = Returns ReturnMaxCodes
  /\ existsb is_reset (trace_of r) = true
  /\ storage_dc_id (cl (world_of r)) = 2
  /\ codes_on_current_dc (trace_of r) = 0%nat
  /\ codes_issued (trace_of r) = 1%nat.
Proof. cbv zeta. conjs; reflexivity. Qed.

(** C2, amended.  When the scan of a code is answered by a migration to
    [dc] and no confirmation is signalled, the handler sets
    [DC_MIGRATED] whether [check_session] succeeds or fails, and the wait
    of lines 326-349 ends by the migration branch; the stored data
    center is [dc] unless stopping the old session failed.  The next
    pass, whatever the counter was, logs the reset, sleeps 2 seconds,
    clears the event and requests a token with the counter at 1; when
    the client answers with a token, the code of that token is rendered,
    the only code of the pass. *)
Theorem migration_resets_counter
    (ie1 ie2 : iter_env) (l : locals) (w : world) (e : handler_env) (dc : Z) :
  on_race ie1 = [(UpdateLoginToken, e)] ->
  export_token e = Gives (LoginTokenMigrateTo dc) ->
  SESSION_CREATED w = false ->
  let r1 := race ie1 l w in
  let w1 := world_of r1 in
  let r2 := loop_body ie2 l w1 in
  result_of r1 = Returns (Continue l)
  /\ DC_MIGRATED w1 = true
  /\ SESSION_CREATED w1 = false
  /\ storage_dc_id (cl w1)
     = (if has_session (cl w) && is_connected (cl w)
        then match session_stop (switch e) with
             | Gives _ => dc
             | Throws _ => storage_dc_id (cl w)
             end
        else dc)
  /\ (exists c, result_of r2 = Returns c /\ qr_counter (locals_of c) = 1)
  /\ (exists body,
        trace_of r2
        = Log INFO [Str "DC migration detected, resetting QR code counter"]
          :: Sleep 2 :: trace_of (deliver (on_settle ie2) w1)
          ++ Print [Str nl; Str "Here's a new QR code after DC migration. Please scan it:"]
          :: Call ExportLoginToken :: body)
  /\ (forall token, token_request ie2 = Gives (LoginToken token) ->
        filter is_code (trace_of r2) = [PrintAsciiQR [login_url token]]).
Proof.
  intros Hr He Hs r1 w1 r2.
  destruct (handler_migrate e (racing w) dc He) as [H1 H2].
  destruct (check_session_flags (switch e) dc (racing w)) as [F1 F2].
  pose proof (check_session_storage (switch e) dc (racing w)) as St.
  assert (D : world_of (deliver (on_race ie1) (racing w))
              = set_DC_MIGRATED true (world_of (check_session (switch e) dc (racing w)))).
  { rewrite Hr. cbn [deliver]. unfold bind, try_except.
    unfold result_of, world_of in H1, H2 |- *.
    destruct (raw_update_handler e UpdateLoginToken (racing w)) as [[r0 w'] t'].
    cbn in H1, H2. subst r0 w'. reflexivity. }
  assert (E1 : result_of r1 = Returns (Continue l) /\ DC_MIGRATED w1 = true
               /\ SESSION_CREATED w1 = false
               /\ cl w1 = cl (world_of (check_session (switch e) dc (racing w)))).
  { subst w1 r1. rewrite race_spec, D.
    cbn [result_of world_of fst snd SESSION_CREATED DC_MIGRATED cl set_DC_MIGRATED].
    rewrite F1. cbn [racing add_tasks SESSION_CREATED]. rewrite Hs. conjs; reflexivity. }
  destruct E1 as (R1 & M1 & S1 & C1).
  assert (E2 : r2
               = (result_of (issue ie2 {| qr_counter := 0 + 1; dc_migrated_flag := false |}
                               (set_DC_MIGRATED false (world_of (deliver (on_settle ie2) w1)))),
                  world_of (issue ie2 {| qr_counter := 0 + 1; dc_migrated_flag := false |}
                              (set_DC_MIGRATED false (world_of (deliver (on_settle ie2) w1)))),
                  (Log INFO [Str "DC migration detected, resetting QR code counter"]
                   :: Sleep 2 :: trace_of (deliver (on_settle ie2) w1))
                  ++ [Print [Str nl;
                             Str "Here's a new QR code after DC migration. Please scan it:"]]
                  ++ trace_of (issue ie2 {| qr_counter := 0 + 1; dc_migrated_flag := false |}
                                 (set_DC_MIGRATED false
                                    (world_of (deliver (on_settle ie2) w1)))))).
  { subst r2. rewrite loop_body_run, M1. reflexivity. }
  set (w2 := set_DC_MIGRATED false (world_of (deliver (on_settle ie2) w1))) in *.
  set (l2 := {| qr_counter := 0 + 1; dc_migrated_flag := false |}) in *.
  pose proof (deliver_quiet (on_settle ie2) w1) as Hq.
  pose proof (deliver_quiet (on_request ie2) w2) as Hq2.
  conjs; auto.
  - rewrite C1, St. reflexivity.
  - destruct (issue_facts ie2 l2 w2) as (c & w' & t & E & Hl & _).
    rewrite E2, E. exists c. cbn [result_of fst]. rewrite Hl. split; reflexivity.
  - rewrite E2. cbn [trace_of snd]. rewrite issue_run.
    destruct (token_request ie2) as [[token|d| |name]|ex]; cbn [trace_of snd];
      eexists; cbn [app]; reflexivity.
  - intros token Htok. rewrite E2. cbn [trace_of snd]. rewrite issue_run, Htok.
    cbn [trace_of snd]. rewrite race_spec. cbn [trace_of snd].
    pose proof (deliver_quiet (on_race ie2)
                  (racing (world_of (deliver (on_request ie2) w2)))) as Hq3.
    rewrite !filter_app. cbn [filter is_code]. rewrite !filter_app. cbn [filter is_code].
    rewrite !filter_app.
    rewrite !(quiet_count is_code _) by
      (try assumption; intros x Hx; unfold coordinator_only; now rewrite Hx).
    set (w3 := world_of (deliver (on_race ie2)
                           (racing (world_of (deliver (on_request ie2) w2))))).
    destruct (SESSION_CREATED w3), (DC_MIGRATED w3), (timer_done ie2); reflexivity.
Qed.

(** A migration to data center 4 whose switch succeeds, then a token. *)
Lemma migration_resets_counter_witness :
  storage_dc_id
    (cl (world_of (race (Scenarios.migrating Scenarios.switch_ok)
                     {| qr_counter := 3; dc_migrated_flag := false |} Scenarios.w0)))
  = 4
  /\ filter is_code
       (trace_of (loop_body Scenarios.expiring
                    {| qr_counter := 3; dc_migrated_flag := false |}
                    (world_of (race (Scenarios.migrating Scenarios.switch_ok)
                                 {| qr_counter := 3; dc_migrated_flag := false |}
                                 Scenarios.w0))))
     = [PrintAsciiQR [login_url Scenarios.token0]].
Proof.
  destruct (migration_resets_counter (Scenarios.migrating Scenarios.switch_ok)
              Scenarios.expiring {| qr_counter := 3; dc_migrated_flag := false |}
              Scenarios.w0
              (Scenarios.answers (Gives (LoginTokenMigrateTo 4)) Scenarios.switch_ok
                 (Gives "me") (Gives tt))
              4 eq_refl eq_refl eq_refl)
    as (_ & _ & _ & St & _ & _ & Code).
  split; [exact St | exact (Code Scenarios.token0 eq_refl)].
Defined.
End QrClaims5.

Section QrInit.
Import QrAuth.
Local Open Scope list_scope.

(** What a statement emits is emitted by the block it is in. *)
Lemma emits_bind_l {A B} (m : Q A) (k : A -> Q B) w x :
  In x (trace_of (m w)) -> In x (trace_of (bind m k w)).
Proof.
  unfold bind, trace_of. destruct (m w) as [[[a|e|] w1] t1]; cbn; auto.
  destruct (k a w1) as [[r w2] t2]. cbn. intro H. apply in_or_app. auto.
Qed.

Lemma emits_bind_r {A B} (m : Q A) (k : A -> Q B) w a x :
  result_of (m w) = Returns a ->
  In x (trace_of (k a (world_of (m w)))) -> In x (trace_of (bind m k w)).
Proof.
  unfold bind, trace_of, result_of, world_of.
  destruct (m w) as [[r w1] t1]; cbn. intros ->.
  destruct (k a w1) as [[r w2] t2]. cbn. intro H. apply in_or_app. auto.
Qed.

Lemma emits_try_except {A} (m : Q A) h w x :
  In x (trace_of (m w)) -> In x (trace_of (try_except m h w)).
Proof.
  unfold try_except, trace_of. destruct (m w) as [[[a|e|] w1] t1]; cbn; auto.
  destruct (h e w1) as [[r w2] t2]. cbn. intro H. apply in_or_app. auto.
Qed.

Lemma emits_try_finally {A} (m : Q A) f w x :
  In x (trace_of (m w)) -> In x (trace_of (try_finally m f w)).
Proof.
  unfold try_finally, trace_of. destruct (m w) as [[[a|e|] w1] t1]; cbn; auto;
    destruct (f w1) as [[[[]|e'|] w2] t2]; cbn; intro H; apply in_or_app; auto.
Qed.

(** The operator's choice: a number from 1 to 5, or none. *)
Lemma select_dc_spec (choice : string) (w : world) :
  exists sel t,
    select_dc choice w = (Returns sel, w, t)
    /\ sel = (if isdigit choice && (1 <=? int choice) && (int choice <=? 5)
              then Some (int choice) else None)
    /\ (forall d, sel = Some d -> 1 <= d <= 5).
Proof.
  unfold select_dc.
  assert (Hd : negb (String.eqb choice "") && isdigit choice = isdigit choice).
  { unfold isdigit. destruct (negb (String.eqb choice "")); reflexivity. }
  rewrite Hd. destruct (isdigit choice); cbn [andb].
  - destruct (1 <=? int choice) eqn:H1; cbn [andb].
    + destruct (int choice <=? 5) eqn:H5.
      * apply Z.leb_le in H1, H5.
        assert (Hc : int choice = 1 \/ int choice = 2 \/ int choice = 3
                     \/ int choice = 4 \/ int choice = 5) by lia.
        destruct Hc as [-> | [-> | [-> | [-> | ->]]]];
          (do 2 eexists; conjs; [reflexivity | reflexivity | intros d [= <-]; lia]).
      * do 2 eexists. conjs; [reflexivity | reflexivity | discriminate].
    + do 2 eexists. conjs; [reflexivity | reflexivity | discriminate].
  - do 2 eexists. conjs; [reflexivity | reflexivity | discriminate].
Qed.

(** C7.  In the set-up of [qr_auth], with [selected_dc] what lines
    382-392 make of the operator's input (a number from 1 to 5, or none):
    [resolve_dc] returns without raising, and [nearest_dc] then is the
    choice when there is one, else the data center the [GetNearestDc]
    query names, else, when the query fails, 2.  In a run with no choice,
    whose connection succeeds and whose query fails, the script goes on:
    it logs the default, sets up the session with data center 2 and adds
    the update handler. *)
Theorem init_resolves_data_center
    (e : qr_auth_env) (w0 w0' : world) (t0 : trace) (selected_dc : option Z)
    (w : world) (c : client) :
  select_dc (dc_choice e) w0 = (Returns selected_dc, w0', t0) ->
  let r := resolve_dc selected_dc e w in
  result_of r = Returns tt
  /\ nearest_dc (world_of r)
     = match selected_dc, get_nearest_dc e with
       | Some d, _ => Some d
       | None, Gives n => Some n
       | None, Throws _ => Some 2
       end
  /\ (selected_dc = None -> connect e = Gives tt ->
      (exists ex, get_nearest_dc e = Throws ex) ->
      let t := trace_of (qr_auth e (initial_world c)) in
      In (Log INFO [Str "Defaulting to DC"; Num 2]) t
      /\ In (Log INFO [Str "Setting up session with DC "; Num 2]) t
      /\ In (Call AddHandler) t).
Proof.
  intros Hselect r.
  assert (Hsel : forall d, selected_dc = Some d -> 1 <= d <= 5).
  { destruct (select_dc_spec (dc_choice e) w0) as (sel & t & E & _ & Hrange).
    rewrite E in Hselect. injection Hselect as <- _ _. exact Hrange. }
  assert (R : result_of r = Returns tt
              /\ nearest_dc (world_of r)
                 = match selected_dc, get_nearest_dc e with
                   | Some d, _ => Some d
                   | None, Gives n => Some n
                   | None, Throws _ => Some 2
                   end).
  { subst r. unfold resolve_dc. destruct selected_dc as [d|]; cbn [truthy].
    - specialize (Hsel d eq_refl).
      assert (Hd : (d =? 0) = false) by (apply Z.eqb_neq; lia).
      rewrite Hd. cbn [negb]. run. split; reflexivity.
    - run. destruct (get_nearest_dc e) as [n|ex]; run.
      + destruct (dict_get DC_INFO n); run; split; reflexivity.
      + split; reflexivity. }
  destruct R as [R1 R2]. conjs; [exact R1 | exact R2 |].
  intros Hnone Hconn [ex Hq] t. subst t selected_dc.
  assert (Hchoice : forall w', result_of (select_dc (dc_choice e) w') = Returns None).
  { intro w'.
    destruct (select_dc_spec (dc_choice e) w0) as (sel & t & E & S & _).
    destruct (select_dc_spec (dc_choice e) w') as (sel' & t' & E' & S' & _).
    rewrite E in Hselect. injection Hselect as Hs _ _.
    rewrite E'. cbn [result_of fst]. congruence. }
  assert (Hres : forall w', resolve_dc None e w'
                 = (Returns tt, set_nearest_dc (Some 2) w',
                    [Call GetNearestDc;
                     Log ERROR [Str "Error getting nearest DC: "; ExcStr ex];
                     Log INFO [Str "Defaulting to DC"; Num 2]])).
  { intro w'. unfold resolve_dc. cbn [truthy]. run. rewrite Hq. reflexivity. }
  assert (Hstep : forall x,
    (forall w', In x (trace_of (resolve_dc None e w'))
                \/ In x [Log INFO [Str "Setting up session with DC "; Num 2];
                         Call AddHandler]) ->
    In x (trace_of (qr_auth e (initial_world c)))).
  { intros x Hx. unfold qr_auth.
    do 3 (eapply emits_bind_r; [reflexivity|]).
    eapply emits_bind_r; [apply Hchoice|].
    do 2 (eapply emits_bind_r; [reflexivity|]).
    apply emits_try_finally, emits_try_except.
    eapply emits_bind_r; [reflexivity|].
    eapply emits_bind_r; [unfold call; run; rewrite Hconn; reflexivity|].
    do 2 (eapply emits_bind_r; [reflexivity|]).
    match goal with |- In _ (trace_of (bind _ _ ?w')) =>
      destruct (Hx w') as [Hin|Hin]; [now apply emits_bind_l|];
      eapply emits_bind_r; [now rewrite Hres|]; rewrite Hres
    end.
    eapply emits_bind_r; [reflexivity|].
    cbn [world_of fst snd get nearest_dc set_nearest_dc truthy Z.eqb negb].
    destruct Hin as [<-|[<-|[]]].
    - do 2 apply emits_bind_l. left. reflexivity.
    - match goal with |- In _ (trace_of (bind _ _ ?w')) =>
        destruct (check_session_returns (setup e) 2 w') as [ok Hok];
        eapply (emits_bind_r _ _ w' tt)
      end.
      + unfold bind at 1. unfold log at 1, emit at 1. unfold bind at 1.
        unfold result_of in Hok |- *.
        match goal with |- context [check_session (setup e) 2 ?w'] =>
          destruct (check_session (setup e) 2 w') as [[r1 w1] t1] end.
        cbn in Hok. subst r1. destruct ok; reflexivity.
      + apply emits_bind_l. left. reflexivity. }
  conjs; apply Hstep; intro w'.
  - left. rewrite Hres. cbn. auto.
  - right. cbn. auto.
  - right. cbn. auto.
Qed.

(** The operator types 3; or presses Enter and the query for the nearest
    data center fails. *)
Lemma init_resolves_data_center_witness :
  nearest_dc (world_of (resolve_dc (Some 3) Scenarios.chooses_3 Scenarios.w0)) = Some 3
  /\ nearest_dc (world_of (resolve_dc None Scenarios.nearest_fails Scenarios.w0)) = Some 2
  /\ In (Call AddHandler)
        (trace_of (qr_auth Scenarios.nearest_fails (initial_world Scenarios.client0))).
Proof.
  destruct (init_resolves_data_center Scenarios.chooses_3 Scenarios.w0 Scenarios.w0
              [Log INFO [Str "Selected DC"; Num 3; Str ": "; Str "Miami FL, USA (alias)";
                         Str " ("; Str "149.154.175.100"; Str ")"]]
              (Some 3) Scenarios.w0 Scenarios.client0 eq_refl)
    as (_ & N3 & _).
  destruct (init_resolves_data_center Scenarios.nearest_fails Scenarios.w0 Scenarios.w0 []
              None Scenarios.w0 Scenarios.client0 eq_refl)
    as (_ & N & Go).
  conjs; [exact N3 | exact N |].
  apply (Go eq_refl eq_refl (ex_intro _ (PyException "TimeoutError" "") eq_refl)).
Defined.
End QrInit.

(* ================================================================== *)
(** * Further properties of the two scripts *)
(* ================================================================== *)

Import Readings.

Section Base64More.
Import Base64.

(** Checking a property of two small numbers by running through them. *)
Lemma forall_below2 (n : nat) (P : nat -> nat -> bool) :
  forallb (fun i => forallb (P i) (seq 0 n)) (seq 0 n) = true ->
  forall i j, (i < n)%nat -> (j < n)%nat -> P i j = true.
Proof.
  intros H i j Hi Hj.
  rewrite forallb_forall in H. specialize (H i).
  rewrite forallb_forall in H. apply H; apply in_seq; lia.
Qed.

Lemma forall_bytes2 (P : Z -> Z -> bool) :
  forallb (fun i => forallb (fun j => P (Z.of_nat i) (Z.of_nat j)) (seq 0 256)) (seq 0 256)
  = true ->
  forall a b, 0 <= a < 256 -> 0 <= b < 256 -> P a b = true.
Proof.
  intros H a b Ha Hb.
  pose proof (forall_below2 256 (fun i j => P (Z.of_nat i) (Z.of_nat j)) H
                (Z.to_nat a) (Z.to_nat b)) as E.
  cbv beta in E. rewrite !Z2Nat.id in E by lia. apply E; lia.
Qed.

Lemma byteZ_range (b : byte) : 0 <= byteZ b < 256.
Proof.
  unfold byteZ. pose proof (Byte.to_N_bounded b) as H. lia.
Qed.

Lemma byteZ_inj (a b : byte) : byteZ a = byteZ b -> a = b.
Proof.
  unfold byteZ. intro H. apply N2Z.inj in H.
  pose proof (Byte.of_to_N a) as Ea. pose proof (Byte.of_to_N b) as Eb.
  rewrite H in Ea. congruence.
Qed.

(** The 6-bit values as arithmetic on the byte values. *)
Lemma six1_arith a : 0 <= a < 256 -> six1 a = a / 4.
Proof. intros _. unfold six1. now rewrite Z.shiftr_div_pow2. Qed.

Lemma six2_arith a b :
  0 <= a < 256 -> 0 <= b < 256 -> six2 a b = (a mod 4) * 16 + b / 16.
Proof.
  intros Ha Hb. apply Z.eqb_eq.
  revert a b Ha Hb. apply forall_bytes2. vm_compute. reflexivity.
Qed.

Lemma six3_arith b c :
  0 <= b < 256 -> 0 <= c < 256 -> six3 b c = (b mod 16) * 4 + c / 64.
Proof.
  intros Hb Hc. apply Z.eqb_eq.
  revert b c Hb Hc. apply forall_bytes2. vm_compute. reflexivity.
Qed.

Lemma six4_arith c : 0 <= c < 256 -> six4 c = c mod 64.
Proof.
  intros _. unfold six4. change 63 with (Z.ones 6).
  rewrite Z.land_ones by lia. reflexivity.
Qed.

(** The URL-safe table has 64 different characters, none of them the
    padding character. *)
Lemma sextet_url_inj i j :
  0 <= i < 64 -> 0 <= j < 64 ->
  sextet url_alphabet i = sextet url_alphabet j -> i = j.
Proof.
  intros Hi Hj H.
  assert (E : Z.to_nat i = Z.to_nat j); [|lia].
  apply Nat.eqb_eq.
  pose proof (forall_below2 64
    (fun n m => implb (Ascii.eqb (sextet url_alphabet (Z.of_nat n))
                                 (sextet url_alphabet (Z.of_nat m)))
                      (Nat.eqb n m))
    eq_refl (Z.to_nat i) (Z.to_nat j)) as C.
  cbv beta in C. rewrite !Z2Nat.id in C by lia.
  rewrite H, Ascii.eqb_refl in C. apply C; lia.
Qed.

Lemma sextet_url_not_pad i : 0 <= i < 64 -> sextet url_alphabet i <> pad.
Proof.
  intros Hi H.
  pose proof (forall_below2 64
    (fun n _ => negb (Ascii.eqb (sextet url_alphabet (Z.of_nat n)) pad))
    eq_refl (Z.to_nat i) 0%nat) as C.
  cbv beta in C. rewrite Z2Nat.id in C by lia.
  rewrite H, Ascii.eqb_refl in C. discriminate C; lia.
Qed.

Lemma six_ranges a b c :
  0 <= a < 256 -> 0 <= b < 256 -> 0 <= c < 256 ->
  0 <= six1 a < 64 /\ 0 <= six2 a b < 64 /\ 0 <= six3 b c < 64 /\ 0 <= six4 c < 64.
Proof.
  intros Ha Hb Hc.
  rewrite six1_arith, six2_arith, six3_arith, six4_arith by assumption.
  repeat split; Z.div_mod_to_equations; lia.
Qed.

(** A group of three bytes is determined by its four characters. *)
Lemma group_inj a b c a' b' c' :
  0 <= a < 256 -> 0 <= b < 256 -> 0 <= c < 256 ->
  0 <= a' < 256 -> 0 <= b' < 256 -> 0 <= c' < 256 ->
  sextet url_alphabet (six1 a) = sextet url_alphabet (six1 a') ->
  sextet url_alphabet (six2 a b) = sextet url_alphabet (six2 a' b') ->
  sextet url_alphabet (six3 b c) = sextet url_alphabet (six3 b' c') ->
  sextet url_alphabet (six4 c) = sextet url_alphabet (six4 c') ->
  a = a' /\ b = b' /\ c = c'.
Proof.
  intros Ha Hb Hc Ha' Hb' Hc' H1 H2 H3 H4.
  destruct (six_ranges a b c Ha Hb Hc) as (R1 & R2 & R3 & R4).
  destruct (six_ranges a' b' c' Ha' Hb' Hc') as (R1' & R2' & R3' & R4').
  apply sextet_url_inj in H1, H2, H3, H4; try assumption.
  rewrite !six1_arith in H1 by assumption.
  rewrite !six2_arith in H2 by assumption.
  rewrite !six3_arith in H3 by assumption.
  rewrite !six4_arith in H4 by assumption.
  Z.div_mod_to_equations. lia.
Qed.

Lemma base64url_inj : forall bs1 bs2 : list byte,
  base64url bs1 = base64url bs2 -> bs1 = bs2.
Proof.
  unfold base64url.
  assert (Z0 : 0 <= 0 < 256) by lia.
  assert (R3 : forall b c : byte, 0 <= six3 (byteZ b) (byteZ c) < 64).
  { intros b c. apply (six_ranges 0 (byteZ b) (byteZ c)); auto using byteZ_range. }
  assert (R3' : forall b : byte, 0 <= six3 (byteZ b) 0 < 64).
  { intros b. apply (six_ranges 0 (byteZ b) 0); auto using byteZ_range. }
  assert (R4 : forall c : byte, 0 <= six4 (byteZ c) < 64).
  { intros c. apply (six_ranges 0 0 (byteZ c)); auto using byteZ_range. }
  induction bs1 as [|a|a b|a b c l IH] using list_ind3;
    intros [|a' [|b' [|c' l']]]; cbn [encode_with]; intro H;
    try reflexivity; try discriminate H.
  all: repeat match goal with
       | E : String _ _ = String _ _ |- _ => injection E as ? E
       | E : String _ _ = String _ _ |- _ => injection E as E
       end.
  all: try (exfalso;
            match goal with
            | E : sextet url_alphabet ?i = pad |- _ =>
                revert E; apply sextet_url_not_pad; auto
            | E : pad = sextet url_alphabet ?i |- _ =>
                symmetry in E; revert E; apply sextet_url_not_pad; auto
            end; fail).
  - (* one byte each *)
    match goal with
    | E1 : sextet _ (six1 _) = _, E2 : sextet _ (six2 _ _) = _ |- _ =>
        destruct (group_inj _ 0 0 _ 0 0 (byteZ_range a) Z0 Z0 (byteZ_range a') Z0 Z0
                    E1 E2 eq_refl eq_refl) as (E & _)
    end.
    apply byteZ_inj in E. now subst.
  - (* two bytes each *)
    match goal with
    | E1 : sextet _ (six1 _) = _, E2 : sextet _ (six2 _ _) = _,
      E3 : sextet _ (six3 _ _) = _ |- _ =>
        destruct (group_inj _ _ 0 _ _ 0 (byteZ_range a) (byteZ_range b) Z0
                    (byteZ_range a') (byteZ_range b') Z0 E1 E2 E3 eq_refl)
          as (Ea & Eb & _)
    end.
    apply byteZ_inj in Ea, Eb. now subst.
  - (* a full group each *)
    match goal with
    | E1 : sextet _ (six1 _) = _, E2 : sextet _ (six2 _ _) = _,
      E3 : sextet _ (six3 _ _) = _, E4 : sextet _ (six4 _) = _ |- _ =>
        destruct (group_inj _ _ _ _ _ _ (byteZ_range a) (byteZ_range b) (byteZ_range c)
                    (byteZ_range a') (byteZ_range b') (byteZ_range c') E1 E2 E3 E4)
          as (Ea & Eb & Ec)
    end.
    apply byteZ_inj in Ea, Eb, Ec. subst. f_equal. f_equal. f_equal. now apply IH.
Qed.
End Base64More.

(** X1.  Two different tokens never share a deep link, hence never a
    scannable code: [login_url] is injective. *)
Theorem distinct_tokens_distinct_links (token1 token2 : list byte) :
  token1 <> token2 -> QrAuth.login_url token1 <> QrAuth.login_url token2.
Proof.
  intros Hne H. apply Hne.
  unfold QrAuth.login_url in H. cbn [append] in H.
  injection H as H. rewrite !urlsafe_b64encode_base64url in H.
  now apply base64url_inj.
Qed.

Lemma distinct_tokens_distinct_links_witness :
  [x01; x02] <> [x01; x03]
  /\ QrAuth.login_url [x01; x02] <> QrAuth.login_url [x01; x03].
Proof.
  split; [discriminate|].
  apply (distinct_tokens_distinct_links [x01; x02] [x01; x03]). discriminate.
Defined.

(** X2.  The text [generate_qr] puts after "tg://login?token=" is made of
    letters, digits, "-", "_" and "=" only, so the deep link needs no
    escaping; it holds four characters for every three bytes of the token,
    the last group padded. *)
Theorem deep_link_payload (token : list byte) (w : QrAuth.world) :
  let payload := Base64.urlsafe_b64encode token in
  QrAuth.generate_qr token w
  = (Returns tt, w, [PrintAsciiQR [("tg://login?token=" ++ payload)%string]])
  /\ Base64.string_forallb Base64.url_safe_char payload = true
  /\ String.length payload = (4 * ((List.length token + 2) / 3))%nat
  /\ String.length (QrAuth.login_url token)
     = (17 + 4 * ((List.length token + 2) / 3))%nat.
Proof.
  cbv zeta. unfold QrAuth.login_url.
  rewrite urlsafe_b64encode_base64url.
  conjs.
  - unfold QrAuth.generate_qr, emit. cbn. now rewrite urlsafe_b64encode_base64url.
  - apply base64url_url_safe.
  - apply base64url_length.
  - cbn [append String.length]. now rewrite base64url_length.
Qed.

Section QrSessionFacts.
Import QrAuth Readings.
Local Open Scope list_scope.

(** Running [check_session] through its seven cases. *)
Ltac session_cases e w :=
  unfold check_session, switch_succeeds, first_failure, stops_old_session; run;
  destruct (has_session (cl w) && is_connected (cl w)); run;
  [destruct (session_stop e) as [[]|?]; run|];
  (destruct (auth_create e); run;
   [destruct (session_start e) as [[|]|?]; run|]).

Lemma check_session_eq (e : check_session_env) (dc : Z) (w : world) :
  check_session e dc w
  = (Returns (switch_succeeds e w), world_of (check_session e dc w),
     trace_of (check_session e dc w)).
Proof. session_cases e w; reflexivity. Qed.

Lemma check_session_emits (e : check_session_env) (dc : Z) (w : world) :
  Forall (fun x => session_event x = true) (trace_of (check_session e dc w)).
Proof. session_cases e w; repeat constructor. Qed.

Lemma handle_2fa_eq (e : twofa_env) (w : world) :
  handle_2fa e w = (Returns (accepted e), w, trace_of (handle_2fa e w)).
Proof.
  unfold handle_2fa, accepted. run.
  destruct (password e) as [pw|ex]; run;
    [destruct (check_password e) as [[]|ex]; run|];
    try (destruct (is_PasswordHashInvalid ex); run;
         [|destruct (is_FloodWait ex); run]);
    reflexivity.
Qed.

Lemma handle_2fa_emits (e : twofa_env) (w : world) :
  Forall (fun x => twofa_event x = true) (trace_of (handle_2fa e w)).
Proof.
  unfold handle_2fa. run.
  destruct (password e) as [pw|ex]; run;
    [destruct (check_password e) as [[]|ex]; run|];
    try (destruct (is_PasswordHashInvalid ex); run;
         [|destruct (is_FloodWait ex); run]);
    repeat constructor.
Qed.

(** A filter that rejects what a stretch of trace is made of. *)
Lemma filter_none {A} (p q : A -> bool) (t : list A) :
  (forall x, q x = true -> p x = false) ->
  Forall (fun x => q x = true) t -> filter p t = [].
Proof.
  intros H. induction 1 as [|x t Hx _ IH]; [reflexivity|].
  cbn. now rewrite (H x Hx).
Qed.

(** X3.  [check_session] never raises: it returns [True] only when each of its
    library calls succeeded and the new session reports that it started,
    and [False] otherwise.  It stops the old session only when there is a
    connected one, creates the key and starts the session for the data
    center it was asked for, makes no library call after the first one
    that raised, and logs that exception, once. *)
Theorem check_session_outcome (e : check_session_env) (dc : Z) (w : world) :
  let r := check_session e dc w in
  result_of r
  = Returns (match first_failure e w, session_start e with
             | None, Gives started => started
             | _, _ => false
             end)
  /\ filter is_session_call (trace_of r)
     = (if stops_old_session w then [Call SessionStop] else [])
       ++ match (if stops_old_session w then session_stop e else Gives tt) with
          | Throws _ => []
          | Gives _ =>
              Call (AuthCreate dc)
              :: match auth_create e with
                 | Throws _ => []
                 | Gives _ => [Call (SessionStart dc)]
                 end
          end
  /\ filter is_error_log (trace_of r)
     = match first_failure e w with
       | Some ex => [Log ERROR [Str "Error in check_session: "; ExcStr ex]]
       | None => []
       end.
Proof.
  cbv zeta. session_cases e w; conjs; reflexivity.
Qed.

(** X4.  What [check_session] leaves of the client.  When it returns [True],
    the stored data center, the stored key and the session all are the
    new ones.  When the key cannot be created, the stored data center
    already is the new one while the key and the session still are the
    old ones.  When the old session cannot be stopped, the client is as it
    was.  The events, [nearest_dc], the tasks and [is_connected] are never
    touched. *)
Theorem check_session_client (e : check_session_env) (dc : Z) (w : world) :
  let r := check_session e dc w in
  let c := cl (world_of r) in
  (result_of r = Returns true ->
   storage_dc_id c = dc /\ session_dc c = Some dc /\ has_session c = true
   /\ auth_create e = Gives (storage_auth_key c))
  /\ (forall ex, (if stops_old_session w then session_stop e else Gives tt) = Gives tt ->
      auth_create e = Throws ex ->
      storage_dc_id c = dc
      /\ storage_auth_key c = storage_auth_key (cl w)
      /\ session_dc c = session_dc (cl w)
      /\ has_session c = has_session (cl w))
  /\ (forall ex, stops_old_session w = true -> session_stop e = Throws ex -> c = cl w)
  /\ is_connected c = is_connected (cl w)
  /\ SESSION_CREATED (world_of r) = SESSION_CREATED w
  /\ DC_MIGRATED (world_of r) = DC_MIGRATED w
  /\ nearest_dc (world_of r) = nearest_dc w
  /\ tasks (world_of r) = tasks w.
Proof.
  cbv zeta. unfold stops_old_session.
  unfold check_session; run.
  destruct (has_session (cl w) && is_connected (cl w)); run;
    [destruct (session_stop e) as [[]|?]; run|];
    (destruct (auth_create e); run;
     [destruct (session_start e) as [[|]|?]; run|]).
  all: cbn [result_of world_of fst snd cl set_cl set_session set_storage_auth_key
            set_storage_dc_id storage_dc_id session_dc has_session storage_auth_key
            is_connected SESSION_CREATED DC_MIGRATED nearest_dc tasks].
  all: conjs; try reflexivity; try discriminate; intros; try discriminate;
    conjs; try reflexivity.
  all: destruct (cl w); reflexivity.
Qed.

Lemma check_session_client_witness :
  let r := check_session Scenarios.switch_ok 4 Scenarios.w0 in
  result_of r = Returns true
  /\ storage_dc_id (cl (world_of r)) = 4
  /\ session_dc (cl (world_of r)) = Some 4.
Proof.
  cbv zeta. split; [reflexivity|].
  destruct (check_session_client Scenarios.switch_ok 4 Scenarios.w0) as (H & _).
  destruct (H eq_refl) as (H1 & H2 & _). split; assumption.
Defined.

(** X5.  [handle_2fa] never raises and leaves the world as it is.  It asks for
    the secret once, checks it at most once, with the text that was typed,
    and never sleeps; it returns [True] exactly when the secret was typed
    and the library accepted it, and logs one error otherwise. *)
Theorem handle_2fa_outcome (e : twofa_env) (w : world) :
  let r := handle_2fa e w in
  result_of r = Returns (accepted e)
  /\ world_of r = w
  /\ filter is_getpass (trace_of r) = [GetPass "Enter your 2FA password: "]
  /\ filter (is_call (CheckPassword "")) (trace_of r)
     = match password e with
       | Gives pw => [Call (CheckPassword pw)]
       | Throws _ => []
       end
  /\ filter is_sleep (trace_of r) = []
  /\ List.length (filter is_error_log (trace_of r)) = (if accepted e then 0 else 1)%nat.
Proof.
  cbv zeta. unfold handle_2fa, accepted. run.
  destruct (password e) as [pw|ex]; run;
    [destruct (check_password e) as [[]|ex]; run|];
    try (destruct (is_PasswordHashInvalid ex); run;
         [|destruct (is_FloodWait ex); run]);
    conjs; reflexivity.
Qed.
End QrSessionFacts.

Section QrHandlerFacts.
Import QrAuth Readings.
Local Open Scope list_scope.

(** An update that is not [UpdateLoginToken]: nothing happens, unless it
    is an [auth.LoginToken] while [nearest_dc] differs from the stored
    data center. *)
Lemma handler_other (e : handler_env) (u : update) (w : world) :
  is_UpdateLoginToken u = false ->
  raw_update_handler e u w
  = match u, nearest_dc w with
    | AuthLoginToken, Some ndc =>
        if ndc =? storage_dc_id (cl w) then (Returns tt, w, [])
        else (Returns tt, world_of (check_session (realign e) ndc w),
              Log INFO [Str "DC mismatch detected. Switching from DC ";
                        Num (storage_dc_id (cl w)); Str " to DC "; Num ndc]
              :: trace_of (check_session (realign e) ndc w))
    | _, _ => (Returns tt, w, [])
    end.
Proof.
  intro Hu. destruct u; [discriminate Hu| |].
  - unfold raw_update_handler. run.
    destruct (nearest_dc w) as [ndc|]; [|reflexivity].
    cbn [andb]. destruct (ndc =? storage_dc_id (cl w)); cbn [negb]; [reflexivity|].
    run. rewrite check_session_eq. cbn [app]. now rewrite !app_nil_r.
  - unfold raw_update_handler. run.
    destruct (nearest_dc w) as [ndc|]; reflexivity.
Qed.

(** The scan of a code, by what the library answers. *)
Lemma handler_scan (e : handler_env) (w : world) :
  let scanned := [Log INFO [Str "QR code was scanned! Processing login..."];
                  Call ExportLoginToken] in
  raw_update_handler e UpdateLoginToken w
  = match export_token e with
    | Gives LoginTokenSuccess =>
        (Returns tt, set_SESSION_CREATED true w,
         scanned ++ Log INFO [Str "Authentication successful!"]
         :: finalization (get_me e) (export_session_string e) "Error getting user info: ")
    | Gives (LoginTokenMigrateTo dc) =>
        (Returns tt, set_DC_MIGRATED true (world_of (check_session (switch e) dc w)),
         scanned ++ Log INFO [Str "Need to migrate to DC "; Num dc]
         :: trace_of (check_session (switch e) dc w)
         ++ [if switch_succeeds (switch e) w
             then Log INFO [Str "Session switched to DC "; Num dc]
             else Log ERROR [Str "Failed to switch to DC "; Num dc];
             Print [Str nl; Str "Migrating to DC "; Num dc;
                    Str ". A new QR code will be generated soon..."]])
    | Gives _ => (Returns tt, w, scanned)
    | Throws ex =>
        if is_SessionPasswordNeeded ex then
          (Returns tt,
           (if accepted (twofa e) && is_success (export_token_2 e)
            then set_SESSION_CREATED true w else w),
           scanned ++ trace_of (handle_2fa (twofa e) w)
           ++ (if accepted (twofa e) then
                 Call ExportLoginToken
                 :: match export_token_2 e with
                    | Gives LoginTokenSuccess =>
                        Log INFO [Str "Login successful after 2FA!"]
                        :: finalization (get_me_2 e) (export_session_string_2 e)
                             "Error getting user info after 2FA: "
                    | Gives _ => []
                    | Throws ex2 => [Log ERROR [Str "Error after 2FA: "; ExcStr ex2]]
                    end
               else []))
        else
          (Returns tt, w,
           scanned ++ [Log ERROR [Str "Error handling login token update: "; ExcStr ex]])
    end.
Proof.
  cbv zeta. unfold raw_update_handler. run.
  destruct (nearest_dc w); cbn [andb]; run.
  all: destruct (export_token e) as [[token|dc| |name]|ex]; run;
    [ reflexivity
    | rewrite check_session_eq; destruct (switch_succeeds (switch e) w); run;
      cbn [app]; rewrite ?app_nil_r, <- ?app_assoc; reflexivity
    | unfold finalization;
      destruct (get_me e); run; [destruct (export_session_string e); run|]; reflexivity
    | reflexivity
    | ].
  all: destruct (is_SessionPasswordNeeded ex); run; [|reflexivity].
  all: rewrite handle_2fa_eq; destruct (accepted (twofa e)); cbn [andb]; run;
    [|cbn [app]; now rewrite !app_nil_r].
  all: unfold finalization, is_success;
    destruct (export_token_2 e) as [[token|dc| |name]|ex2]; run;
    try (cbn [app]; rewrite ?app_nil_r; reflexivity).
  all: destruct (get_me_2 e); run; [destruct (export_session_string_2 e); run|];
    cbn [app]; rewrite ?app_nil_r; reflexivity.
Qed.

Lemma calls_app c a b : calls c (a ++ b) = (calls c a + calls c b)%nat.
Proof. unfold calls. now rewrite filter_app, length_app. Qed.

Lemma handle_2fa_prompts (e : twofa_env) (w : world) :
  filter is_getpass (trace_of (handle_2fa e w)) = [GetPass "Enter your 2FA password: "].
Proof.
  unfold handle_2fa. run.
  destruct (password e) as [pw|ex]; run;
    [destruct (check_password e) as [[]|ex]; run|];
    try (destruct (is_PasswordHashInvalid ex); run;
         [|destruct (is_FloodWait ex); run]);
    reflexivity.
Qed.

(** X6.  No run of the update handler raises: whatever the library answers,
    the handler returns.  It never sleeps, never waits and never renders
    a code, and it leaves the tasks and [nearest_dc] as they are. *)
Theorem handler_never_raises (e : handler_env) (u : update) (w : world) :
  let r := raw_update_handler e u w in
  result_of r = Returns tt
  /\ tasks (world_of r) = tasks w
  /\ nearest_dc (world_of r) = nearest_dc w
  /\ filter is_sleep (trace_of r) = []
  /\ filter is_wait (trace_of r) = []
  /\ codes_issued (trace_of r) = 0%nat.
Proof.
  cbv zeta.
  destruct (raw_update_handler_sat e u w) as ((Ht & Hn & _) & Hq & _).
  conjs; auto.
  - destruct u.
    + rewrite handler_scan.
      destruct (export_token e) as [[?|?| |?]|ex]; try reflexivity.
      destruct (is_SessionPasswordNeeded ex); reflexivity.
    + rewrite handler_other by reflexivity.
      destruct (nearest_dc w) as [ndc|]; [|reflexivity].
      destruct (ndc =? storage_dc_id (cl w)); reflexivity.
    + rewrite handler_other by reflexivity. destruct (nearest_dc w); reflexivity.
  - apply quiet_count; [|exact Hq].
    intros x Hx. unfold coordinator_only. rewrite Hx. now rewrite !orb_true_r.
  - apply quiet_count; [|exact Hq].
    intros x Hx. unfold coordinator_only. rewrite Hx. now rewrite !orb_true_r.
  - now apply quiet_no_code.
Qed.

(** X7.  Which events a run of the handler sets.  [SESSION_CREATED] is set by
    the scan of a code whose token request is answered by the success
    variant, at once or after an accepted 2FA secret, and by nothing
    else; [DC_MIGRATED] is set by a scan answered by a migration, and by
    nothing else: a migration answered after 2FA sets no event.  An
    event that is set stays set. *)
Theorem handler_signals (e : handler_env) (u : update) (w : world) :
  let r := raw_update_handler e u w in
  SESSION_CREATED (world_of r)
  = SESSION_CREATED w || (is_UpdateLoginToken u && confirms e)
  /\ DC_MIGRATED (world_of r)
     = DC_MIGRATED w || (is_UpdateLoginToken u && migrates e).
Proof.
  cbv zeta. destruct u; cbn [is_UpdateLoginToken andb].
  - rewrite handler_scan. unfold confirms, migrates.
    destruct (export_token e) as [[?|dc| |?]|ex];
      cbn [world_of fst snd SESSION_CREATED DC_MIGRATED set_SESSION_CREATED set_DC_MIGRATED];
      rewrite ?orb_false_r, ?orb_true_r; try (split; reflexivity).
    + destruct (check_session_flags (switch e) dc w) as [-> _]. split; reflexivity.
    + destruct (is_SessionPasswordNeeded ex); cbn [andb world_of fst snd];
        [|rewrite ?orb_false_r; split; reflexivity].
      destruct (accepted (twofa e) && is_success (export_token_2 e));
        cbn [SESSION_CREATED DC_MIGRATED set_SESSION_CREATED];
        rewrite ?orb_false_r, ?orb_true_r; split; reflexivity.
  - rewrite handler_other by reflexivity. rewrite !orb_false_r.
    destruct (nearest_dc w) as [ndc|]; [|split; reflexivity].
    destruct (ndc =? storage_dc_id (cl w)); [split; reflexivity|].
    cbn [world_of fst snd]. apply check_session_flags.
  - rewrite handler_other by reflexivity. rewrite !orb_false_r.
    destruct (nearest_dc w); split; reflexivity.
Qed.
End QrHandlerFacts.

Section QrHandlerCalls.
Import QrAuth Readings.
Local Open Scope list_scope.

Lemma session_event_no_call c x : session_event x = true -> is_call c x = false.
Proof. destruct x as [| | | | | | | |[]|], c; cbn; congruence. Qed.

Lemma session_event_no_getpass x : session_event x = true -> is_getpass x = false.
Proof. destruct x as [| | | | | | | |[]|]; cbn; congruence. Qed.

Lemma session_event_no_print x : session_event x = true -> is_print x = false.
Proof. destruct x as [| | | | | | | |[]|]; cbn; congruence. Qed.

Lemma twofa_event_no_call c :
  (match c with CheckPassword _ => false | _ => true end) = true ->
  forall x, twofa_event x = true -> is_call c x = false.
Proof. intros Hc x. destruct x as [| | | | | | | |[]|], c; cbn in *; congruence. Qed.

Lemma twofa_event_no_print x : twofa_event x = true -> is_print x = false.
Proof. destruct x as [| | | | | | | |[]|]; cbn; congruence. Qed.

Ltac push_filters :=
  repeat first [rewrite filter_app | progress cbn [filter app is_call is_getpass is_print]].

Ltac drop_session_filters :=
  rewrite ?(filter_none _ _ _ (session_event_no_call ExportLoginToken)
              (check_session_emits _ _ _)),
          ?(filter_none _ _ _ (session_event_no_call GetMe)
              (check_session_emits _ _ _)),
          ?(filter_none _ _ _ (session_event_no_call ExportSessionString)
              (check_session_emits _ _ _)),
          ?(filter_none _ _ _ session_event_no_getpass (check_session_emits _ _ _)),
          ?(filter_none _ _ _ session_event_no_print (check_session_emits _ _ _)).

Ltac drop_2fa_filters :=
  rewrite ?handle_2fa_prompts,
          ?(filter_none _ _ _ (twofa_event_no_call ExportLoginToken eq_refl)
              (handle_2fa_emits _ _)),
          ?(filter_none _ _ _ (twofa_event_no_call GetMe eq_refl)
              (handle_2fa_emits _ _)),
          ?(filter_none _ _ _ (twofa_event_no_call ExportSessionString eq_refl)
              (handle_2fa_emits _ _)),
          ?(filter_none _ _ _ twofa_event_no_print (handle_2fa_emits _ _)).

(** X8.  The calls of one run of the handler.  It requests the login token
    once for a scan and once more after an accepted 2FA secret, and not
    at all for another update; it asks for the secret once when the scan
    needs one, and never otherwise; it asks for the identity exactly
    when the scan is a confirmation, and once; it exports the session
    string at most once, and only after the identity; it prints nothing
    but the session string it exported and, for a migration, the notice
    of it. *)
Theorem handler_calls (e : handler_env) (u : update) (w : world) :
  let t := trace_of (raw_update_handler e u w) in
  token_requests t
  = (if is_UpdateLoginToken u
     then (if asks_secret e && accepted (twofa e) then 2 else 1)
     else 0)%nat
  /\ List.length (filter is_getpass t)
     = (if is_UpdateLoginToken u && asks_secret e then 1 else 0)%nat
  /\ calls GetMe t = (if is_UpdateLoginToken u && confirms e then 1 else 0)%nat
  /\ (calls ExportSessionString t <= calls GetMe t)%nat
  /\ (List.length (filter is_print t) <= calls ExportSessionString t
      + (if is_UpdateLoginToken u && migrates e then 1 else 0))%nat.
Proof.
  cbv zeta. unfold token_requests.
  destruct u; cbn [is_UpdateLoginToken andb].
  - rewrite handler_scan. unfold confirms, migrates, asks_secret, finalization, is_success.
    destruct (export_token e) as [[?|dc| |?]|ex].
    + cbn. conjs; lia.
    + cbn [trace_of snd andb]. unfold calls.
      push_filters. drop_session_filters.
      destruct (switch_succeeds (switch e) w); cbn; conjs; lia.
    + destruct (get_me e); [destruct (export_session_string e)|]; cbn; conjs; lia.
    + cbn. conjs; lia.
    + destruct (is_SessionPasswordNeeded ex); cbn [andb]; [|cbn; conjs; lia].
      cbn [trace_of snd]. unfold calls.
      push_filters. drop_2fa_filters.
      destruct (accepted (twofa e)); cbn [andb]; [|cbn; conjs; lia].
      destruct (export_token_2 e) as [[?|?| |?]|?]; try (cbn; conjs; lia).
      destruct (get_me_2 e); [destruct (export_session_string_2 e)|]; cbn; conjs; lia.
  - rewrite handler_other by reflexivity.
    destruct (nearest_dc w) as [ndc|]; [|cbn; conjs; lia].
    destruct (ndc =? storage_dc_id (cl w)); [cbn; conjs; lia|].
    cbn [trace_of snd]. unfold calls. push_filters. drop_session_filters.
    cbn. conjs; lia.
  - rewrite handler_other by reflexivity. destruct (nearest_dc w); cbn; conjs; lia.
Qed.

(** X9.  An update that is not [UpdateLoginToken] is ignored: no token is
    requested, no secret asked for, nothing printed.  All it can start is
    the move of the session to [nearest_dc], and only for an
    [auth.LoginToken] update while [nearest_dc] is set and differs from
    the stored data center; otherwise the run emits nothing and leaves the
    world as it is. *)
Theorem other_updates_are_ignored (e : handler_env) (u : update) (w : world) :
  is_UpdateLoginToken u = false ->
  let r := raw_update_handler e u w in
  let realigns := match u, nearest_dc w with
                  | AuthLoginToken, Some ndc => negb (ndc =? storage_dc_id (cl w))
                  | _, _ => false
                  end in
  token_requests (trace_of r) = 0%nat
  /\ filter is_getpass (trace_of r) = []
  /\ filter is_print (trace_of r) = []
  /\ SESSION_CREATED (world_of r) = SESSION_CREATED w
  /\ DC_MIGRATED (world_of r) = DC_MIGRATED w
  /\ (realigns = false -> r = (Returns tt, w, []))
  /\ (realigns = true ->
      exists ndc, nearest_dc w = Some ndc
      /\ world_of r = world_of (check_session (realign e) ndc w)
      /\ filter is_session_call (trace_of r)
         = filter is_session_call (trace_of (check_session (realign e) ndc w))).
Proof.
  intros Hu. cbv zeta. rewrite (handler_other e u w Hu). unfold token_requests, calls.
  destruct u; [discriminate Hu| |].
  - destruct (nearest_dc w) as [ndc|]; [|cbn; conjs; auto; discriminate].
    destruct (ndc =? storage_dc_id (cl w)); cbn [negb];
      [cbn; conjs; auto; discriminate|].
    cbn [trace_of world_of fst snd filter is_call is_getpass is_print is_session_call].
    drop_session_filters.
    destruct (check_session_flags (realign e) ndc w) as [Hs Hd].
    conjs; auto; [discriminate|]. intros _. exists ndc. conjs; reflexivity.
  - destruct (nearest_dc w); cbn; conjs; auto; discriminate.
Qed.

Lemma other_updates_are_ignored_witness :
  raw_update_handler Scenarios.wrong_secret OtherUpdate Scenarios.w0
  = (Returns tt, Scenarios.w0, []).
Proof.
  destruct (other_updates_are_ignored Scenarios.wrong_secret OtherUpdate Scenarios.w0
              eq_refl) as (_ & _ & _ & _ & _ & H & _).
  apply H. reflexivity.
Defined.
End QrHandlerCalls.

Section QrRuns.
Import QrAuth Readings.
Local Open Scope list_scope.

Lemma last_after {A} (a b : list A) (d : A) : b <> [] -> last (a ++ b) d = last b d.
Proof.
  intro Hb. induction a as [|y a IH]; [reflexivity|].
  cbn [app]. destruct (a ++ b) eqn:E.
  - destruct a; [contradiction | discriminate E].
  - rewrite <- IH. reflexivity.
Qed.

(** How a pass can leave [create_qrcodes]. *)
Lemma pass_exit ie l w :
  exists c w' t,
    loop_body ie l w = (Returns c, w', t)
    /\ match c with
       | Continue _ => True
       | Return ReturnSessionCreated _ => SESSION_CREATED w' = true
       | Return ReturnMaxCodes _ =>
           DC_MIGRATED w' = false
           /\ last t (Sleep 0) = Print [Str "Please try again later."]
       | Return WhileTestFalse _ => False
       end.
Proof.
  rewrite loop_body_run.
  match goal with |- context [if ?b then _ else _] =>
    lazymatch b with (MAX_QR_CODES <? _) => destruct b end end.
  - rewrite grace_run. cbn [result_of world_of trace_of fst snd].
    do 3 eexists. split; [reflexivity|].
    match goal with |- context [DC_MIGRATED (world_of (deliver ?ds ?w1))] =>
      destruct (DC_MIGRATED (world_of (deliver ds w1))) eqn:Hdm end; [exact I|].
    split; [reflexivity|].
    match goal with |- last (?pre ++ ?a :: ?b :: ?t ++ [?p]) _ = _ =>
      change (pre ++ a :: b :: t ++ [p]) with (pre ++ [a; b] ++ t ++ [p]);
      rewrite !app_assoc; apply last_last end.
  - rewrite issue_run.
    destruct (token_request ie) as [[token|dc| |name]|ex];
      cbn [result_of world_of trace_of fst snd];
      try (do 3 eexists; split; [reflexivity|exact I]).
    rewrite race_spec. cbn [result_of world_of trace_of fst snd].
    do 3 eexists. split; [reflexivity|].
    match goal with |- context [if ?sc then Return _ _ else _] => destruct sc end;
      [reflexivity | exact I].
Qed.

Lemma passes_returns s : forall l w,
  exists c, result_of (passes s l w) = Returns c.
Proof.
  induction s as [|ie s IH]; intros l w; [eexists; reflexivity|].
  destruct (SESSION_CREATED w) eqn:Hs.
  { cbn [passes]. unfold bind, get. rewrite Hs. eexists. reflexivity. }
  destruct (pass_facts ie l w) as (c & w1 & body & E & _).
  rewrite (passes_cons _ _ _ _ _ _ _ Hs E).
  destruct c as [l'|x l']; [|eexists; reflexivity].
  apply IH.
Qed.

(** A run of [create_qrcodes] is the passes of its script; it is
    unfinished when the script ends at the head of the loop with
    [SESSION_CREATED] clear. *)
Lemma create_qrcodes_from_passes s : forall l w,
  world_of (create_qrcodes_from s l w) = world_of (passes s l w)
  /\ trace_of (create_qrcodes_from s l w) = trace_of (passes s l w)
  /\ result_of (create_qrcodes_from s l w)
     = match result_of (passes s l w) with
       | Returns (Return x _) => Returns x
       | Returns (Continue _) =>
           if SESSION_CREATED (world_of (passes s l w))
           then Returns WhileTestFalse else Unfinished
       | Raises ex => Raises ex
       | Unfinished => Unfinished
       end.
Proof.
  induction s as [|ie s IH]; intros l w.
  - cbn [create_qrcodes_from passes]. unfold bind, get, ret.
    cbn [world_of trace_of result_of fst snd].
    destruct (SESSION_CREATED w); conjs; reflexivity.
  - destruct (SESSION_CREATED w) eqn:Hs.
    { rewrite create_qrcodes_from_test by assumption.
      cbn [passes]. unfold bind, get. rewrite Hs. conjs; reflexivity. }
    destruct (pass_facts ie l w) as (c & w1 & body & E & _).
    rewrite (passes_cons _ _ _ _ _ _ _ Hs E),
            (create_qrcodes_from_cons _ _ _ _ _ _ _ Hs E).
    destruct c as [l'|x l']; cbn [world_of trace_of result_of fst snd];
      [|conjs; reflexivity].
    destruct (IH l' w1) as (Hw & Ht & Hr). rewrite Hw, Ht, Hr. conjs; reflexivity.
Qed.

(** The way a sequence of passes ends. *)
Lemma passes_exit s : forall l w c w' t,
  passes s l w = (Returns c, w', t) ->
  match c with
  | Continue _ => True
  | Return ReturnSessionCreated _ | Return WhileTestFalse _ => SESSION_CREATED w' = true
  | Return ReturnMaxCodes _ =>
      DC_MIGRATED w' = false
      /\ last t (Sleep 0) = Print [Str "Please try again later."]
  end.
Proof.
  induction s as [|ie s IH]; intros l w c w' t H.
  - cbn in H. injection H as <- _ _. exact I.
  - destruct (SESSION_CREATED w) eqn:Hs.
    { cbn [passes] in H. unfold bind, get in H. rewrite Hs in H.
      injection H as <- <- _. exact Hs. }
    destruct (pass_exit ie l w) as (c1 & w1 & t1 & E & Hx).
    rewrite (passes_cons _ _ _ _ _ _ _ Hs E) in H.
    destruct c1 as [l1|x l1].
    + destruct (passes s l1 w1) as [[r w2] t2] eqn:Ep.
      cbn [result_of world_of trace_of fst snd] in H.
      injection H as -> <- <-.
      specialize (IH _ _ _ _ _ Ep).
      destruct c as [|[| |]]; auto.
      destruct IH as [Hd Hl]. split; [exact Hd|].
      rewrite last_after; [exact Hl|]. intros ->. discriminate Hl.
    + injection H as <- <- <-. destruct x; auto.
Qed.

(** X10.  [create_qrcodes] never raises: what the token request raises is
    caught in the loop, and what the handler raises stays in its task.
    It ends in one of three ways.  When it returns after the wait of
    lines 326-349 or at the test of the loop, [SESSION_CREATED] is set.
    When it gives up, [DC_MIGRATED] is not set and the last thing it did
    is to print "Please try again later.".  A run is unfinished only at
    the head of the loop, with [SESSION_CREATED] clear. *)
Theorem create_qrcodes_exits (script : list iter_env) (w : world) :
  let r := create_qrcodes script w in
  match result_of r with
  | Returns ReturnSessionCreated | Returns WhileTestFalse =>
      SESSION_CREATED (world_of r) = true
  | Returns ReturnMaxCodes =>
      DC_MIGRATED (world_of r) = false
      /\ last (trace_of r) (Sleep 0) = Print [Str "Please try again later."]
  | Raises _ => False
  | Unfinished => SESSION_CREATED (world_of r) = false
  end.
Proof.
  cbv zeta. unfold create_qrcodes.
  destruct (create_qrcodes_from_passes script initial_locals w) as (Hw & Ht & Hr).
  rewrite Hr, Hw, Ht.
  destruct (passes script initial_locals w) as [[r w'] t] eqn:Ep.
  destruct (passes_returns script initial_locals w) as [c Hc].
  rewrite Ep in Hc. cbn [result_of fst] in Hc. subst r.
  cbn [result_of world_of trace_of fst snd].
  pose proof (passes_exit _ _ _ _ _ _ Ep) as Hx.
  destruct c as [l'|[| |] l']; auto.
  destruct (SESSION_CREATED w') eqn:Hs; auto.
Qed.
End QrRuns.

Section QrBudget.
Import QrAuth Readings.
Local Open Scope list_scope.

Lemma resets_app a b : resets (a ++ b) = (resets a + resets b)%nat.
Proof. unfold resets. now rewrite filter_app, length_app. Qed.

Lemma no_reset_resets t : existsb is_reset t = false -> resets t = 0%nat.
Proof.
  unfold resets. induction t as [|e t IH]; [reflexivity|].
  cbn. destruct (is_reset e); [discriminate|]. exact IH.
Qed.

(** A pass entered with the counter at [MAX_QR_CODES] or above and no
    migration signalled renders no code. *)
Lemma pass_over_budget ie l w :
  DC_MIGRATED w = false -> MAX_QR_CODES <= qr_counter l ->
  codes_issued (trace_of (loop_body ie l w)) = 0%nat.
Proof.
  intros Hdm Hmax. rewrite loop_body_run, Hdm.
  assert (E : (MAX_QR_CODES <? qr_counter l + 1) = true) by (apply Z.ltb_lt; lia).
  cbn [qr_counter]. rewrite E. cbn [trace_of snd app].
  destruct (grace_facts ie {| qr_counter := qr_counter l + 1;
                              dc_migrated_flag := dc_migrated_flag l |} w)
    as (c & w' & t & Eg & _ & _ & Hc & _).
  rewrite Eg. exact Hc.
Qed.

(** The budget of codes, as an invariant of the passes: the codes
    rendered since the last reset are at most the counter and at most
    [MAX_QR_CODES]; all codes are at most [MAX_QR_CODES] for each reset,
    and the codes since the last one. *)
Lemma passes_budget s : forall l w t0 c w' t,
  Z.of_nat (codes_on_current_dc t0) <= qr_counter l ->
  Z.of_nat (codes_on_current_dc t0) <= MAX_QR_CODES ->
  Z.of_nat (codes_issued t0)
  <= MAX_QR_CODES * Z.of_nat (resets t0) + Z.of_nat (codes_on_current_dc t0) ->
  passes s l w = (Returns c, w', t) ->
  Z.of_nat (codes_on_current_dc (t0 ++ t)) <= qr_counter (locals_of c)
  /\ Z.of_nat (codes_on_current_dc (t0 ++ t)) <= MAX_QR_CODES
  /\ Z.of_nat (codes_issued (t0 ++ t))
     <= MAX_QR_CODES * Z.of_nat (resets (t0 ++ t))
        + Z.of_nat (codes_on_current_dc (t0 ++ t)).
Proof.
  unfold MAX_QR_CODES.
  induction s as [|ie s IH]; intros l w t0 c w' t Hc Hm Ht H.
  - cbn in H. injection H as <- _ <-. rewrite app_nil_r. auto.
  - destruct (SESSION_CREATED w) eqn:Hs.
    { cbn [passes] in H. unfold bind, get in H. rewrite Hs in H.
      injection H as <- _ <-. rewrite app_nil_r. auto. }
    destruct (pass_facts ie l w) as (c1 & w1 & body & E & Hn & Hr & Hcode & _).
    pose proof (pass_over_budget ie l w) as Hover. rewrite E in Hover.
    cbn [trace_of snd] in Hover. unfold MAX_QR_CODES in Hover.
    rewrite (passes_cons _ _ _ _ _ _ _ Hs E) in H.
    assert (Step :
      Z.of_nat (codes_on_current_dc
                  (t0 ++ (if DC_MIGRATED w
                          then [Log INFO [Str "DC migration detected, resetting QR code counter"]]
                          else []) ++ body))
      <= qr_counter (locals_of c1)
      /\ Z.of_nat (codes_on_current_dc
                  (t0 ++ (if DC_MIGRATED w
                          then [Log INFO [Str "DC migration detected, resetting QR code counter"]]
                          else []) ++ body)) <= 3
      /\ Z.of_nat (codes_issued
                  (t0 ++ (if DC_MIGRATED w
                          then [Log INFO [Str "DC migration detected, resetting QR code counter"]]
                          else []) ++ body))
         <= 3 * Z.of_nat (resets
                  (t0 ++ (if DC_MIGRATED w
                          then [Log INFO [Str "DC migration detected, resetting QR code counter"]]
                          else []) ++ body))
            + Z.of_nat (codes_on_current_dc
                  (t0 ++ (if DC_MIGRATED w
                          then [Log INFO [Str "DC migration detected, resetting QR code counter"]]
                          else []) ++ body))).
    { rewrite Hn. rewrite !codes_issued_app, !resets_app, (no_reset_resets _ Hr).
      destruct (DC_MIGRATED w).
      - rewrite codes_on_current_dc_app. cbn [app existsb is_reset].
        cbn [String.eqb Ascii.eqb Bool.eqb andb orb].
        rewrite codes_on_current_dc_after_reset by assumption.
        change (codes_issued [Log INFO [Str "DC migration detected, resetting QR code counter"]])
          with 0%nat.
        change (resets [Log INFO [Str "DC migration detected, resetting QR code counter"]])
          with 1%nat.
        lia.
      - cbn [app]. rewrite codes_on_current_dc_app, Hr.
        change (codes_issued []) with 0%nat. change (resets []) with 0%nat.
        destruct (Z_lt_le_dec (qr_counter l) 3) as [Hlt|Hge].
        + lia.
        + cbn [app] in Hover. rewrite (Hover eq_refl Hge). lia. }
    destruct Step as (S1 & S2 & S3).
    destruct c1 as [l1|x l1].
    + destruct (passes s l1 w1) as [[r w2] t2] eqn:Ep.
      cbn [result_of world_of trace_of fst snd] in H. injection H as -> <- <-.
      rewrite app_assoc. eapply IH; eauto.
    + injection H as <- _ <-. auto.
Qed.

(** X11.  The budget of codes.  In every run of [create_qrcodes], the codes
    rendered since the counter was last reset are at most
    [MAX_QR_CODES], and the codes rendered in all are at most
    [MAX_QR_CODES] for the start of the run and for each reset after a
    migration. *)
Theorem codes_per_data_center_bounded (script : list iter_env) (w : world) :
  let t := trace_of (create_qrcodes script w) in
  Z.of_nat (codes_on_current_dc t) <= MAX_QR_CODES
  /\ Z.of_nat (codes_issued t) <= MAX_QR_CODES * (Z.of_nat (resets t) + 1).
Proof.
  cbv zeta. unfold create_qrcodes.
  destruct (create_qrcodes_from_passes script initial_locals w) as (_ & -> & _).
  destruct (passes_returns script initial_locals w) as [c Hc].
  destruct (passes script initial_locals w) as [[r w'] t] eqn:Ep.
  cbn [result_of fst] in Hc. subst r. cbn [trace_of snd].
  destruct (passes_budget script initial_locals w [] c w' t) as (_ & H2 & H3); auto;
    try (cbn; unfold MAX_QR_CODES; lia).
  cbn [app] in H2, H3. split; [exact H2|]. lia.
Qed.
End QrBudget.

Section QrQuiet.
Import QrAuth Readings.
Local Open Scope list_scope.

Lemma token_requests_app a b :
  token_requests (a ++ b) = (token_requests a + token_requests b)%nat.
Proof. unfold token_requests, calls. now rewrite filter_app, length_app. Qed.

(** A pass below the budget during which no update arrives: one token
    request, a code when it is answered by a token and one back-off
    sleep when it is not, and the loop goes on with the pass counted. *)
Lemma pass_without_updates ie l w :
  no_updates ie ->
  SESSION_CREATED w = false -> DC_MIGRATED w = false ->
  qr_counter l < MAX_QR_CODES ->
  exists w' t,
    loop_body ie l w
    = (Returns (Continue {| qr_counter := qr_counter l + 1; dc_migrated_flag := false |}),
       w', t)
    /\ SESSION_CREATED w' = false /\ DC_MIGRATED w' = false /\ cl w' = cl w
    /\ token_requests t = 1%nat
    /\ codes_issued t = (if is_token (token_request ie) then 1 else 0)%nat
    /\ List.length (filter is_sleep t) = (if is_token (token_request ie) then 0 else 1)%nat
    /\ filter is_grace_wait t = [].
Proof.
  intros (H1 & H2 & H3 & H4 & H5) Hs Hd Hlt.
  rewrite loop_body_run, Hd.
  assert (E : (MAX_QR_CODES <? qr_counter l + 1) = false) by (apply Z.ltb_ge; lia).
  cbn [qr_counter dc_migrated_flag]. rewrite E. cbn [app].
  rewrite issue_run, H3, H5. cbn [deliver ret world_of trace_of result_of fst snd app].
  assert (Ha : token_requests
                 (trace_of (announce {| qr_counter := qr_counter l + 1;
                                        dc_migrated_flag := dc_migrated_flag l |} w)) = 0%nat
               /\ codes_issued
                 (trace_of (announce {| qr_counter := qr_counter l + 1;
                                        dc_migrated_flag := dc_migrated_flag l |} w)) = 0%nat
               /\ filter is_sleep
                 (trace_of (announce {| qr_counter := qr_counter l + 1;
                                        dc_migrated_flag := dc_migrated_flag l |} w)) = []
               /\ filter is_grace_wait
                 (trace_of (announce {| qr_counter := qr_counter l + 1;
                                        dc_migrated_flag := dc_migrated_flag l |} w)) = []).
  { unfold announce. cbn [dc_migrated_flag qr_counter].
    destruct (dc_migrated_flag l); [|destruct (qr_counter l + 1 =? 1)]; run;
      conjs; reflexivity. }
  destruct Ha as (A1 & A2 & A3 & A4).
  destruct (token_request ie) as [[token|dc| |name]|ex]; cbn [is_token].
  - rewrite race_spec, H4. cbn [deliver ret world_of trace_of result_of fst snd].
    unfold racing. cbn [SESSION_CREATED DC_MIGRATED add_tasks nearest_dc cl tasks].
    rewrite Hs, Hd. cbn [orb negb app cancelled settled].
    do 2 eexists. split; [reflexivity|].
    cbn [SESSION_CREATED DC_MIGRATED cl].
    rewrite token_requests_app, codes_issued_app, !filter_app, length_app, A1, A2, A3, A4.
    destruct (timer_done ie); conjs; reflexivity.
  - do 2 eexists. split; [reflexivity|].
    rewrite token_requests_app, codes_issued_app, !filter_app, length_app, A1, A2, A3, A4.
    conjs; auto.
  - do 2 eexists. split; [reflexivity|].
    rewrite token_requests_app, codes_issued_app, !filter_app, length_app, A1, A2, A3, A4.
    conjs; auto.
  - do 2 eexists. split; [reflexivity|].
    rewrite token_requests_app, codes_issued_app, !filter_app, length_app, A1, A2, A3, A4.
    conjs; auto.
  - do 2 eexists. split; [reflexivity|].
    rewrite token_requests_app, codes_issued_app, !filter_app, length_app, A1, A2, A3, A4.
    destruct (is_FloodWait ex); [|destruct (is_RPCError ex)]; conjs; auto.
Qed.

(** X12.  With no update from the dispatcher the run gives up after three
    token requests, whatever they are answered with: a token, another
    result, a rate limit or any other exception.  Each request counts
    against the budget; it is followed by a code when it is answered by a
    token and by one back-off sleep when it is not.  The fourth pass is
    the wait of 10 seconds, and [create_qrcodes] returns with the client
    as it was. *)
Theorem no_updates_three_requests
    (ie1 ie2 ie3 ie4 : iter_env) (rest : list iter_env) (w : world) :
  SESSION_CREATED w = false -> DC_MIGRATED w = false ->
  no_updates ie1 -> no_updates ie2 -> no_updates ie3 -> no_updates ie4 ->
  let r := create_qrcodes (ie1 :: ie2 :: ie3 :: ie4 :: rest) w in
  let answers := [token_request ie1; token_request ie2; token_request ie3] in
  result_of r = Returns ReturnMaxCodes
  /\ token_requests (trace_of r) = 3%nat
  /\ codes_issued (trace_of r) = tokens answers
  /\ List.length (filter is_sleep (trace_of r)) = (3 - tokens answers)%nat
  /\ filter is_grace_wait (trace_of r) = [WaitFor Wait_DC_MIGRATED 10]
  /\ cl (world_of r) = cl w
  /\ SESSION_CREATED (world_of r) = false.
Proof.
  intros Hs Hd N1 N2 N3 N4. cbv zeta. unfold create_qrcodes, initial_locals.
  destruct (pass_without_updates ie1 {| qr_counter := 0; dc_migrated_flag := false |} w
              N1 Hs Hd ltac:(cbn; unfold MAX_QR_CODES; lia))
    as (w1 & t1 & E1 & Hs1 & Hd1 & Hc1 & R1 & C1 & S1 & G1).
  destruct (pass_without_updates ie2 {| qr_counter := 0 + 1; dc_migrated_flag := false |} w1 N2 Hs1 Hd1 ltac:(cbn; unfold MAX_QR_CODES; lia))
    as (w2 & t2 & E2 & Hs2 & Hd2 & Hc2 & R2 & C2 & S2 & G2).
  destruct (pass_without_updates ie3 {| qr_counter := 0 + 1 + 1; dc_migrated_flag := false |} w2 N3 Hs2 Hd2 ltac:(cbn; unfold MAX_QR_CODES; lia))
    as (w3 & t3 & E3 & Hs3 & Hd3 & Hc3 & R3 & C3 & S3 & G3).
  cbn [qr_counter] in *.
  rewrite (create_qrcodes_from_cons _ _ _ _ _ _ _ Hs E1).
  rewrite (create_qrcodes_from_cons _ _ _ _ _ _ _ Hs1 E2).
  rewrite (create_qrcodes_from_cons _ _ _ _ _ _ _ Hs2 E3).
  assert (E4 : loop_body ie4 {| qr_counter := 0 + 1 + 1 + 1; dc_migrated_flag := false |} w3
               = (Returns (Return ReturnMaxCodes
                             {| qr_counter := 0 + 1 + 1 + 1 + 1; dc_migrated_flag := false |}),
                  w3,
                  [Print [Str nl; Str "Maximum number of QR codes ("; Num MAX_QR_CODES;
                          Str ") for this DC generated without success."];
                   WaitFor Wait_DC_MIGRATED 10;
                   Print [Str "Please try again later."]])).
  { destruct N4 as (_ & G & _).
    rewrite loop_body_run, Hd3. cbn [qr_counter dc_migrated_flag].
    change (MAX_QR_CODES <? 0 + 1 + 1 + 1 + 1) with true. cbv iota.
    rewrite grace_run, G. cbn [deliver ret world_of trace_of result_of fst snd app].
    rewrite Hd3. reflexivity. }
  rewrite (create_qrcodes_from_cons _ _ _ _ _ _ _ Hs3 E4).
  cbn [result_of world_of trace_of fst snd].
  rewrite !token_requests_app, !codes_issued_app, !filter_app, !length_app.
  rewrite R1, R2, R3, C1, C2, C3, S1, S2, S3, G1, G2, G3.
  unfold tokens. cbn [filter].
  conjs; try reflexivity; try congruence.
  - destruct (is_token (token_request ie1)), (is_token (token_request ie2)),
      (is_token (token_request ie3)); reflexivity.
  - destruct (is_token (token_request ie1)), (is_token (token_request ie2)),
      (is_token (token_request ie3)); reflexivity.
Qed.

Lemma no_updates_three_requests_witness :
  let r := create_qrcodes
             [Scenarios.failing; Scenarios.expiring; Scenarios.failing; Scenarios.failing]
             Scenarios.w0 in
  result_of r = Returns ReturnMaxCodes
  /\ token_requests (trace_of r) = 3%nat
  /\ codes_issued (trace_of r) = 1%nat.
Proof.
  assert (N : forall r, no_updates (Scenarios.pass_with r)).
  { intro r. unfold no_updates. cbn. conjs; reflexivity. }
  destruct (no_updates_three_requests Scenarios.failing Scenarios.expiring
              Scenarios.failing Scenarios.failing [] Scenarios.w0
              eq_refl eq_refl (N _) (N _) (N _) (N _))
    as (H1 & H2 & H3 & _).
  cbv zeta. conjs; [exact H1 | exact H2 | exact H3].
Defined.
End QrQuiet.

Section QrGrace.
Import QrAuth Readings.
Local Open Scope list_scope.

(** The pass over the budget, by what arrives during its wait. *)
Lemma over_budget_run ie l w :
  DC_MIGRATED w = false -> MAX_QR_CODES <= qr_counter l ->
  let d := deliver (on_grace ie) w in
  let l1 := {| qr_counter := qr_counter l + 1; dc_migrated_flag := dc_migrated_flag l |} in
  loop_body ie l w
  = (Returns (if DC_MIGRATED (world_of d) then Continue l1 else Return ReturnMaxCodes l1),
     world_of d,
     Print [Str nl; Str "Maximum number of QR codes ("; Num MAX_QR_CODES;
            Str ") for this DC generated without success."]
     :: WaitFor Wait_DC_MIGRATED 10 :: trace_of d
     ++ (if DC_MIGRATED (world_of d) then [] else [Print [Str "Please try again later."]])).
Proof.
  intros Hdm Hmax. cbv zeta. rewrite loop_body_run, Hdm.
  assert (E : (MAX_QR_CODES <? qr_counter l + 1) = true) by (apply Z.ltb_lt; lia).
  cbn [qr_counter dc_migrated_flag]. rewrite E, grace_run. reflexivity.
Qed.

(** X13.  A migration that arrives during the wait of 10 seconds keeps the run
    going: the pass ends without "Please try again later." and without a
    code, and the next pass resets the counter, sleeps 2 seconds,
    announces a code after migration and requests a token with the
    counter at 1. *)
Theorem migration_during_grace_restarts (ie ie2 : iter_env) (l : locals) (w : world) :
  DC_MIGRATED w = false -> MAX_QR_CODES <= qr_counter l ->
  DC_MIGRATED (world_of (deliver (on_grace ie) w)) = true ->
  let r := loop_body ie l w in
  let l1 := {| qr_counter := qr_counter l + 1; dc_migrated_flag := dc_migrated_flag l |} in
  let r2 := loop_body ie2 l1 (world_of r) in
  r = (Returns (Continue l1), world_of (deliver (on_grace ie) w),
       Print [Str nl; Str "Maximum number of QR codes ("; Num MAX_QR_CODES;
              Str ") for this DC generated without success."]
       :: WaitFor Wait_DC_MIGRATED 10 :: trace_of (deliver (on_grace ie) w))
  /\ codes_issued (trace_of r) = 0%nat
  /\ (exists c, result_of r2 = Returns c /\ qr_counter (locals_of c) = 1)
  /\ (exists body,
        trace_of r2
        = Log INFO [Str "DC migration detected, resetting QR code counter"]
          :: Sleep 2 :: trace_of (deliver (on_settle ie2) (world_of r))
          ++ Print [Str nl; Str "Here's a new QR code after DC migration. Please scan it:"]
          :: Call ExportLoginToken :: body).
Proof.
  intros Hdm Hmax Hmig. cbv zeta.
  rewrite (over_budget_run ie l w Hdm Hmax). cbv zeta. rewrite Hmig, app_nil_r.
  cbn [world_of trace_of fst snd].
  set (w1 := world_of (deliver (on_grace ie) w)) in *.
  set (l1 := {| qr_counter := qr_counter l + 1; dc_migrated_flag := dc_migrated_flag l |}).
  pose proof (deliver_quiet (on_grace ie) w) as Hq. fold w1 in Hq.
  conjs.
  - reflexivity.
  - change (?a :: ?b :: ?t) with ([a; b] ++ t).
    rewrite codes_issued_app, (quiet_no_code _ Hq). reflexivity.
  - destruct (pass_facts ie2 l1 w1) as (c & w' & body & E & Hn & _).
    rewrite E. exists c. cbn [result_of fst]. rewrite Hn, Hmig. split; reflexivity.
  - rewrite loop_body_run, Hmig. cbn [qr_counter dc_migrated_flag].
    change (MAX_QR_CODES <? 0 + 1) with false. cbv iota. cbn [trace_of snd].
    rewrite issue_run.
    destruct (token_request ie2) as [[token|d| |name]|ex]; cbn [trace_of snd];
      eexists; cbn [app announce dc_migrated_flag]; run; cbn [app];
      rewrite <- ?app_assoc; cbn [app]; reflexivity.
Qed.

Lemma migration_during_grace_restarts_witness :
  let l := {| qr_counter := 3; dc_migrated_flag := false |} in
  result_of (loop_body Runs.late_migration l Scenarios.w0)
  = Returns (Continue {| qr_counter := 4; dc_migrated_flag := false |})
  /\ codes_issued (trace_of (loop_body Runs.late_migration l Scenarios.w0)) = 0%nat.
Proof.
  cbv zeta.
  destruct (migration_during_grace_restarts Runs.late_migration Scenarios.expiring
              {| qr_counter := 3; dc_migrated_flag := false |} Scenarios.w0
              eq_refl ltac:(cbn; unfold MAX_QR_CODES; lia) eq_refl)
    as (H1 & H2 & _).
  split; [rewrite H1; reflexivity | exact H2].
Defined.

(** X14.  A confirmation that arrives during the wait of 10 seconds does not
    end that wait: with no migration the run still prints "Please try
    again later." and returns as exhausted, although [SESSION_CREATED] is
    set. *)
Theorem confirmation_during_grace_gives_up
    (ie : iter_env) (rest : list iter_env) (l : locals) (w : world) :
  SESSION_CREATED w = false -> DC_MIGRATED w = false ->
  MAX_QR_CODES <= qr_counter l ->
  SESSION_CREATED (world_of (deliver (on_grace ie) w)) = true ->
  DC_MIGRATED (world_of (deliver (on_grace ie) w)) = false ->
  let r := create_qrcodes_from (ie :: rest) l w in
  result_of r = Returns ReturnMaxCodes
  /\ SESSION_CREATED (world_of r) = true
  /\ last (trace_of r) (Sleep 0) = Print [Str "Please try again later."].
Proof.
  intros Hs Hdm Hmax Hconf Hmig. cbv zeta.
  pose proof (over_budget_run ie l w Hdm Hmax) as E. cbv zeta in E. rewrite Hmig in E.
  rewrite (create_qrcodes_from_cons _ _ _ _ _ _ _ Hs E).
  cbn [result_of world_of trace_of fst snd]. conjs; auto.
  change (?a :: ?b :: ?t ++ [?p]) with ([a; b] ++ t ++ [p]).
  rewrite !app_assoc. apply last_last.
Qed.

Lemma confirmation_during_grace_gives_up_witness :
  let r := create_qrcodes_from [Runs.late_confirmation]
             {| qr_counter := 3; dc_migrated_flag := false |} Scenarios.w0 in
  result_of r = Returns ReturnMaxCodes /\ SESSION_CREATED (world_of r) = true.
Proof.
  cbv zeta.
  destruct (confirmation_during_grace_gives_up Runs.late_confirmation []
              {| qr_counter := 3; dc_migrated_flag := false |} Scenarios.w0
              eq_refl eq_refl ltac:(cbn; unfold MAX_QR_CODES; lia) eq_refl eq_refl)
    as (H1 & H2 & _).
  split; assumption.
Defined.

(** X15.  A pass at whose end [SESSION_CREATED] is set is the last one: the
    run returns there, whatever the script goes on with, so no token is
    requested and no code rendered afterwards. *)
Theorem confirmation_ends_run
    (ie : iter_env) (rest : list iter_env) (l : locals) (w : world) :
  SESSION_CREATED w = false ->
  SESSION_CREATED (world_of (loop_body ie l w)) = true ->
  let r := create_qrcodes_from (ie :: rest) l w in
  (exists x, result_of r = Returns x)
  /\ world_of r = world_of (loop_body ie l w)
  /\ trace_of r = trace_of (loop_body ie l w).
Proof.
  intros Hs Hc. cbv zeta.
  destruct (pass_facts ie l w) as (c & w1 & body & E & _).
  rewrite E in Hc |- *. cbn [world_of trace_of fst snd] in Hc |- *.
  rewrite (create_qrcodes_from_cons _ _ _ _ _ _ _ Hs E).
  destruct c as [l'|x l'].
  - rewrite (create_qrcodes_from_test _ _ _ Hc). cbn [result_of world_of trace_of fst snd].
    rewrite app_nil_r. conjs; eauto.
  - cbn [result_of world_of trace_of fst snd]. conjs; eauto.
Qed.

Lemma confirmation_ends_run_witness :
  let r := create_qrcodes_from
             [Runs.confirmed_in_backoff; Scenarios.expiring; Scenarios.expiring]
             initial_locals Scenarios.w0 in
  result_of r = Returns WhileTestFalse
  /\ token_requests (trace_of r) = 2%nat
  /\ codes_issued (trace_of r) = 0%nat.
Proof.
  cbv zeta.
  destruct (confirmation_ends_run Runs.confirmed_in_backoff
              [Scenarios.expiring; Scenarios.expiring] initial_locals Scenarios.w0
              eq_refl eq_refl) as (_ & _ & Ht).
  split; [reflexivity|]. rewrite Ht. split; reflexivity.
Defined.

(** X16.  A token request that is answered by something else than a token, or
    that raises something else than a rate limit, is logged with the type
    of the answer or the class and text of the exception; the coordinator
    then sleeps 3 seconds, once, and the loop goes on: no code is
    rendered, nothing is waited for, and nothing is raised. *)
Theorem failed_request_backs_off (ie : iter_env) (l : locals) (w : world) :
  is_token (token_request ie) = false ->
  (forall ex, token_request ie = Throws ex -> is_FloodWait ex = false) ->
  let r := issue ie l w in
  result_of r = Returns (Continue l)
  /\ filter is_sleep (trace_of r) = [Sleep 3]
  /\ codes_issued (trace_of r) = 0%nat
  /\ filter is_wait (trace_of r) = []
  /\ In (match token_request ie with
         | Gives res =>
             Log WARNING [Str "Unexpected response when generating QR code: ";
                          Str (type_name_of res)]
         | Throws ex =>
             Log ERROR [Str (if is_RPCError ex
                             then "Telegram API error generating QR code: "
                             else "Unexpected error generating QR code: ");
                        ExcName ex; Str " - "; ExcStr ex]
         end) (trace_of r).
Proof.
  intros Htok Hflood. cbv zeta. rewrite issue_run.
  pose proof (deliver_quiet (on_request ie) w) as Hq.
  pose proof (deliver_quiet (on_backoff ie) (world_of (deliver (on_request ie) w))) as Hb.
  assert (Qs : forall t, Forall quiet_event t -> filter is_sleep t = []).
  { intros t. apply quiet_count. intros x Hx. unfold coordinator_only.
    rewrite Hx. now rewrite !orb_true_r. }
  assert (Qw : forall t, Forall quiet_event t -> filter is_wait t = []).
  { intros t. apply quiet_count. intros x Hx. unfold coordinator_only.
    rewrite Hx. now rewrite !orb_true_r. }
  destruct (token_request ie) as [[token|dc| |name]|ex]; [discriminate Htok| | | |].
  1-3: cbn [result_of trace_of fst snd];
    change (?a :: ?t1 ++ ?b :: ?c :: ?t2) with ([a] ++ t1 ++ [b; c] ++ t2);
    rewrite !codes_issued_app, !filter_app, (quiet_no_code _ Hq), (quiet_no_code _ Hb),
      (Qs _ Hq), (Qs _ Hb), (Qw _ Hq), (Qw _ Hb);
    conjs; try reflexivity;
    apply in_or_app; right; apply in_or_app; right; apply in_or_app; left; left; reflexivity.
  rewrite (Hflood ex eq_refl). cbn [result_of trace_of fst snd].
  change (?a :: ?t1) with ([a] ++ t1).
  rewrite !codes_issued_app, !filter_app, (quiet_no_code _ Hq), (quiet_no_code _ Hb),
    (Qs _ Hq), (Qs _ Hb), (Qw _ Hq), (Qw _ Hb).
  destruct (is_RPCError ex); conjs; try reflexivity;
    apply in_or_app; right; apply in_or_app; right; apply in_or_app; left; left; reflexivity.
Qed.

Lemma failed_request_backs_off_witness :
  filter is_sleep
    (trace_of (issue Scenarios.failing {| qr_counter := 1; dc_migrated_flag := false |}
                 Scenarios.w0))
  = [Sleep 3].
Proof.
  apply (failed_request_backs_off Scenarios.failing
           {| qr_counter := 1; dc_migrated_flag := false |} Scenarios.w0 eq_refl).
  intros ex [= <-]. reflexivity.
Defined.
End QrGrace.

Section QrRace.
Import QrAuth Readings.
Local Open Scope list_scope.

(** X17.  The branch taken after the wait of lines 326-349 depends on the two
    events alone, in a fixed order: a confirmation ends the run even when
    a migration is signalled as well, and a migration goes before the
    expiry of the timer; whether the timer task is among the done ones
    plays no part.  The wait clears neither event, so a migration
    signalled together with a confirmation stays signalled. *)
Theorem confirmation_wins_the_race (ie : iter_env) (l : locals) (w : world) :
  let w1 := world_of (deliver (on_race ie) (racing w)) in
  let r := race ie l w in
  result_of r
  = Returns (if SESSION_CREATED w1 then Return ReturnSessionCreated l else Continue l)
  /\ SESSION_CREATED (world_of r) = SESSION_CREATED w1
  /\ DC_MIGRATED (world_of r) = DC_MIGRATED w1
  /\ branch_logs (trace_of r) = (if SESSION_CREATED w1 then 0 else 1)%nat
  /\ (SESSION_CREATED w1 = false ->
      last (trace_of r) (Sleep 0)
      = if DC_MIGRATED w1
        then Log INFO [Str "DC migration occurred, will generate new QR codes"]
        else Log INFO [Str "QR code #"; Num (qr_counter l); Str " expired after ";
                       Num QR_TIMEOUT; Str " seconds"]).
Proof.
  cbv zeta. rewrite race_spec. cbv zeta.
  cbn [result_of world_of trace_of fst snd SESSION_CREATED DC_MIGRATED].
  pose proof (deliver_quiet (on_race ie) (racing w)) as Hq.
  set (w1 := world_of (deliver (on_race ie) (racing w))) in *.
  conjs; try reflexivity.
  - change (?a :: ?t ++ ?u) with ([a] ++ t ++ u).
    rewrite !branch_logs_app, (quiet_branch_logs _ Hq).
    destruct (SESSION_CREATED w1), (DC_MIGRATED w1), (timer_done ie); reflexivity.
  - intros Hs. rewrite Hs.
    change (?a :: ?t ++ ?u) with (([a] ++ t) ++ u).
    rewrite last_after.
    + cbn [cancelled orb negb].
      destruct (DC_MIGRATED w1), (timer_done ie); reflexivity.
    + destruct (DC_MIGRATED w1), (timer_done ie); discriminate.
Qed.

Lemma confirmation_wins_the_race_witness :
  let r := race Runs.migration_and_confirmation
             {| qr_counter := 1; dc_migrated_flag := false |} Scenarios.w0 in
  result_of r = Returns (Return ReturnSessionCreated {| qr_counter := 1; dc_migrated_flag := false |})
  /\ DC_MIGRATED (world_of r) = true.
Proof.
  cbv zeta.
  destruct (confirmation_wins_the_race Runs.migration_and_confirmation
              {| qr_counter := 1; dc_migrated_flag := false |} Scenarios.w0)
    as (H1 & _ & H3 & _).
  split; [exact H1 | exact H3].
Defined.
End QrRace.

Section EmitsOnly.
Context {W : Type}.
Variable P : event -> bool.

Lemma only_ret {A} (a : A) : emits_only P (@ret W A a).
Proof. intro w. constructor. Qed.

Lemma only_raise {A} (e : exn) : emits_only P (@raise W A e).
Proof. intro w. constructor. Qed.

Lemma only_unfinished {A} : emits_only P (@unfinished W A).
Proof. intro w. constructor. Qed.

Lemma only_get : emits_only P (@get W).
Proof. intro w. constructor. Qed.

Lemma only_modify (f : W -> W) : emits_only P (modify f).
Proof. intro w. constructor. Qed.

Lemma only_answer {A} (o : reply A) : emits_only P (@answer W A o).
Proof. destruct o; [apply only_ret | apply only_raise]. Qed.

Lemma only_emit (e : event) : P e = true -> emits_only P (@emit W e).
Proof. intros H w. repeat constructor. exact H. Qed.

Lemma only_bind {A B} (m : M W A) (k : A -> M W B) :
  emits_only P m -> (forall a, emits_only P (k a)) -> emits_only P (bind m k).
Proof.
  intros Hm Hk w. specialize (Hm w). unfold bind, trace_of in *.
  destruct (m w) as [[[a|e|] w1] t1]; cbn in *; auto.
  specialize (Hk a w1). unfold trace_of in Hk.
  destruct (k a w1) as [[r w2] t2]. cbn in *. apply Forall_app; auto.
Qed.

Lemma only_try_except {A} (m : M W A) (h : exn -> M W A) :
  emits_only P m -> (forall e, emits_only P (h e)) -> emits_only P (try_except m h).
Proof.
  intros Hm Hh w. specialize (Hm w). unfold try_except, trace_of in *.
  destruct (m w) as [[[a|e|] w1] t1]; cbn in *; auto.
  specialize (Hh e w1). unfold trace_of in Hh.
  destruct (h e w1) as [[r w2] t2]. cbn in *. apply Forall_app; auto.
Qed.

Lemma only_filter {A} (m : M W A) (p : event -> bool) w :
  emits_only P m -> (forall e, P e = true -> p e = false) ->
  filter p (trace_of (m w)) = [].
Proof.
  intros Hm Hp. specialize (Hm w).
  induction Hm as [|x t Hx _ IH]; [reflexivity|].
  cbn. now rewrite (Hp x Hx).
Qed.

(** A statement that returns, followed by the rest of its block. *)
Lemma bind_returns {A B} (m : M W A) (k : A -> M W B) w a w1 t1 :
  m w = (Returns a, w1, t1) ->
  bind m k w = (result_of (k a w1), world_of (k a w1), (t1 ++ trace_of (k a w1))%list).
Proof.
  intro E. unfold bind. rewrite E. destruct (k a w1) as [[r w2] t2]. reflexivity.
Qed.
End EmitsOnly.

Section QrSetupEmits.
Import QrAuth Readings.
Local Open Scope list_scope.
Variable P : event -> bool.
Hypothesis P_setup : forall e,
  is_cleanup_call e = false -> is_call ExportLoginToken e = false -> is_code e = false ->
  P e = true.

Ltac only_step :=
  match goal with
  | |- emits_only _ (bind _ _) => apply only_bind; [|intro]
  | |- emits_only _ (try_except _ _) => apply only_try_except; [|intro]
  | |- emits_only _ (ret _) => apply only_ret
  | |- emits_only _ (raise _) => apply only_raise
  | |- emits_only _ get => apply only_get
  | |- emits_only _ (answer _) => apply only_answer
  | |- emits_only _ (modify _) => apply only_modify
  | |- emits_only _ (emit _) => apply only_emit; apply P_setup; reflexivity
  | |- emits_only _ (match ?x with _ => _ end) => destruct x
  end.

Lemma check_session_only e dc : emits_only P (check_session e dc).
Proof. unfold check_session, call, log, print. repeat only_step. Qed.

Lemma select_dc_only s : emits_only P (select_dc s).
Proof. unfold select_dc, log. repeat only_step. Qed.

Lemma resolve_dc_only sel e : emits_only P (resolve_dc sel e).
Proof. unfold resolve_dc, call, log. repeat only_step. Qed.
End QrSetupEmits.

Section QrBodyEmits.
Import QrAuth Readings.
Local Open Scope list_scope.

Lemma body_event_setup e :
  is_cleanup_call e = false -> is_call ExportLoginToken e = false -> is_code e = false ->
  body_event e = true.
Proof. intros H _ _. unfold body_event. now rewrite H. Qed.

Ltac body_step :=
  match goal with
  | |- emits_only _ (check_session _ _) => apply check_session_only, body_event_setup
  | |- emits_only _ (bind _ _) => apply only_bind; [|intro]
  | |- emits_only _ (try_except _ _) => apply only_try_except; [|intro]
  | |- emits_only _ (ret _) => apply only_ret
  | |- emits_only _ (raise _) => apply only_raise
  | |- emits_only _ unfinished => apply only_unfinished
  | |- emits_only _ get => apply only_get
  | |- emits_only _ (answer _) => apply only_answer
  | |- emits_only _ (modify _) => apply only_modify
  | |- emits_only _ (emit _) => apply only_emit; reflexivity
  | |- emits_only _ (match ?x with _ => _ end) => destruct x
  end.

Lemma handle_2fa_body e : emits_only body_event (handle_2fa e).
Proof. unfold handle_2fa, call, log, print. repeat body_step. Qed.

Lemma raw_update_handler_body e u : emits_only body_event (raw_update_handler e u).
Proof.
  unfold raw_update_handler, call, log, print.
  repeat first [ apply handle_2fa_body | body_step ].
Qed.

Lemma deliver_body ds : emits_only body_event (deliver ds).
Proof.
  induction ds as [|[u e] ds IH]; cbn [deliver]; [apply only_ret|].
  apply only_bind; [|intro; exact IH].
  apply only_try_except; [apply raw_update_handler_body | intro; apply only_ret].
Qed.

Lemma mark_all_body ids s : emits_only body_event (mark_all ids s).
Proof.
  induction ids as [|id ids IH]; cbn [mark_all]; [apply only_ret|].
  apply only_bind; [apply only_modify | intro; exact IH].
Qed.

Lemma cancel_all_body ids : emits_only body_event (cancel_all ids).
Proof.
  induction ids as [|id ids IH]; cbn [cancel_all]; [apply only_ret|].
  unfold mark. repeat first [ exact IH | body_step ].
Qed.

Lemma loop_body_body ie l : emits_only body_event (loop_body ie l).
Proof.
  unfold loop_body, settle, grace, announce, issue, race, asyncio_wait, create_task,
    generate_qr, sleep, wait_for_DC_MIGRATED, log, print.
  repeat first [ apply deliver_body | apply mark_all_body | apply cancel_all_body
               | body_step ].
Qed.

Lemma create_qrcodes_from_body s : forall l, emits_only body_event (create_qrcodes_from s l).
Proof.
  induction s as [|ie s IH]; intro l; cbn [create_qrcodes_from].
  - repeat body_step.
  - repeat first [ apply loop_body_body | apply IH | body_step ].
Qed.
End QrBodyEmits.

Section QrAuthFacts.
Import QrAuth Readings.
Local Open Scope list_scope.

Lemma isdigit_nonempty s : negb (String.eqb s "") && isdigit s = isdigit s.
Proof. unfold isdigit. destruct (negb (String.eqb s "")); reflexivity. Qed.

(** Every data center the operator may choose has its entry in
    [DC_INFO]. *)
Lemma DC_INFO_covers n : 1 <= n <= 5 -> exists info, dict_get DC_INFO n = Some info.
Proof.
  intro H.
  assert (Hc : n = 1 \/ n = 2 \/ n = 3 \/ n = 4 \/ n = 5) by lia.
  destruct Hc as [-> | [-> | [-> | [-> | ->]]]]; eexists; reflexivity.
Qed.

Lemma select_dc_eq (s : string) (w : world) :
  select_dc s w = (Returns (selection s), w, trace_of (select_dc s w)).
Proof.
  unfold select_dc, selection. rewrite isdigit_nonempty.
  destruct (isdigit s); cbn [andb]; [|reflexivity].
  destruct (1 <=? int s) eqn:H1; cbn [andb]; [|reflexivity].
  destruct (int s <=? 5) eqn:H5; [|reflexivity].
  apply Z.leb_le in H1, H5.
  destruct (DC_INFO_covers (int s) (conj H1 H5)) as [info ->]. reflexivity.
Qed.



(** The [finally] block of [qr_auth]: both calls are made, whatever
    either of them raises. *)
Lemma cleanup_run (e : qr_auth_env) (w : world) :
  (try_except
     (call DispatcherStop (dispatcher_stop e))
     (fun ex => log ERROR [Str "Error stopping dispatcher: "; ExcStr ex]) ;;
   try_except
     (call Disconnect (disconnect e) ;;
      log INFO [Str "Disconnected from Telegram"])
     (fun ex => log ERROR [Str "Error disconnecting: "; ExcStr ex]))%monad w
  = (Returns tt, w, cleanup_trace e).
Proof.
  unfold cleanup_trace. run.
  destruct (dispatcher_stop e) as [[]|ex1], (disconnect e) as [[]|ex2]; reflexivity.
Qed.

Lemma cleanup_calls (e : qr_auth_env) :
  filter is_cleanup_call (cleanup_trace e) = [Call DispatcherStop; Call Disconnect].
Proof.
  unfold cleanup_trace.
  destruct (dispatcher_stop e) as [[]|ex1], (disconnect e) as [[]|ex2]; reflexivity.
Qed.

(** A [try ... finally] whose [finally] block returns. *)
Lemma try_finally_returns {A} (m : Q A) (f : Q unit) (w : world) (tc : trace) :
  (forall w1, f w1 = (Returns tt, w1, tc)) ->
  try_finally m f w
  = match result_of (m w) with
    | Unfinished => m w
    | r => (r, world_of (m w), trace_of (m w) ++ tc)
    end.
Proof.
  intro Hf. unfold try_finally, result_of, world_of, trace_of.
  destruct (m w) as [[[a|ex|] w1] t1]; cbn [fst snd]; rewrite ?Hf; reflexivity.
Qed.

(** A [try] whose [except Exception] clause only logs does not raise. *)
Lemma try_except_log {A} (m : Q A) (h : exn -> Q A) (w : world) :
  (forall ex w1, exists a t, h ex w1 = (Returns a, w1, t)) ->
  forall ex, result_of (try_except m h w) <> Raises ex.
Proof.
  intros Hh ex. unfold try_except, result_of.
  destruct (m w) as [[[a|ex1|] w1] t1]; cbn [fst]; try discriminate.
  destruct (Hh ex1 w1) as (a & t & ->). discriminate.
Qed.
End QrAuthFacts.

Section QrAuthRelease.
Import QrAuth Readings.
Local Open Scope list_scope.

(** What [qr_auth] emits before its [try]: the banner, the table, the
    prompt, the record of the choice and the making of the client. *)
Lemma qr_auth_run (e : qr_auth_env) (w : world) :
  let pre := [Log INFO [Str "==== QR CODE AUTHENTICATION ====="]]
             ++ trace_of (print_dc_info w)
             ++ [Input "Select DC number (1-5) or press Enter for nearest DC: "]
             ++ trace_of (select_dc (dc_choice e) w)
             ++ [Call (NewClient "qr_auth_session" None true)] in
  exists body : Q unit,
    qr_auth e w
    = (match result_of (body (set_nearest_dc None w)) with
       | Unfinished =>
           (Unfinished, world_of (body (set_nearest_dc None w)),
            pre ++ trace_of (body (set_nearest_dc None w)))
       | res =>
           (res, world_of (body (set_nearest_dc None w)),
            pre ++ trace_of (body (set_nearest_dc None w)) ++ cleanup_trace e)
       end)
    /\ emits_only body_event body
    /\ (forall ex, result_of (body (set_nearest_dc None w)) <> Raises ex)
    /\ (forall ex, connect e = Throws ex ->
        body (set_nearest_dc None w)
        = (Returns tt, set_nearest_dc None w,
           [Log INFO [Str "Connecting to Telegram servers..."]; Call Connect;
            Log ERROR [Str "Unexpected error: "; ExcStr ex]])).
Proof.
  cbv zeta.
  pose proof (eq_refl : print_dc_info w = (Returns tt, w, trace_of (print_dc_info w))) as Ep.
  pose proof (select_dc_eq (dc_choice e) w) as Es.
  set (tp := trace_of (print_dc_info w)) in *. clearbody tp.
  set (ts := trace_of (select_dc (dc_choice e) w)) in *. clearbody ts.
  unfold qr_auth. eexists.
  split; [|split; [|split]].
  - rewrite (bind_returns _ _ _ _ _ _
               (eq_refl : log INFO [Str "==== QR CODE AUTHENTICATION ====="] w
                          = (Returns tt, w,
                             [Log INFO [Str "==== QR CODE AUTHENTICATION ====="]]))).
    rewrite (bind_returns _ _ _ _ _ _ Ep).
    rewrite (bind_returns _ _ _ _ _ _
               (eq_refl : emit (Input "Select DC number (1-5) or press Enter for nearest DC: ") w
                          = (Returns tt, w,
                             [Input "Select DC number (1-5) or press Enter for nearest DC: "]))).
    rewrite (bind_returns _ _ _ _ _ _ Es).
    rewrite (bind_returns _ _ _ _ _ _
               (eq_refl : emit (Call (NewClient "qr_auth_session" None true)) w
                          = (Returns tt, w, [Call (NewClient "qr_auth_session" None true)]))).
    rewrite (bind_returns _ _ _ _ _ _
               (eq_refl : modify (set_nearest_dc None) w
                          = (Returns tt, set_nearest_dc None w, []))).
    match goal with
    | |- context [try_finally ?b _ _] =>
        match goal with
        | |- _ = match result_of (?bd _) with _ => _ end => unify bd b
        end
    end.
    rewrite (try_finally_returns _ _ _ (cleanup_trace e)) by (intro; apply cleanup_run).
    match goal with
    | |- context [try_except ?m ?h (set_nearest_dc None w)] =>
        generalize (try_except m h (set_nearest_dc None w))
    end.
    intros [[[[]|ex|] w1] t1];
      cbn [result_of world_of trace_of fst snd];
      rewrite <- ?app_assoc; cbn [app]; rewrite <- ?app_assoc; reflexivity.
  - unfold call, log.
    repeat first
      [ apply resolve_dc_only, body_event_setup
      | apply check_session_only, body_event_setup
      | apply create_qrcodes_from_body
      | match goal with
        | |- emits_only _ (bind _ _) => apply only_bind; [|intro]
        | |- emits_only _ (try_except _ _) => apply only_try_except; [|intro]
        | |- emits_only _ (ret _) => apply only_ret
        | |- emits_only _ get => apply only_get
        | |- emits_only _ (answer _) => apply only_answer
        | |- emits_only _ (modify _) => apply only_modify
        | |- emits_only _ (emit _) => apply only_emit; reflexivity
        | |- emits_only _ (match ?x with _ => _ end) => destruct x
        end ].
  - apply try_except_log. intros ex w1. do 2 eexists. reflexivity.
  - intros ex Hc. unfold call. run. rewrite Hc. reflexivity.
Qed.

(** Nothing of what precedes the [try] is a call of the [finally]
    block, a token request or a code. *)
Lemma qr_auth_pre (e : qr_auth_env) (w : world) :
  let pre := [Log INFO [Str "==== QR CODE AUTHENTICATION ====="]]
             ++ trace_of (print_dc_info w)
             ++ [Input "Select DC number (1-5) or press Enter for nearest DC: "]
             ++ trace_of (select_dc (dc_choice e) w)
             ++ [Call (NewClient "qr_auth_session" None true)] in
  filter is_cleanup_call pre = []
  /\ token_requests pre = 0%nat
  /\ codes_issued pre = 0%nat.
Proof.
  cbv zeta. unfold token_requests, calls, codes_issued.
  assert (S1 : filter is_cleanup_call (trace_of (select_dc (dc_choice e) w)) = []).
  { apply (only_filter body_event); [apply select_dc_only, body_event_setup|].
    intros x Hx. unfold body_event in Hx. now destruct (is_cleanup_call x). }
  assert (Hs : emits_only setup_event (select_dc (dc_choice e))).
  { apply select_dc_only. intros x H1 H2 H3. unfold setup_event. now rewrite H2, H3. }
  assert (S2 : filter (is_call ExportLoginToken) (trace_of (select_dc (dc_choice e) w)) = []).
  { apply (only_filter setup_event); [exact Hs|].
    intros x Hx. unfold setup_event in Hx. now destruct (is_call ExportLoginToken x). }
  assert (S3 : filter is_code (trace_of (select_dc (dc_choice e) w)) = []).
  { apply (only_filter setup_event); [exact Hs|].
    intros x Hx. unfold setup_event in Hx.
    destruct (is_code x); [|reflexivity]. now rewrite andb_false_r in Hx. }
  rewrite !filter_app, S1, S2, S3. conjs; reflexivity.
Qed.



(** X20.  When the connection cannot be made, [qr_auth] logs the error and
    goes to its [finally] block: no data center is resolved, no handler
    added, no token requested and no code rendered; the dispatcher is
    still stopped and the client still disconnected, and the run returns
    whatever the rest of the environment holds. *)
Theorem failed_connection_skips_login (e : qr_auth_env) (w : world) (ex : exn) :
  connect e = Throws ex ->
  let r := qr_auth e w in
  result_of r = Returns tt
  /\ world_of r = set_nearest_dc None w
  /\ (exists pre,
        trace_of r
        = pre ++ [Log INFO [Str "Connecting to Telegram servers..."]; Call Connect;
                  Log ERROR [Str "Unexpected error: "; ExcStr ex]]
          ++ cleanup_trace e
        /\ token_requests pre = 0%nat /\ codes_issued pre = 0%nat)
  /\ token_requests (trace_of r) = 0%nat
  /\ codes_issued (trace_of r) = 0%nat
  /\ filter is_cleanup_call (trace_of r) = [Call DispatcherStop; Call Disconnect].
Proof.
  intros Hc. cbv zeta.
  destruct (qr_auth_run e w) as (body & E & _ & _ & Hconn).
  destruct (qr_auth_pre e w) as (Hpre & Hreq & Hcode). cbv zeta in Hpre, Hreq, Hcode.
  rewrite E, (Hconn ex Hc). clear E. cbn [result_of world_of trace_of fst snd].
  match type of Hpre with filter _ ?p = [] => set (pre := p) in * end.
  assert (Hclean : token_requests (cleanup_trace e) = 0%nat
                   /\ codes_issued (cleanup_trace e) = 0%nat).
  { unfold cleanup_trace.
    destruct (dispatcher_stop e) as [[]|ex1], (disconnect e) as [[]|ex2]; split; reflexivity. }
  destruct Hclean as [Hc1 Hc2].
  conjs; try reflexivity.
  - exists pre. conjs; auto.
  - rewrite !token_requests_app, Hreq, Hc1. reflexivity.
  - rewrite !codes_issued_app, Hcode, Hc2. reflexivity.
  - rewrite !filter_app, Hpre, cleanup_calls. reflexivity.
Qed.

Lemma failed_connection_skips_login_witness :
  let r := qr_auth Runs.cannot_connect (initial_world Scenarios.client0) in
  result_of r = Returns tt /\ token_requests (trace_of r) = 0%nat.
Proof.
  cbv zeta.
  destruct (failed_connection_skips_login Runs.cannot_connect
              (initial_world Scenarios.client0) _ eq_refl) as (H1 & _ & _ & H2 & _).
  split; assumption.
Defined.
End QrAuthRelease.

Section QrSetup.
Import QrAuth Readings.
Local Open Scope list_scope.

Lemma selection_range s d : selection s = Some d -> 1 <= d <= 5.
Proof.
  unfold selection. destruct (isdigit s); cbn [andb]; [|discriminate].
  destruct (1 <=? int s) eqn:H1; cbn [andb]; [|discriminate].
  destruct (int s <=? 5) eqn:H5; [|discriminate].
  intros [= <-]. apply Z.leb_le in H1, H5. lia.
Qed.

(** Lines 410-427 for a choice that is a number from 1 to 5, or none. *)
Lemma resolve_dc_eq (sel : option Z) (e : qr_auth_env) (w : world) :
  (forall d, sel = Some d -> 1 <= d <= 5) ->
  resolve_dc sel e w
  = (Returns tt, set_nearest_dc (Some (resolved sel e)) w, trace_of (resolve_dc sel e w)).
Proof.
  intro Hsel. unfold resolve_dc, resolved. destruct sel as [d|]; cbn [truthy].
  - specialize (Hsel d eq_refl).
    assert (Hd : (d =? 0) = false) by (apply Z.eqb_neq; lia).
    rewrite Hd. reflexivity.
  - run. destruct (get_nearest_dc e) as [n|ex]; run; [|reflexivity].
    destruct (dict_get DC_INFO n); reflexivity.
Qed.

(** What a block emits starts with what its first statements emit. *)
Lemma try_except_extends {A} (m : Q A) h w :
  exists extra, trace_of (try_except m h w) = trace_of (m w) ++ extra.
Proof.
  unfold try_except, trace_of. destruct (m w) as [[[a|ex|] w1] t1]; cbn [snd].
  - exists []. now rewrite app_nil_r.
  - destruct (h ex w1) as [[r w2] t2]. exists t2. reflexivity.
  - exists []. now rewrite app_nil_r.
Qed.

Lemma try_finally_extends {A} (m : Q A) f w :
  exists extra, trace_of (try_finally m f w) = trace_of (m w) ++ extra.
Proof.
  unfold try_finally, trace_of. destruct (m w) as [[[a|ex|] w1] t1]; cbn [snd];
    try (destruct (f w1) as [[[[]|ex'|] w2] t2]; exists t2; reflexivity).
  exists []. now rewrite app_nil_r.
Qed.

Lemma call_first {A B} (c : client_call) (o : reply A) (k : A -> Q B) w :
  exists rest, trace_of (bind (call c o) k w) = Call c :: rest.
Proof.
  unfold call. run. destruct o as [a|ex]; run; [|eexists; reflexivity].
  destruct (k a w) as [[r w2] t2]. eexists. reflexivity.
Qed.

(** X21.  The set-up of the session.  In a run whose connection succeeds and
    whose resolved data center is not 0, [qr_auth] logs the set-up and
    runs [check_session] for the data center it resolved (the choice,
    else the answer of the query, else 2), on the connected client and
    before anything else touches the session; a set-up that fails is
    only warned about: the handler is added and the dispatcher started
    all the same. *)
Theorem setup_uses_resolved_dc (e : qr_auth_env) (w : world) :
  connect e = Gives tt ->
  let d := resolved (selection (dc_choice e)) e in
  d <> 0 ->
  let wc := connected_on d w in
  exists before after,
    trace_of (qr_auth e w)
    = before
      ++ Log INFO [Str "Setting up session with DC "; Num d]
      :: trace_of (check_session (setup e) d wc)
      ++ (if switch_succeeds (setup e) wc then []
          else [Log WARNING [Str "Failed to set up session with DC "; Num d]])
      ++ Call AddHandler :: Call DispatcherStart :: after
    /\ filter is_session_call before = []
    /\ token_requests before = 0%nat.
Proof.
  intros Hc d Hd wc.
  pose proof (eq_refl : print_dc_info w = (Returns tt, w, trace_of (print_dc_info w))) as Ep.
  pose proof (select_dc_eq (dc_choice e) w) as Es.
  assert (Hsel : forall x, selection (dc_choice e) = Some x -> 1 <= x <= 5)
    by (intro x; apply selection_range).
  pose proof (fun w' => resolve_dc_eq (selection (dc_choice e)) e w' Hsel) as Er.
  fold d in Er.
  assert (Hpre : filter is_session_call (trace_of (print_dc_info w)) = []
                 /\ token_requests (trace_of (print_dc_info w)) = 0%nat)
    by (split; reflexivity).
  assert (Hs : filter is_session_call (trace_of (select_dc (dc_choice e) w)) = []
               /\ token_requests (trace_of (select_dc (dc_choice e) w)) = 0%nat).
  { unfold select_dc.
    destruct (negb (String.eqb (dc_choice e) "") && isdigit (dc_choice e));
      [|split; reflexivity].
    destruct ((1 <=? int (dc_choice e)) && (int (dc_choice e) <=? 5));
      [|split; reflexivity].
    destruct (dict_get DC_INFO (int (dc_choice e))); split; reflexivity. }
  set (tp := trace_of (print_dc_info w)) in *. clearbody tp.
  set (ts := trace_of (select_dc (dc_choice e) w)) in *. clearbody ts.
  unfold qr_auth.
  rewrite (bind_returns _ _ _ _ _ _
             (eq_refl : log INFO [Str "==== QR CODE AUTHENTICATION ====="] w
                        = (Returns tt, w,
                           [Log INFO [Str "==== QR CODE AUTHENTICATION ====="]]))).
  rewrite (bind_returns _ _ _ _ _ _ Ep).
  rewrite (bind_returns _ _ _ _ _ _
             (eq_refl : emit (Input "Select DC number (1-5) or press Enter for nearest DC: ") w
                        = (Returns tt, w,
                           [Input "Select DC number (1-5) or press Enter for nearest DC: "]))).
  rewrite (bind_returns _ _ _ _ _ _ Es).
  rewrite (bind_returns _ _ _ _ _ _
             (eq_refl : emit (Call (NewClient "qr_auth_session" None true)) w
                        = (Returns tt, w, [Call (NewClient "qr_auth_session" None true)]))).
  rewrite (bind_returns _ _ _ _ _ _
             (eq_refl : modify (set_nearest_dc None) w
                        = (Returns tt, set_nearest_dc None w, []))).
  cbn [trace_of snd].
  match goal with |- context [try_finally ?m ?f ?w'] =>
    destruct (try_finally_extends m f w') as [x1 ->] end.
  match goal with |- context [try_except ?m ?h ?w'] =>
    destruct (try_except_extends m h w') as [x2 ->] end.
  set (w0 := set_nearest_dc None w).
  rewrite (bind_returns _ _ _ _ _ _
             (eq_refl : log INFO [Str "Connecting to Telegram servers..."] w0
                        = (Returns tt, w0,
                           [Log INFO [Str "Connecting to Telegram servers..."]]))).
  assert (Econn : call Connect (connect e) w0 = (Returns tt, w0, [Call Connect])).
  { rewrite Hc. reflexivity. }
  rewrite (bind_returns _ _ _ _ _ _ Econn).
  rewrite (bind_returns _ _ _ _ _ _
             (eq_refl : modify (fun w => set_cl (set_is_connected true (cl w)) w) w0
                        = (Returns tt, set_cl (set_is_connected true (cl w0)) w0, []))).
  set (w2 := set_cl (set_is_connected true (cl w0)) w0).
  rewrite (bind_returns _ _ _ _ _ _
             (eq_refl : log INFO [Str "Connected successfully"] w2
                        = (Returns tt, w2, [Log INFO [Str "Connected successfully"]]))).
  rewrite (bind_returns _ _ _ _ _ _ (Er w2)).
  assert (Hres : filter is_session_call (trace_of (resolve_dc (selection (dc_choice e)) e w2))
                 = []
                 /\ token_requests (trace_of (resolve_dc (selection (dc_choice e)) e w2))
                    = 0%nat).
  { unfold resolve_dc.
    destruct (truthy (selection (dc_choice e))); run; [split; reflexivity|].
    destruct (get_nearest_dc e) as [n|ex]; run; [|split; reflexivity].
    destruct (dict_get DC_INFO n); split; reflexivity. }
  set (tr := trace_of (resolve_dc (selection (dc_choice e)) e w2)) in *. clearbody tr.
  change (set_nearest_dc (Some d) w2) with wc.
  rewrite (bind_returns _ _ _ _ _ _ (eq_refl : get wc = (Returns wc, wc, []))).
  assert (Hn : nearest_dc wc = Some d) by reflexivity.
  assert (Eset :
    (if truthy (nearest_dc wc)
     then
       (log INFO [Str "Setting up session with DC ";
                  Num (match nearest_dc wc with Some d0 => d0 | None => 0 end)] ;;
        ok <- check_session (setup e)
                (match nearest_dc wc with Some d0 => d0 | None => 0 end) ;;
        if ok then ret tt
        else log WARNING [Str "Failed to set up session with DC ";
                          Num (match nearest_dc wc with Some d0 => d0 | None => 0 end)])%monad
     else ret tt) wc
    = (Returns tt, world_of (check_session (setup e) d wc),
       Log INFO [Str "Setting up session with DC "; Num d]
       :: trace_of (check_session (setup e) d wc)
       ++ (if switch_succeeds (setup e) wc then []
           else [Log WARNING [Str "Failed to set up session with DC "; Num d]]))).
  { rewrite Hn. cbn [truthy].
    assert (Hz : (d =? 0) = false) by (apply Z.eqb_neq; exact Hd).
    rewrite Hz. cbn [negb]. run. rewrite check_session_eq.
    destruct (switch_succeeds (setup e) wc); run; cbn [app]; rewrite ?app_nil_r; reflexivity. }
  rewrite (bind_returns _ _ _ _ _ _ Eset).
  match goal with
  | |- context [bind (emit (Call AddHandler)) ?k ?w3] =>
      rewrite (bind_returns (emit (Call AddHandler)) k w3 tt w3 [Call AddHandler] eq_refl)
  end.
  cbn [trace_of snd].
  match goal with |- context [bind (call DispatcherStart ?o) ?k ?w'] =>
    destruct (call_first DispatcherStart o k w') as [x3 ->] end.
  destruct Hpre as [P1 P2], Hs as [S1 S2], Hres as [R1 R2].
  exists ([Log INFO [Str "==== QR CODE AUTHENTICATION ====="]] ++ tp
          ++ [Input "Select DC number (1-5) or press Enter for nearest DC: "] ++ ts
          ++ [Call (NewClient "qr_auth_session" None true);
              Log INFO [Str "Connecting to Telegram servers..."]; Call Connect;
              Log INFO [Str "Connected successfully"]] ++ tr),
         (x3 ++ x2 ++ x1).
  conjs.
  - rewrite <- ?app_assoc. cbn [app]. rewrite <- ?app_assoc. cbn [app].
    rewrite <- ?app_assoc. reflexivity.
  - rewrite !filter_app, P1, S1, R1. reflexivity.
  - rewrite !token_requests_app, P2, S2, R2. reflexivity.
Qed.

Lemma setup_uses_resolved_dc_witness :
  In (Log INFO [Str "Setting up session with DC "; Num 3])
     (trace_of (qr_auth Scenarios.chooses_3 (initial_world Scenarios.client0))).
Proof.
  destruct (setup_uses_resolved_dc Scenarios.chooses_3 (initial_world Scenarios.client0)
              eq_refl ltac:(vm_compute; discriminate))
    as (before & after & E & _).
  rewrite E. apply in_or_app. right. left. reflexivity.
Defined.
End QrSetup.

Section StringAuthMore.
Import StringAuth Readings.
Local Open Scope list_scope.

Ltac srun :=
  cbv beta iota zeta delta [bind get emit modify ret raise try_except try_finally answer
                             fst snd log print];
  cbn [client_built is_connected].

(** The [except] clauses: whatever is raised, one of them catches it,
    logs one error and returns; only a [FloodWait] is followed by a
    sleep. *)
Lemma on_error_run (ex : exn) (w : world) :
  on_error ex w = (Returns tt, w, trace_of (on_error ex w))
  /\ List.length (filter is_error_log (trace_of (on_error ex w))) = 1%nat
  /\ filter QrAuth.is_sleep (trace_of (on_error ex w))
     = (if is_FloodWait ex then [Sleep (exn_value ex)] else [])
  /\ filter is_client_call (trace_of (on_error ex w)) = []
  /\ filter shows_account (trace_of (on_error ex w)) = [].
Proof.
  destruct ex as [[| | | | | | | | | |[] name] v s|name s]; conjs; reflexivity.
Qed.

(** Taking the run of the [except] clauses for what it is. *)
Ltac caught ex :=
  match goal with
  | |- context [on_error ex ?w'] =>
      let E := fresh "E" in
      let He := fresh "He" in
      let Hsl := fresh "Hsl" in
      let Hcl := fresh "Hcl" in
      let Hsh := fresh "Hsh" in
      destruct (on_error_run ex w') as (E & He & Hsl & Hcl & Hsh);
      rewrite E;
      set (caught_trace := trace_of (on_error ex w')) in *; clearbody caught_trace;
      clear E
  end.

Ltac find_in H :=
  first [ exact H
        | apply in_or_app; left; exact H
        | right; find_in H
        | apply in_or_app; right; find_in H ].

(** X22.  [session_string_auth] never raises: every exception of [connect],
    [get_me] and [disconnect], those its docstring lists under "Raises"
    included, is caught and logged.  With a session string that is not
    empty and a fresh client, it builds the client with exactly the text
    that was typed, connects once, asks for the identity once and only
    after the connection was made, and never asks again; it disconnects
    exactly when the connection was made and the client reports that it
    is initialized. *)
Theorem session_string_auth_calls (e : env) (w : world) :
  let r := session_string_auth e w in
  result_of r = Returns tt
  /\ (session_string e <> "" -> is_connected w = false ->
      filter is_client_call (trace_of r)
      = Call (NewClient "string_session" (Some (session_string e)) false)
        :: Call Connect
        :: match connect e with
           | Throws _ => []
           | Gives _ =>
               Call GetMe :: (if is_initialized e then [Call Disconnect] else [])
           end).
Proof.
  cbv zeta. unfold session_string_auth.
  destruct (String.eqb (session_string e) "") eqn:Hs.
  { split; [reflexivity|]. intros Hne _. apply String.eqb_eq in Hs. contradiction. }
  srun.
  destruct (connect e) as [[]|ex]; srun.
  - destruct (get_me e) as [[me bot]|ex]; srun.
    + rewrite andb_true_r.
      destruct (is_initialized e); srun;
        [destruct (disconnect e) as [[]|ex]; srun|];
        (split; [reflexivity|]); intros _ _; reflexivity.
    + caught ex. srun. rewrite andb_true_r.
      destruct (is_initialized e); srun;
        [destruct (disconnect e) as [[]|ex2]; srun|];
        (split; [reflexivity|]); intros _ _;
        cbn [trace_of snd app filter is_client_call]; rewrite !filter_app, Hcl; reflexivity.
  - caught ex. srun.
    destruct (is_initialized e && is_connected w) eqn:Hi; srun;
      [destruct (disconnect e) as [[]|ex2]; srun|];
      (split; [reflexivity|]); intros _ Hw; rewrite Hw, andb_false_r in Hi;
      try discriminate Hi;
      cbn [trace_of snd app filter is_client_call]; rewrite !filter_app, Hcl; reflexivity.
Qed.

Lemma session_string_auth_calls_witness :
  filter is_client_call (trace_of (session_string_auth Runs.revoked_session initial_world))
  = [Call (NewClient "string_session" (Some "BQAAAA") false); Call Connect; Call GetMe;
     Call Disconnect].
Proof.
  destruct (session_string_auth_calls Runs.revoked_session initial_world) as (_ & H).
  apply H; [discriminate | reflexivity].
Defined.

(** X23.  A failure of [connect] or [get_me] with a fresh client.  The
    exception is logged as one error, by the first [except] clause that
    matches, and the function goes to its [finally] block: it shows no
    account information; the only other error it can log is that of a
    failed [disconnect].  It sleeps only for a [FloodWait], once, for
    the seconds the exception names, and does not try again
    afterwards. *)
Theorem session_failure_is_logged_once (e : env) (w : world) (ex : exn) :
  session_string e <> "" ->
  is_connected w = false ->
  connect e = Throws ex \/ (connect e = Gives tt /\ get_me e = Throws ex) ->
  let t := trace_of (session_string_auth e w) in
  filter shows_account t = []
  /\ filter QrAuth.is_sleep t = (if is_FloodWait ex then [Sleep (exn_value ex)] else [])
  /\ List.length (filter is_error_log t)
     = (1 + match connect e, is_initialized e, disconnect e with
            | Gives _, true, Throws _ => 1
            | _, _, _ => 0
            end)%nat
  /\ (exists m rest, trace_of (on_error ex w) = Log ERROR m :: rest /\ In (Log ERROR m) t).
Proof.
  intros Hne Hw Hfail. cbv zeta. unfold session_string_auth.
  destruct (String.eqb (session_string e) "") eqn:Hs.
  { apply String.eqb_eq in Hs. contradiction. }
  assert (Hlog : forall w1 w2, trace_of (on_error ex w1) = trace_of (on_error ex w2)).
  { intros w1 w2. destruct ex as [[| | | | | | | | | |[] name] v s|name s]; reflexivity. }
  assert (Hm : exists m rest, trace_of (on_error ex w) = Log ERROR m :: rest).
  { destruct ex as [[| | | | | | | | | |[] name] v s|name s]; do 2 eexists; reflexivity. }
  destruct Hm as (m & rest & Hm).
  assert (Hin : forall w1, In (Log ERROR m) (trace_of (on_error ex w1))).
  { intro w1. rewrite (Hlog w1 w), Hm. left. reflexivity. }
  srun.
  destruct Hfail as [Hc | [Hc Hg]]; rewrite Hc; srun.
  - match goal with |- context [on_error ex ?w'] => pose proof (Hin w') as Hin' end.
    caught ex. srun. rewrite Hw, andb_false_r. srun.
    cbn [trace_of snd app].
    repeat first [rewrite filter_app | rewrite length_app
                 | progress cbn [filter shows_account QrAuth.is_sleep is_error_log app
                                 List.length String.eqb Ascii.eqb Bool.eqb orb]].
    rewrite Hsh, Hsl, He. rewrite ?app_nil_r.
    conjs; try reflexivity.
    exists m, rest. split; [exact Hm|]. find_in Hin'.
  - rewrite Hg. srun.
    match goal with |- context [on_error ex ?w'] => pose proof (Hin w') as Hin' end.
    caught ex. srun. rewrite andb_true_r.
    destruct (is_initialized e); srun;
      [destruct (disconnect e) as [[]|ex2]; srun|];
      cbn [trace_of snd app];
      repeat first [rewrite filter_app | rewrite length_app
                   | progress cbn [filter shows_account QrAuth.is_sleep is_error_log app
                                   List.length String.eqb Ascii.eqb Bool.eqb orb]];
      rewrite Hsh, Hsl, He, ?app_nil_r;
      (conjs; try reflexivity;
       exists m, rest; (split; [exact Hm|]); find_in Hin').
Qed.

Lemma session_failure_is_logged_once_witness :
  let t := trace_of (session_string_auth Runs.revoked_session initial_world) in
  List.length (filter is_error_log t) = 1%nat
  /\ In (Log ERROR [Str "Session invalid ("; ExcName (RPCError SessionRevoked 0 "SESSION_REVOKED");
                    Str "): The session string is not valid or has expired/been revoked. Re-authentication required."])
        t.
Proof.
  destruct (session_failure_is_logged_once Runs.revoked_session initial_world
              (RPCError SessionRevoked 0 "SESSION_REVOKED"))
    as (_ & _ & H1 & m & rest & Hm & H2);
    [discriminate | reflexivity | right; split; reflexivity |].
  cbv zeta. split; [exact H1|]. injection Hm as <- _. exact H2.
Defined.
End StringAuthMore.
